(** * dev-workflow-config: the setup orchestrator of [bin/setup.js]

    A shallow embedding of the class [DevWorkflowSetup] and the properties
    of its steps.  The project directory is a finite map from root-relative
    paths to nodes, the manifest is a JavaScript value, and every method of
    the class is a computation in a state-and-exception monad over the
    project tree and a trace of the effects performed. *)

From Stdlib Require Import QArith Ascii String.
From stdpp Require Import gmap strings list fin_maps.

Set Warnings "-register-all".

Local Open Scope string_scope.

(** ** JavaScript values, as [fs.readJson] produces them *)

(** A number as [JSON.parse] yields it.  The finite ones are kept as
    rationals: the program only ever tests a number for being zero.  A
    literal beyond the range of a double ([1e400]) is read as an infinity,
    which is truthy and which [JSON.stringify] writes as [null]. *)
Inductive number :=
| Finite (q : Q)
| Infinite (negative : bool).

(** A parsed JSON document.  An array carries, next to its elements, the
    named properties assigned to it ([a.k = v] is legal on an array and
    stays invisible to [JSON.stringify]).  Object fields are kept in
    insertion order. *)
Inductive value :=
| VNull
| VBool (b : bool)
| VNum (n : number)
| VStr (s : string)
| VArr (elems : list value) (props : list (string * value))
| VObj (fields : list (string * value)).

(** Own-property lookup: the first binding of [k]. *)
Fixpoint own_get (k : string) (fs : list (string * value)) : option value :=
  match fs with
  | [] => None
  | (k', v) :: r => if String.eqb k' k then Some v else own_get k r
  end.

(** Own-property assignment: an existing key keeps its position, a new key
    is appended at the end. *)
Fixpoint own_set (k : string) (x : value) (fs : list (string * value))
  : list (string * value) :=
  match fs with
  | [] => [(k, x)]
  | (k', v) :: r =>
      if String.eqb k' k then (k', x) :: r else (k', v) :: own_set k x r
  end.

(** [ToBoolean]; [None] stands for [undefined]. *)
Definition truthy (o : option value) : bool :=
  match o with
  | None => false
  | Some VNull => false
  | Some (VBool b) => b
  | Some (VNum (Finite q)) => negb (Z.eqb (Qnum q) 0)
  | Some (VNum (Infinite _)) => true
  | Some (VStr s) => negb (String.eqb s "")
  | Some (VArr _ _) => true
  | Some (VObj _) => true
  end.

(** What [JSON.stringify] followed by [JSON.parse] keeps of a value: the
    named properties of arrays are dropped, an infinity becomes [null],
    everything else is kept. *)
Fixpoint stringify (v : value) : value :=
  match v with
  | VArr xs _ => VArr (map stringify xs) []
  | VObj fs => VObj (map (fun kv => (fst kv, stringify (snd kv))) fs)
  | VNum (Infinite _) => VNull
  | _ => v
  end.

(** A value as [JSON.parse] can yield it: its arrays carry no named
    property. *)
Fixpoint parsed (v : value) : bool :=
  match v with
  | VArr xs ps => forallb parsed xs && match ps with [] => true | _ => false end
  | VObj fs => forallb (fun kv => parsed (snd kv)) fs
  | _ => true
  end.

(** ** The project tree *)

(** File content: a JSON document (kept parsed) or any other text. *)
Inductive content :=
| Json (v : value)
| Text (s : string).

Inductive node :=
| Dir
| File (c : content) (mode : N).

(** The errors the program can raise.  The two precondition errors and the
    wrapped installation error are the program's own [new Error(...)]; the
    others come from the runtime and the file-system library. *)
Inductive error :=
| NotGitRepo                    (* Not in a git repository. Run git init first. *)
| NoPackageJson                 (* package.json not found. Run npm init first. *)
| InstallFailed (cause : error) (* Failed to install dependencies: <cause> *)
| CommandFailed (cmd : string)  (* execSync: the command exited non-zero *)
| TypeError                     (* property of null read, property of a primitive set *)
| ParseError (p : string)       (* readJson: the file is not JSON *)
| ENOENT (p : string)
| EISDIR (p : string)
| EEXIST (p : string)
| EACCES (p : string)
| OverDirectory (dst src : string). (* fs.copy: Cannot overwrite directory <dst>
                                       with non-directory <src> *)

(** The lines written with [console.log], one constructor per call site. *)
Inductive report :=
| SettingUp
| CheckingPrerequisites
| PrerequisitesPassed
| InstallingDependencies
| DependenciesInstalled
| InitializingHusky
| HuskyInitialized
| HuskyMayBeInitialized         (* the warning of the catch block *)
| CopyingFiles
| Skipped (dest : string)       (* <dest> already exists, skipping... *)
| Created (dest : string)       (* Created <dest> *)
| Updated (dest : string)       (* Updated <dest> *)
| FilesCopied
| UpdatingPackageJson
| AddedScript (script : string) (* Added script: <script> *)
| AddedCommitizen               (* Added commitizen configuration *)
| AddedModuleSupport            (* Added ES module support *)
| PackageJsonUpdated
| SetupComplete.                (* the whole summary of showSuccess *)

(** Everything the program does to its environment, in order. *)
Inductive event :=
| Log (r : report)                  (* console.log *)
| LogError (e : error)              (* console.error: Setup failed: <message> *)
| Exec (cmd : string)               (* execSync *)
| MkDir (p : string)                (* a directory created by ensureDir *)
| CopyFile (src dst : string)       (* fs.copy *)
| Chmod (p : string) (mode : N)     (* fs.chmod *)
| WriteJson (p : string) (v : value). (* fs.writeJson *)

Record world := World { tree : gmap string node; trace : list event }.

(** ** The monad: state and exceptions *)

Inductive outcome (A : Type) :=
| Ok (a : A)
| Throw (e : error).
Arguments Ok {A} a.
Arguments Throw {A} e.

Definition M (A : Type) : Type := world -> outcome A * world.

Definition ret {A} (a : A) : M A := fun w => (Ok a, w).

Definition bind {A B} (m : M A) (k : A -> M B) : M B := fun w =>
  match m w with
  | (Ok a, w') => k a w'
  | (Throw e, w') => (Throw e, w')
  end.

Definition throw {A} (e : error) : M A := fun w => (Throw e, w).

(** [try { m } catch (e) { h e }] *)
Definition try_catch {A} (m : M A) (h : error -> M A) : M A := fun w =>
  match m w with
  | (Ok a, w') => (Ok a, w')
  | (Throw e, w') => h e w'
  end.

(** Lifting of a pure step that may raise. *)
Definition lift {A} (o : outcome A) : M A := fun w => (o, w).

Declare Scope js_scope.
Delimit Scope js_scope with js.
Notation "'let*' x ':=' m 'in' k" := (bind m (fun x => k))
  (at level 10, x name, m at level 100, k at level 200) : js_scope.
Notation "m ';;;' k" := (bind m (fun _ => k))
  (at level 100, right associativity) : js_scope.
Local Open Scope js_scope.

(** [for (const x of l) body(x)] *)
Fixpoint for_of {A} (l : list A) (body : A -> M unit) : M unit :=
  match l with
  | [] => ret tt
  | x :: r => body x ;;; for_of r body
  end.

Definition emit (e : event) : M unit := fun w =>
  (Ok tt, World (tree w) (trace w ++ [e])).

Definition console_log (r : report) : M unit := emit (Log r).

(** ** Paths *)

(** The part of [s] before its last slash, when it has one. *)
Fixpoint before_last_slash (s : string) : option string :=
  match s with
  | EmptyString => None
  | String c r =>
      match before_last_slash r with
      | Some d => Some (String c d)
      | None => if Ascii.eqb c "/"%char then Some EmptyString else None
      end
  end.

(** [path.dirname] on a root-relative path; ["."] is the project root. *)
Definition dirname (s : string) : string :=
  match before_last_slash s with
  | Some d => d
  | None => "."
  end.

(** The directories on the way to [s], outermost first, [s] included:
    what [mkdir -p] has to visit. *)
Fixpoint dir_chain (pre s : string) : list string :=
  match s with
  | EmptyString => [pre]
  | String c r =>
      if Ascii.eqb c "/"%char then pre :: dir_chain (pre +:+ "/") r
      else dir_chain (pre +:+ String c EmptyString) r
  end.

(** A file mode given as a string is read in octal, as [fs.chmod] does. *)
Definition octal_digit (c : Ascii.ascii) : N := (Ascii.N_of_ascii c - 48)%N.

Fixpoint octal (acc : N) (s : string) : N :=
  match s with
  | EmptyString => acc
  | String c r => octal (8 * acc + octal_digit c)%N r
  end.

Definition mode_of_string (s : string) : N := octal 0 s.

(** The owner-execute bit, [0o100]. *)
Definition executable (mode : N) : bool := N.testbit mode 6.

(** The owner-write bit, [0o200]: whether the file may be written, for a
    process that owns it and does not override file modes. *)
Definition writable (mode : N) : bool := N.testbit mode 7.

(** ** The setup class *)

Section Setup.

(** The two things the program is handed from outside: the behaviour of the
    commands it shells out to (exit status zero or not, and the tree they
    leave behind), and the files of its [templates] directory. *)
Variable sh : string -> gmap string node -> bool * gmap string node.
Variable templates : string -> option (content * N).

(** *** Runtime and file-system primitives *)

(** The primitives fail where the tree says they must: on a path that is
    missing, on a directory or a file in the way, on a file that is not
    JSON, on a file that may not be written.  What else the operating
    system may refuse (a directory without write permission, a full disk)
    is not in the tree and not modelled; the properties that depend on it
    are stated for calls that return. *)

(** [execSync(cmd)]: raises when the command exits non-zero. *)
Definition execSync (cmd : string) : M unit := fun w =>
  let r := sh cmd (tree w) in
  let w' := World (snd r) (trace w ++ [Exec cmd]) in
  (if fst r then Ok tt else Throw (CommandFailed cmd), w').

(** [fs.pathExists] and [fs.existsSync]. *)
Definition pathExists (p : string) : M bool := fun w =>
  (Ok (match tree w !! p with Some _ => true | None => false end), w).

(** [mkdir] of one directory on the way of [fs.ensureDir]: a directory that
    is there is left, a file in the way raises [EEXIST]. *)
Definition mkdir (d : string) : M unit := fun w =>
  match tree w !! d with
  | Some Dir => (Ok tt, w)
  | Some (File _ _) => (Throw (EEXIST d), w)
  | None => (Ok tt, World (<[d := Dir]> (tree w)) (trace w ++ [MkDir d]))
  end.

(** [fs.ensureDir]: the root always exists. *)
Definition ensureDir (d : string) : M unit :=
  if String.eqb d "." then ret tt else for_of (dir_chain "" d) mkdir.

(** [fs.copy(srcPath, destPath)] from the templates directory: a file at
    the destination is unlinked first, and the destination receives the
    content and the mode of the template; a directory at the destination
    is not replaced. *)
Definition copy (src dst : string) : M unit := fun w =>
  match templates src with
  | None => (Throw (ENOENT src), w)
  | Some (c, m) =>
      match tree w !! dst with
      | Some Dir => (Throw (OverDirectory dst src), w)
      | _ => (Ok tt, World (<[dst := File c m]> (tree w))
                           (trace w ++ [CopyFile src dst]))
      end
  end.

Definition chmod (p : string) (mode : string) : M unit := fun w =>
  match tree w !! p with
  | None => (Throw (ENOENT p), w)
  | Some Dir => (Ok tt, World (tree w) (trace w ++ [Chmod p (mode_of_string mode)]))
  | Some (File c _) =>
      (Ok tt, World (<[p := File c (mode_of_string mode)]> (tree w))
                    (trace w ++ [Chmod p (mode_of_string mode)]))
  end.

Definition readJson (p : string) : M value := fun w =>
  match tree w !! p with
  | None => (Throw (ENOENT p), w)
  | Some Dir => (Throw (EISDIR p), w)
  | Some (File (Text _) _) => (Throw (ParseError p), w)
  | Some (File (Json v) _) => (Ok v, w)
  end.

(** [fs.writeJson(p, v, { spaces: 2 })]: an existing file is written in
    place and keeps its mode, unless it may not be written; a new one gets
    [0o644]. *)
Definition writeJson (p : string) (v : value) : M unit := fun w =>
  match tree w !! p with
  | Some Dir => (Throw (EISDIR p), w)
  | Some (File _ m) =>
      if writable m
      then (Ok tt, World (<[p := File (Json (stringify v)) m]> (tree w))
                         (trace w ++ [WriteJson p (stringify v)]))
      else (Throw (EACCES p), w)
  | None =>
      (Ok tt, World (<[p := File (Json (stringify v)) 420%N]> (tree w))
                    (trace w ++ [WriteJson p (stringify v)]))
  end.

(** Reading a property: [undefined] and [null] have none; the names the
    program reads are not defined on any prototype, so only own properties
    count. *)
Definition get_prop (o : option value) (k : string) : outcome (option value) :=
  match o with
  | None => Throw TypeError
  | Some VNull => Throw TypeError
  | Some (VObj fs) => Ok (own_get k fs)
  | Some (VArr _ ps) => Ok (own_get k ps)
  | Some _ => Ok None
  end.

(** Assigning a property: module code is strict, so assignment to a
    primitive raises. *)
Definition set_prop (o : option value) (k : string) (x : value) : outcome value :=
  match o with
  | Some (VObj fs) => Ok (VObj (own_set k x fs))
  | Some (VArr xs ps) => Ok (VArr xs (own_set k x ps))
  | _ => Throw TypeError
  end.

(** *** [checkPrerequisites] *)

Definition checkPrerequisites : M unit :=
  console_log CheckingPrerequisites ;;;
  try_catch (execSync "git rev-parse --git-dir") (fun _ => throw NotGitRepo) ;;;
  let* present := pathExists "package.json" in
  (if negb present then throw NoPackageJson else ret tt) ;;;
  console_log PrerequisitesPassed.

(** *** [detectPackageManager] and [installDependencies] *)

Definition detectPackageManager : M string :=
  let* pnpm := pathExists "pnpm-lock.yaml" in
  if pnpm then ret "pnpm"
  else
    let* yarn := pathExists "yarn.lock" in
    if yarn then ret "yarn" else ret "npm".

Definition deps : list string :=
  [ "husky@^9.1.7";
    "lint-staged@^16.1.2";
    "@commitlint/cli@^19.8.1";
    "@commitlint/config-conventional@^19.8.1";
    "commitizen@^4.3.1";
    "cz-conventional-changelog@^3.3.0" ].

Definition installCmd (packageManager : string) : string :=
  if String.eqb packageManager "pnpm"
  then "pnpm add -D " +:+ String.concat " " deps
  else "npm install --save-dev " +:+ String.concat " " deps.

Definition installDependencies : M unit :=
  console_log InstallingDependencies ;;;
  try_catch
    (let* packageManager := detectPackageManager in
     execSync (installCmd packageManager) ;;;
     console_log DependenciesInstalled)
    (fun e => throw (InstallFailed e)).

(** *** [initializeHusky] *)

Definition initializeHusky : M unit :=
  console_log InitializingHusky ;;;
  try_catch
    (execSync "npx husky init" ;;; console_log HuskyInitialized)
    (fun _ => console_log HuskyMayBeInitialized).

(** *** [copyConfigFiles] *)

Record entry := Entry { src : string; dest : string }.

Definition filesToCopy : list entry :=
  [ Entry ".lintstagedrc.js" ".lintstagedrc.js";
    Entry "commitlint.config.js" "commitlint.config.js";
    Entry ".nvmrc" ".nvmrc";
    Entry ".vscode/settings.json" ".vscode/settings.json";
    Entry ".vscode/extensions.json" ".vscode/extensions.json";
    Entry ".husky/pre-commit" ".husky/pre-commit";
    Entry ".husky/pre-push" ".husky/pre-push";
    Entry ".husky/commit-msg" ".husky/commit-msg" ].

(** The body of the loop over [filesToCopy]. *)
Definition copyConfigFile (file : entry) : M unit :=
  ensureDir (dirname (dest file)) ;;;
  let shouldOverwrite := String.prefix ".husky/" (dest file) in
  let* present := pathExists (dest file) in
  if present && negb shouldOverwrite then
    console_log (Skipped (dest file))
  else
    copy (src file) (dest file) ;;;
    (if String.prefix ".husky/" (dest file)
     then chmod (dest file) "755" else ret tt) ;;;
    let* now_present :=
      (if shouldOverwrite then pathExists (dest file) else ret false) in
    console_log
      ((if shouldOverwrite && now_present then Updated else Created) (dest file)).

Definition copyConfigFiles : M unit :=
  console_log CopyingFiles ;;;
  for_of filesToCopy copyConfigFile ;;;
  console_log FilesCopied.

(** *** [updatePackageJson] *)

Definition scriptsToAdd : list (string * string) :=
  [ ("prepare", "husky"); ("commit", "cz") ].

(** The body of the loop over [scriptsToAdd]; the loop carries the manifest
    object and the flag [scriptsAdded].  The object held under [scripts] is
    mutated in place, which for the manifest is the same as holding the
    mutated object under [scripts]. *)
Definition addScript (st : value * bool) (item : string * string)
  : M (value * bool) :=
  let packageJson := fst st in
  let* scripts := lift (get_prop (Some packageJson) "scripts") in
  let* current := lift (get_prop scripts (fst item)) in
  if negb (truthy current) then
    let* scripts' := lift (set_prop scripts (fst item) (VStr (snd item))) in
    let* packageJson' := lift (set_prop (Some packageJson) "scripts" scripts') in
    console_log (AddedScript (fst item)) ;;;
    ret (packageJson', true)
  else ret st.

Fixpoint for_acc {A S} (l : list A) (s : S) (body : S -> A -> M S) : M S :=
  match l with
  | [] => ret s
  | x :: r => let* s' := body s x in for_acc r s' body
  end.

Definition commitizenConfig : value :=
  VObj [ ("path", VStr "cz-conventional-changelog") ].

(** The block [// Add scripts]. *)
Definition addScripts (packageJson : value) : M (value * bool) :=
  let* scripts := lift (get_prop (Some packageJson) "scripts") in
  let* packageJson :=
    (if negb (truthy scripts)
     then lift (set_prop (Some packageJson) "scripts" (VObj []))
     else ret packageJson) in
  for_acc scriptsToAdd (packageJson, false) addScript.

(** The block [// Add commitizen config]. *)
Definition addCommitizen (packageJson : value) : M value :=
  let* config := lift (get_prop (Some packageJson) "config") in
  let* packageJson :=
    (if negb (truthy config)
     then lift (set_prop (Some packageJson) "config" (VObj []))
     else ret packageJson) in
  let* config := lift (get_prop (Some packageJson) "config") in
  let* commitizen := lift (get_prop config "commitizen") in
  if negb (truthy commitizen) then
    let* config' := lift (set_prop config "commitizen" commitizenConfig) in
    let* packageJson' := lift (set_prop (Some packageJson) "config" config') in
    console_log AddedCommitizen ;;;
    ret packageJson'
  else ret packageJson.

(** The block [// Add ES module support]. *)
Definition addModuleType (packageJson : value) : M value :=
  let* type := lift (get_prop (Some packageJson) "type") in
  if negb (truthy type) then
    let* packageJson' := lift (set_prop (Some packageJson) "type" (VStr "module")) in
    console_log AddedModuleSupport ;;;
    ret packageJson'
  else ret packageJson.

(** The three blocks in sequence: the manifest object as it is in memory
    when the final [if] is reached, and the flag [scriptsAdded]. *)
Definition patchManifest (packageJson : value) : M (value * bool) :=
  let* st := addScripts packageJson in
  let* packageJson := addCommitizen (fst st) in
  let* packageJson := addModuleType packageJson in
  ret (packageJson, snd st).

(** The condition of the final [if]: [||] evaluates its right operand only
    when the left one is false. *)
Definition needsWrite (packageJson : value) (scriptsAdded : bool) : M bool :=
  if scriptsAdded then ret true
  else
    let* config := lift (get_prop (Some packageJson) "config") in
    let* commitizen := lift (get_prop config "commitizen") in
    if negb (truthy commitizen) then ret true
    else
      let* type := lift (get_prop (Some packageJson) "type") in
      ret (negb (truthy type)).

Definition updatePackageJson : M unit :=
  console_log UpdatingPackageJson ;;;
  let* packageJson := readJson "package.json" in
  let* st := patchManifest packageJson in
  let* write := needsWrite (fst st) (snd st) in
  (if write then writeJson "package.json" (fst st) else ret tt) ;;;
  console_log PackageJsonUpdated.

(** *** [showSuccess] and [run] *)

Definition showSuccess : M unit := console_log SetupComplete.

Definition steps : M unit :=
  checkPrerequisites ;;;
  installDependencies ;;;
  initializeHusky ;;;
  copyConfigFiles ;;;
  updatePackageJson ;;;
  showSuccess.

(** [run] returns the exit code of the process: [process.exit(1)] in the
    handler, 0 otherwise. *)
Definition run (w : world) : nat * world :=
  match (console_log SettingUp ;;; steps) w with
  | (Ok _, w') => (0, w')
  | (Throw e, w') => (1, World (tree w') (trace w' ++ [LogError e]))
  end.

End Setup.

(** ** Vocabulary of the properties *)

(** [o.k] as an expression that cannot raise: [undefined] where the read
    itself would raise. *)
Definition field (o : option value) (k : string) : option value :=
  match get_prop o k with
  | Ok r => r
  | Throw _ => None
  end.

Definition is_object (o : option value) : bool :=
  match o with
  | Some (VObj _) => true
  | _ => false
  end.

(** The in-memory patch never assigns over a truthy property: at the top
    level (the objects under [scripts] and [config] are mutated, not
    replaced, so they are compared one level down), under [scripts] and
    under [config]; and what was an object still is one. *)
Definition keeps (m m' : value) : Prop :=
  (∀ k, k ≠ "scripts" → k ≠ "config" →
        truthy (field (Some m) k) = true →
        field (Some m') k = field (Some m) k) ∧
  (∀ k, truthy (field (field (Some m) "scripts") k) = true →
        field (field (Some m') "scripts") k = field (field (Some m) "scripts") k) ∧
  (∀ k, truthy (field (field (Some m) "config") k) = true →
        field (field (Some m') "config") k = field (field (Some m) "config") k) ∧
  is_object (Some m') = is_object (Some m) ∧
  (∀ c, is_object (field (Some m) c) = true → is_object (field (Some m') c) = true).

(** A manifest of the documented shape: an object whose [scripts], when
    set, is a mapping. *)
Definition manifest_shape (m : value) : bool :=
  is_object (Some m) &&
  (negb (truthy (field (Some m) "scripts")) || is_object (field (Some m) "scripts")).

(** An object or an array: what a property can be assigned on. *)
Definition is_container (o : option value) : bool :=
  match o with
  | Some (VObj _) | Some (VArr _ _) => true
  | _ => false
  end.

(** A manifest whose [config], when set, can take a property. *)
Definition config_ok (m : value) : bool :=
  negb (truthy (field (Some m) "config")) || is_container (field (Some m) "config").

(** A manifest in which both scripts are already set. *)
Definition scripts_settled (m : value) : bool :=
  is_object (Some m) && is_object (field (Some m) "scripts") &&
  truthy (field (field (Some m) "scripts") "prepare") &&
  truthy (field (field (Some m) "scripts") "commit").

(** A value that is as truthy written as read: not an infinity, which is
    written as [null]. *)
Definition survives (o : option value) : bool :=
  implb (truthy o) (truthy (stringify <$> o)).

(** A manifest of the documented shape whose two scripts, when set, are
    as truthy written as read. *)
Definition manifest_sound (m : value) : bool :=
  manifest_shape m &&
  survives (field (field (Some m) "scripts") "prepare") &&
  survives (field (field (Some m) "scripts") "commit").

(** What the manifest file holds of a property [o] of the manifest read:
    [o] itself while the file has not been written, and [o] as it is
    serialised once it has. *)
Definition as_written (written : bool) (o : option value) : option value :=
  if written then stringify <$> o else o.

(** The lines [updatePackageJson] logs. *)
Definition is_patch_log (e : event) : bool :=
  match e with
  | Log UpdatingPackageJson | Log (AddedScript _) | Log AddedCommitizen
  | Log AddedModuleSupport | Log PackageJsonUpdated => true
  | _ => false
  end.

Definition isHook (file : entry) : bool := String.prefix ".husky/" (dest file).

(** The program's own changes to the file system (the commands it
    delegates to are not among them). *)
Definition is_effect (e : event) : bool :=
  match e with
  | MkDir _ | CopyFile _ _ | Chmod _ _ | WriteJson _ _ => true
  | _ => false
  end.

(** The per-file reports of [copyConfigFiles]. *)
Definition is_file_report (e : event) : bool :=
  match e with
  | Log (Skipped _) | Log (Created _) | Log (Updated _) => true
  | _ => false
  end.

(** Relations between the world before and after a computation: the tree
    is the same and only lines of the manifest patch were logged. *)
Definition only_logs (w w' : world) : Prop :=
  tree w' = tree w ∧
  ∃ evs, trace w' = (trace w ++ evs)%list ∧ forallb is_patch_log evs = true.

(** Every node is left as it was, or is a directory of [D] created at a
    free path, or is a file of [F] written where no directory stood. *)
Definition touches (D F : list string) (w w' : world) : Prop :=
  ∀ p,
    tree w' !! p = tree w !! p ∨
    (p ∈ D ∧ tree w !! p = None ∧ tree w' !! p = Some Dir) ∨
    (p ∈ F ∧ tree w !! p ≠ Some Dir ∧ ∃ c m, tree w' !! p = Some (File c m)).

(** A computation whose effect on the world always lies in [R]. *)
Definition respects {A} (R : relation world) (m : M A) : Prop :=
  ∀ w, R w (m w).2.

(** The destinations and the directories [copyConfigFiles] may touch. *)
Definition materialized : list string :=
  ".vscode" :: ".husky" :: (dest <$> filesToCopy).

(** The paths the end-to-end properties speak about. *)
Definition tracked : list string := "package.json" :: materialized.

(** An entry whose destination lies at the root or one directory below
    it, as all the shipped ones do. *)
Definition shallow (file : entry) : Prop :=
  let d := dirname (dest file) in
  (d = "." ∨ (d ≠ "." ∧ dir_chain "" d = [d])) ∧ d ≠ dest file.

(** What one round of the loop of [copyConfigFiles] leaves behind for its
    entry: the directory, and the file, which for a hook is the template
    with mode [0o755]. *)
Definition entry_present (templates : string → option (content * N))
    (file : entry) (t : gmap string node) : Prop :=
  (dirname (dest file) = "." ∨ t !! dirname (dest file) = Some Dir) ∧
  if isHook file
  then ∃ c m, templates (src file) = Some (c, m) ∧
              t !! dest file = Some (File c (mode_of_string "755"))
  else is_Some (t !! dest file).

(** The effects of one round on a tree in which the entry is present. *)
Definition entry_events (file : entry) : list event :=
  if isHook file
  then [ CopyFile (src file) (dest file);
         Chmod (dest file) (mode_of_string "755");
         Log (Updated (dest file)) ]
  else [ Log (Skipped (dest file)) ].

(** A delegated command leaves the listed paths as it found them. *)
Definition sh_leaves (sh : string → gmap string node → bool * gmap string node)
    (paths : list string) : Prop :=
  ∀ cmd t p, p ∈ paths → (sh cmd t).2 !! p = t !! p.

(** ** Sample environments *)

(** Delegated commands that succeed and change nothing. *)
Definition sh_ok (cmd : string) (t : gmap string node) : bool * gmap string node :=
  (true, t).

(** Delegated commands of which only the hook initialisation fails. *)
Definition sh_husky_fails (cmd : string) (t : gmap string node)
  : bool * gmap string node :=
  (negb (String.eqb cmd "npx husky init"), t).

(** Delegated commands that all fail. *)
Definition sh_fail (cmd : string) (t : gmap string node) : bool * gmap string node :=
  (false, t).

(** A templates directory holding the eight shipped files. *)
Definition sample_templates (s : string) : option (content * N) :=
  if existsb (String.eqb s) (map src filesToCopy)
  then Some (Text ("template " +:+ s), 420%N)
  else None.

Definition manifest_x : value := VObj [ ("name", VStr "x") ].


(** A manifest with both scripts, without [config] and without [type]. *)
Definition manifest_scripts_only : value :=
  VObj [ ("name", VStr "x");
         ("scripts", VObj [ ("prepare", VStr "husky"); ("commit", VStr "cz") ]) ].

(** A manifest whose [type] is a number beyond the range of a double,
    as [1e400] is read. *)
Definition manifest_huge_type : value :=
  VObj [ ("name", VStr "x"); ("type", VNum (Infinite false)) ].


Definition project (m : value) : gmap string node :=
  {[ "package.json" := File (Json m) 420%N ]}.

(** A project with a file of its own next to the manifest. *)
Definition project_with_readme : gmap string node :=
  <["README.md" := File (Text "hello") 420%N]> (project manifest_x).

(** ** Vocabulary of the further properties *)

(** A manifest the patch can be applied to: an object or an array whose
    [scripts] and [config], when set, can take a property. *)
Definition patchable (m : value) : bool :=
  is_container (Some m) &&
  (negb (truthy (field (Some m) "scripts")) || is_container (field (Some m) "scripts")) &&
  config_ok m.

(** A computation whose errors all lie in [P]. *)
Definition raises {A} (P : error → Prop) (m : M A) : Prop :=
  ∀ w e w', m w = (Throw e, w') → P e.


(** [o'] has the properties of [o], those named in [ks] apart. *)
Definition same_off (ks : list string) (o o' : option value) : Prop :=
  ∀ k, k ∉ ks → field o' k = field o k.

(** [if (!old) old = d]. *)
Definition or_default (old : option value) (d : value) : option value :=
  if truthy old then old else Some d.

(** The own keys of a value, in order. *)
Definition keys (o : option value) : list string :=
  match o with
  | Some (VObj fs) => fs.*1
  | Some (VArr _ ps) => ps.*1
  | _ => []
  end.

(** A key put where assignment puts it: its place when it has one, the
    end otherwise. *)
Definition add_key (k : string) (l : list string) : list string :=
  if decide (k ∈ l) then l else (l ++ [k])%list.

(** The lines the patch logs for a manifest, one for each property it
    finds unset. *)
Definition added_lines (m : value) : list event :=
  ((if truthy (field (field (Some m) "scripts") "prepare")
    then [] else [Log (AddedScript "prepare")]) ++
   (if truthy (field (field (Some m) "scripts") "commit")
    then [] else [Log (AddedScript "commit")]) ++
   (if truthy (field (field (Some m) "config") "commitizen")
    then [] else [Log AddedCommitizen]) ++
   (if truthy (field (Some m) "type")
    then [] else [Log AddedModuleSupport]))%list.

(** A manifest with scripts, settings and a type of its own, in which
    [prepare] is the empty string and [commit] is unset. *)
Definition manifest_own : value :=
  VObj [ ("name", VStr "x");
         ("type", VStr "commonjs");
         ("scripts", VObj [ ("test", VStr "jest"); ("prepare", VStr "") ]);
         ("config", VObj [ ("port", VNum (Finite 8080)) ]);
         ("private", VBool true) ].

(** What [copyConfigFiles] leaves at the destination of an entry, given
    the tree [t] it started from: for a hook the template with mode
    [0o755]; for any other entry what was there, or else the template as
    it is. *)
Definition entry_result (templates : string → option (content * N))
    (t : gmap string node) (file : entry) (t' : gmap string node) : Prop :=
  if isHook file
  then ∃ c m, templates (src file) = Some (c, m) ∧
              t' !! dest file = Some (File c (mode_of_string "755"))
  else match t !! dest file with
       | Some n => t' !! dest file = Some n
       | None => ∃ c m, templates (src file) = Some (c, m) ∧
                        t' !! dest file = Some (File c m)
       end.

(** The line [copyConfigFiles] logs for an entry, given the tree it
    started from. *)
Definition entry_report (t : gmap string node) (file : entry) : event :=
  Log ((if isHook file then Updated
        else match t !! dest file with
             | Some _ => Skipped
             | None => Created
             end) (dest file)).

(** What a round of the loop needs of the tree: no file where the
    directory of the entry is to be; for a hook its template, and no
    directory at the destination; for any other entry its template, unless
    something is at the destination. *)
Definition entry_ready (templates : string → option (content * N))
    (t : gmap string node) (file : entry) : Prop :=
  (dirname (dest file) = "." ∨ ∀ c m, t !! dirname (dest file) ≠ Some (File c m)) ∧
  if isHook file
  then is_Some (templates (src file)) ∧ t !! dest file ≠ Some Dir
  else is_Some (t !! dest file) ∨ is_Some (templates (src file)).

(** A templates directory from which [.nvmrc] is missing. *)
Definition templates_without_nvmrc (s : string) : option (content * N) :=
  if String.eqb s ".nvmrc" then None else sample_templates s.

(** A project with a [.nvmrc] and a hook of its own. *)
Definition project_with_files : gmap string node :=
  <[".nvmrc" := File (Text "18") 384%N]>
    (<[".husky/pre-push" := File (Text "old hook") 420%N]>
       (<[".husky" := Dir]> (project manifest_x))).

(** Only events of [P] are appended to the trace. *)
Definition emits (P : event → bool) (w w' : world) : Prop :=
  ∃ evs, trace w' = (trace w ++ evs)%list ∧ forallb P evs = true.

(** The listed paths are left as they were. *)
Definition leaves_paths (ps : list string) (w w' : world) : Prop :=
  ∀ p, p ∈ ps → tree w' !! p = tree w !! p.

Definition is_exec (e : event) : bool :=
  match e with Exec _ => true | _ => false end.

Definition is_error_report (e : event) : bool :=
  match e with LogError _ => true | _ => false end.

(** What [copyConfigFiles] does to the file system. *)
Definition is_copy_effect (e : event) : bool :=
  match e with
  | MkDir _ | CopyFile _ _ | Chmod _ _ => true
  | _ => false
  end.

(** Everything the program does to its environment, the lines it prints
    apart. *)
Definition is_action (e : event) : bool := is_exec e || is_effect e.

(** A project whose manifest is not JSON. *)
Definition project_unparseable : gmap string node :=
  {[ "package.json" := File (Text "{ name: x") 420%N ]}.

(** ** Vocabulary of the end-to-end properties *)

(** What the delegated commands may have made of a manifest [m0] by the
    time it is patched: the installation records packages under
    [devDependencies], the hook initialisation sets the [prepare] script
    to ["husky"], creating [scripts] for it; the manifest is still an
    object, and nothing else in it has changed. *)
Definition tooled (m0 m : value) : Prop :=
  manifest_shape m = true ∧
  same_off ["devDependencies"; "scripts"] (Some m0) (Some m) ∧
  same_off ["prepare"] (field (Some m0) "scripts") (field (Some m) "scripts") ∧
  (field (field (Some m) "scripts") "prepare"
   = field (field (Some m0) "scripts") "prepare"
   ∨ field (field (Some m) "scripts") "prepare" = Some (VStr "husky")).

(** A tree on which the round of an entry goes through without creating
    anything: the directory is there; for a hook, the template is there
    and no directory stands in its way; any other entry is there. *)
Definition entry_standing (templates : string → option (content * N))
    (file : entry) (t : gmap string node) : Prop :=
  (dirname (dest file) = "." ∨ t !! dirname (dest file) = Some Dir) ∧
  if isHook file
  then is_Some (templates (src file)) ∧ t !! dest file ≠ Some Dir
  else is_Some (t !! dest file).

(** The hooks among the entries. *)
Definition hooks : list entry := filter (λ file, isHook file = true) filesToCopy.

(** The tracked paths apart from the hooks: the manifest, the two
    directories and the five other destinations. *)
Definition settled_paths : list string :=
  "package.json" :: ".vscode" :: ".husky" ::
  (dest <$> filter (λ file, isHook file = false) filesToCopy).

(** Delegated commands that behave as the tools do on a manifest they can
    read: the installation records the packages under [devDependencies];
    the hook initialisation sets [scripts.prepare], creating [scripts]
    when it is not set, and creates [.husky] with a sample [pre-commit]
    hook.  Both write the manifest back as [JSON.stringify] renders it,
    and fail on a manifest they cannot assign into. *)
Definition sh_tools (cmd : string) (t : gmap string node) : bool * gmap string node :=
  match t !! "package.json" with
  | Some (File (Json m) mode) =>
      if String.eqb cmd "npx husky init" then
        let scripts := if truthy (field (Some m) "scripts")
                       then field (Some m) "scripts" else Some (VObj []) in
        match set_prop scripts "prepare" (VStr "husky") with
        | Ok scripts' =>
            match set_prop (Some m) "scripts" scripts' with
            | Ok m' =>
                (true,
                 <[".husky/pre-commit" := File (Text "npm test") 493%N]>
                   (<[".husky" := Dir]>
                      (<["package.json" := File (Json (stringify m')) mode]> t)))
            | Throw _ => (false, t)
            end
        | Throw _ => (false, t)
        end
      else if String.prefix "npm install " cmd then
        match set_prop (Some m) "devDependencies"
                (VObj [ ("husky", VStr "^9.1.7") ]) with
        | Ok m' => (true, <["package.json" := File (Json (stringify m')) mode]> t)
        | Throw _ => (false, t)
        end
      else (true, t)
  | _ => (String.prefix "git " cmd, t)
  end.

(** The manifest [{"name":"x"}] as these commands leave it. *)
Definition manifest_tooled : value :=
  VObj [ ("name", VStr "x");
         ("devDependencies", VObj [ ("husky", VStr "^9.1.7") ]);
         ("scripts", VObj [ ("prepare", VStr "husky") ]) ].

(** The three steps of [run] that shell out, from the world [run] starts
    them in. *)
Definition delegated (sh : string → gmap string node → bool * gmap string node)
    (w : world) : outcome unit * world :=
  (checkPrerequisites sh ;;; installDependencies sh ;;; initializeHusky sh)
    (World (tree w) (trace w ++ [Log SettingUp])).

(** A fresh project, and the same after one run and after two. *)
Definition fresh : world := World (project manifest_x) [].

Definition once : world := (run sh_tools sample_templates fresh).2.

(** A manifest whose [scripts] is an array. *)
Definition manifest_array_scripts : value :=
  VObj [ ("name", VStr "x"); ("scripts", VArr [] []) ].

Definition array_once : world :=
  (run sh_tools sample_templates (World (project manifest_array_scripts) [])).2.

Definition array_twice : world := (run sh_tools sample_templates array_once).2.

(** * Properties *)

(** ** The monad *)

Lemma bind_inv {A B} (m : M A) (k : A → M B) w o w' :
  bind m k w = (o, w') →
  (∃ e, m w = (Throw e, w') ∧ o = Throw e) ∨
  (∃ a w1, m w = (Ok a, w1) ∧ k a w1 = (o, w')).
Proof.
  unfold bind. destruct (m w) as [[a|e] w1]; intros H.
  - right. eauto.
  - left. exists e. by simplify_eq.
Qed.

Lemma bind_Ok_inv {A B} (m : M A) (k : A → M B) w b w' :
  bind m k w = (Ok b, w') → ∃ a w1, m w = (Ok a, w1) ∧ k a w1 = (Ok b, w').
Proof.
  intros H. apply bind_inv in H as [(e & _ & ?)|?]; [done|done].
Qed.

Lemma bind_Ok {A B} (m : M A) (k : A → M B) w a w1 :
  m w = (Ok a, w1) → bind m k w = k a w1.
Proof. unfold bind. by intros ->. Qed.

Lemma bind_Throw {A B} (m : M A) (k : A → M B) w e w1 :
  m w = (Throw e, w1) → bind m k w = (Throw e, w1).
Proof. unfold bind. by intros ->. Qed.

Lemma lift_inv {A} (o : outcome A) w r w' : lift o w = (r, w') → r = o ∧ w' = w.
Proof. unfold lift. intros; by simplify_eq. Qed.

Lemma ret_inv {A} (a : A) w r w' : ret a w = (r, w') → r = Ok a ∧ w' = w.
Proof. unfold ret. intros; by simplify_eq. Qed.

Section Respects.
Context (R : relation world) `{!PreOrder R}.

Lemma respects_ret {A} (a : A) : respects R (ret a).
Proof. intros w. simpl. reflexivity. Qed.

Lemma respects_throw {A} e : respects R (@throw A e).
Proof. intros w. simpl. reflexivity. Qed.

Lemma respects_lift {A} (o : outcome A) : respects R (lift o).
Proof. intros w. simpl. reflexivity. Qed.

Lemma respects_bind {A B} (m : M A) (k : A → M B) :
  respects R m → (∀ a, respects R (k a)) → respects R (bind m k).
Proof.
  intros Hm Hk w. specialize (Hm w). unfold bind.
  destruct (m w) as [[a|e] w1]; simpl in *; [|done].
  etrans; [exact Hm|apply Hk].
Qed.

Lemma respects_try_catch {A} (m : M A) (h : error → M A) :
  respects R m → (∀ e, respects R (h e)) → respects R (try_catch m h).
Proof.
  intros Hm Hh w. specialize (Hm w). unfold try_catch.
  destruct (m w) as [[a|e] w1]; simpl in *; [done|].
  etrans; [exact Hm|apply Hh].
Qed.

Lemma respects_if {A} (b : bool) (m1 m2 : M A) :
  respects R m1 → respects R m2 → respects R (if b then m1 else m2).
Proof. by destruct b. Qed.

Lemma respects_for_of {A} (l : list A) (body : A → M unit) :
  Forall (λ x, respects R (body x)) l → respects R (for_of l body).
Proof.
  induction 1 as [|x r Hx _ IH]; simpl.
  - apply respects_ret.
  - apply respects_bind; [done|]. intros _. exact IH.
Qed.

Lemma respects_for_acc {A S} (l : list A) (s : S) (body : S → A → M S) :
  (∀ s x, respects R (body s x)) → respects R (for_acc l s body).
Proof.
  intros Hb. revert s. induction l as [|x r IH]; intros s; simpl.
  - apply respects_ret.
  - apply respects_bind; [apply Hb|]. intros s'. apply IH.
Qed.
End Respects.

(** ** Objects and their properties *)

Lemma own_get_set_eq k x fs : own_get k (own_set k x fs) = Some x.
Proof.
  induction fs as [|[k' v] r IH]; simpl.
  - by rewrite String.eqb_refl.
  - destruct (String.eqb k' k) eqn:E; simpl; rewrite E; done.
Qed.

Lemma own_get_set_ne k k' x fs :
  k ≠ k' → own_get k' (own_set k x fs) = own_get k' fs.
Proof.
  intros Hne. induction fs as [|[k0 v] r IH]; simpl.
  - destruct (String.eqb_spec k k'); done.
  - destruct (String.eqb_spec k0 k) as [->|]; simpl.
    + destruct (String.eqb_spec k k'); done.
    + destruct (String.eqb_spec k0 k'); done.
Qed.

(** Assignment never duplicates a key. *)
Lemma own_set_keys k x fs :
  (own_set k x fs).*1 = if decide (k ∈ fs.*1) then fs.*1 else (fs.*1 ++ [k])%list.
Proof.
  induction fs as [|[k' v] r IH]; cbn [own_set fmap list_fmap fst].
  - by rewrite decide_False by apply not_elem_of_nil.
  - destruct (String.eqb_spec k' k) as [->|Hne]; cbn [fmap list_fmap fst].
    + rewrite decide_True; [done|by left].
    + change (list_fmap _ _ fst ?l) with (l.*1). rewrite IH.
      destruct (decide (k ∈ r.*1)) as [Hin|Hnin].
      * rewrite decide_True; [done|by right].
      * rewrite decide_False; [done|]. rewrite not_elem_of_cons. by split.
Qed.

Lemma own_set_NoDup k x fs : NoDup fs.*1 → NoDup (own_set k x fs).*1.
Proof.
  intros Hnd. rewrite own_set_keys. destruct (decide (k ∈ fs.*1)); [done|].
  apply NoDup_app. split_and!; [done| |apply NoDup_singleton].
  intros y Hy ->%list_elem_of_singleton. done.
Qed.

Lemma field_get o k r : get_prop o k = Ok r → field o k = r.
Proof. unfold field. by intros ->. Qed.

Lemma field_set_eq o k x v : set_prop o k x = Ok v → field (Some v) k = Some x.
Proof.
  unfold field.
  destruct o as [[]|]; simpl; intros; simplify_eq; simpl; by rewrite own_get_set_eq.
Qed.

Lemma field_set_ne o k k' x v :
  set_prop o k x = Ok v → k ≠ k' → field (Some v) k' = field o k'.
Proof.
  unfold field.
  destruct o as [[]|]; simpl; intros; simplify_eq; simpl; by rewrite own_get_set_ne.
Qed.

Lemma field_falsy o k : truthy o = false → field o k = None.
Proof. unfold field. by destruct o as [[]|]. Qed.

Lemma truthy_field_get o k :
  truthy (field o k) = true → get_prop o k = Ok (field o k).
Proof. unfold field. by destruct (get_prop o k). Qed.

Lemma set_prop_object o k x v :
  set_prop o k x = Ok v → is_object (Some v) = is_object o.
Proof. destruct o as [[]|]; simpl; intros; by simplify_eq. Qed.

Lemma survives_truthy o :
  survives o = true → truthy o = true → truthy (stringify <$> o) = true.
Proof. unfold survives. intros H Ht. by rewrite Ht in H. Qed.

Lemma own_get_stringify k fs :
  own_get k (map (λ kv, (kv.1, stringify kv.2)) fs) = stringify <$> own_get k fs.
Proof.
  induction fs as [|[k' v] r IH]; simpl; [done|].
  by destruct (String.eqb k' k).
Qed.

Lemma field_stringify_object fs k :
  field (Some (stringify (VObj fs))) k = stringify <$> field (Some (VObj fs)) k.
Proof. unfold field. simpl. apply own_get_stringify. Qed.

Lemma scripts_settled_stringify m :
  scripts_settled m = true →
  survives (field (field (Some m) "scripts") "prepare") = true →
  survives (field (field (Some m) "scripts") "commit") = true →
  scripts_settled (stringify m) = true.
Proof.
  unfold scripts_settled. destruct m as [| | | | |fs]; try done.
  rewrite field_stringify_object.
  destruct (field (Some (VObj fs)) "scripts") as [[| | | | |sfs]|]; try done.
  change (stringify <$> Some (VObj sfs)) with (Some (stringify (VObj sfs))).
  rewrite !field_stringify_object.
  intros [[_ Hp]%andb_prop Hc]%andb_prop Sp Sc.
  by rewrite (survives_truthy _ Sp Hp), (survives_truthy _ Sc Hc).
Qed.

(** ** The in-memory patch never assigns over a truthy property *)

Lemma keeps_refl m : keeps m m.
Proof. by repeat split. Qed.

Lemma keeps_trans m1 m2 m3 : keeps m1 m2 → keeps m2 m3 → keeps m1 m3.
Proof.
  intros (T1 & S1 & C1 & O1 & P1) (T2 & S2 & C2 & O2 & P2). split_and!.
  - intros k ? ? Hk. rewrite <- (T1 k) by done. apply T2; try done.
    by rewrite T1.
  - intros k Hk. rewrite <- (S1 k) by done. apply S2. by rewrite S1.
  - intros k Hk. rewrite <- (C1 k) by done. apply C2. by rewrite C1.
  - congruence.
  - intros c Hc. by apply P2, P1.
Qed.

Lemma is_object_truthy o : is_object o = true → truthy o = true.
Proof. by destruct o as [[]|]. Qed.

(** [if (!m[k]) m[k] = x] *)
Lemma keeps_assign m k x m' :
  set_prop (Some m) k x = Ok m' →
  truthy (field (Some m) k) = false →
  keeps m m'.
Proof.
  intros Hset Hk.
  assert (Hne : ∀ k', truthy (field (Some m) k') = true → k ≠ k')
    by (intros k' Hk' ->; congruence).
  assert (Hsub : ∀ c k',
    truthy (field (field (Some m) c) k') = true →
    field (field (Some m') c) k' = field (field (Some m) c) k').
  { intros c k' Hk'. destruct (decide (k = c)) as [->|Hc].
    - by rewrite (field_falsy _ k' Hk) in Hk'.
    - by rewrite (field_set_ne _ _ _ _ _ Hset Hc). }
  split_and!; [|by apply Hsub..| |].
  - intros k' _ _ Hk'. apply (field_set_ne _ _ _ _ _ Hset). by apply Hne.
  - by apply set_prop_object in Hset.
  - intros c Hc. rewrite (field_set_ne _ _ _ _ _ Hset); [done|].
    apply Hne. by apply is_object_truthy.
Qed.

(** [if (!m[c][k]) m[c][k] = x], for [c] one of [scripts] and [config] *)
Lemma keeps_assign_under m c s k x s' m' :
  c = "scripts" ∨ c = "config" →
  get_prop (Some m) c = Ok s →
  truthy (field s k) = false →
  set_prop s k x = Ok s' →
  set_prop (Some m) c s' = Ok m' →
  keeps m m'.
Proof.
  intros Hc Hget Hk Hs Hm. apply field_get in Hget.
  assert (Hin : ∀ k', truthy (field (field (Some m) c) k') = true →
    field (field (Some m') c) k' = field (field (Some m) c) k').
  { intros k' Hk'. rewrite (field_set_eq _ _ _ _ Hm), Hget in *.
    apply (field_set_ne _ _ _ _ _ Hs). intros ->. congruence. }
  assert (Hout : ∀ c', c ≠ c' → field (Some m') c' = field (Some m) c')
    by (intros c' ?; by apply (field_set_ne _ _ _ _ _ Hm)).
  split_and!.
  - intros k' ? ? _. apply Hout. by destruct Hc as [-> | ->].
  - intros k' Hk'. destruct Hc as [-> | ->]; [by apply Hin|by rewrite Hout].
  - intros k' Hk'. destruct Hc as [-> | ->]; [by rewrite Hout|by apply Hin].
  - by apply set_prop_object in Hm.
  - intros c' Hc'. destruct (decide (c = c')) as [<-|Hne]; [|by rewrite Hout].
    rewrite (field_set_eq _ _ _ _ Hm), (set_prop_object _ _ _ _ Hs).
    by rewrite <- Hget.
Qed.

(** ** Computations that only log *)

Global Instance only_logs_preorder : PreOrder only_logs.
Proof.
  split.
  - intros w. split; [done|]. exists []. by rewrite app_nil_r.
  - intros w1 w2 w3 [T1 (e1 & E1 & L1)] [T2 (e2 & E2 & L2)].
    split; [congruence|]. exists (e1 ++ e2)%list.
    rewrite E2, E1, <- app_assoc. split; [done|].
    by rewrite forallb_app, L1, L2.
Qed.

Lemma console_log_inv r w o w' :
  console_log r w = (o, w') →
  o = Ok tt ∧ w' = World (tree w) (trace w ++ [Log r]).
Proof. unfold console_log, emit. intros; by simplify_eq. Qed.

Lemma only_logs_console_log r :
  is_patch_log (Log r) = true → respects only_logs (console_log r).
Proof.
  intros Hr w. split; [done|]. exists [Log r]. split; [done|].
  cbn [forallb]. by rewrite Hr.
Qed.

Ltac only_logs_tac :=
  repeat first
    [ apply only_logs_console_log; reflexivity
    | apply (respects_ret only_logs)
    | apply (respects_lift only_logs)
    | apply (respects_throw only_logs)
    | apply (respects_if only_logs)
    | apply (respects_bind only_logs); [|intros ?]
    | apply (respects_for_acc only_logs); intros ? ? ].

Lemma only_logs_addScript st item : respects only_logs (addScript st item).
Proof. unfold addScript. cbv zeta. only_logs_tac. Qed.

Lemma only_logs_addScripts m : respects only_logs (addScripts m).
Proof. unfold addScripts. only_logs_tac. Qed.

Lemma only_logs_addCommitizen m : respects only_logs (addCommitizen m).
Proof. unfold addCommitizen. only_logs_tac. Qed.

Lemma only_logs_addModuleType m : respects only_logs (addModuleType m).
Proof. unfold addModuleType. only_logs_tac. Qed.

Lemma only_logs_patchManifest m : respects only_logs (patchManifest m).
Proof. unfold patchManifest. only_logs_tac. Qed.

Lemma only_logs_needsWrite m a : respects only_logs (needsWrite m a).
Proof. unfold needsWrite. only_logs_tac. Qed.

(** ** The blocks of the patch *)

(** One round of the loop over [scriptsToAdd]: nothing truthy is assigned
    over, the script is set afterwards, and the flag is raised exactly when
    the script was assigned. *)
Lemma addScript_spec st item w st' w' :
  truthy (Some (VStr item.2)) = true →
  addScript st item w = (Ok st', w') →
  keeps st.1 st'.1 ∧
  truthy (field (field (Some st'.1) "scripts") item.1) = true ∧
  st'.2 = st.2 || negb (truthy (field (field (Some st.1) "scripts") item.1)) ∧
  (truthy (field (field (Some st.1) "scripts") item.1) = true → st' = st ∧ w' = w) ∧
  is_object (Some st'.1) = is_object (Some st.1) ∧
  (is_object (field (Some st.1) "scripts") = true →
   is_object (field (Some st'.1) "scripts") = true).
Proof.
  intros Hcmd H. unfold addScript in H. cbv zeta in H.
  apply bind_Ok_inv in H as (scripts & w1 & Hs & H). apply lift_inv in Hs as [Hs ->].
  apply bind_Ok_inv in H as (cur & w1 & Hc & H). apply lift_inv in Hc as [Hc ->].
  symmetry in Hs, Hc.
  rewrite (field_get _ _ _ Hs), (field_get _ _ _ Hc).
  destruct (truthy cur) eqn:Hcur; cbn [negb] in H.
  - apply ret_inv in H as [H ->]. injection H as ->.
    rewrite (field_get _ _ _ Hs), (field_get _ _ _ Hc), Hcur, orb_false_r.
    split_and!; done.
  - apply bind_Ok_inv in H as (s' & w1 & Hs' & H). apply lift_inv in Hs' as [Hs' ->].
    apply bind_Ok_inv in H as (m' & w1 & Hm & H). apply lift_inv in Hm as [Hm ->].
    apply bind_Ok_inv in H as ([] & w1 & Hl & H). apply console_log_inv in Hl as [_ ->].
    apply ret_inv in H as [H ->]. injection H as ->.
    symmetry in Hs', Hm. simpl.
    rewrite (field_set_eq _ _ _ _ Hm), (field_set_eq _ _ _ _ Hs'), Hcmd, orb_true_r.
    split_and!; try done.
    + apply (keeps_assign_under _ "scripts" scripts item.1 (VStr item.2) s');
        [by left|done| |done|done].
      by rewrite (field_get _ _ _ Hc).
    + by apply set_prop_object in Hm.
    + intros Ho. by rewrite (set_prop_object _ _ _ _ Hs').
Qed.

Lemma addScripts_spec m w m1 added w' :
  addScripts m w = (Ok (m1, added), w') →
  keeps m m1 ∧
  truthy (field (field (Some m1) "scripts") "prepare") = true ∧
  truthy (field (field (Some m1) "scripts") "commit") = true ∧
  (added = false →
   m1 = m ∧ w' = w ∧
   truthy (field (field (Some m) "scripts") "prepare") = true ∧
   truthy (field (field (Some m) "scripts") "commit") = true) ∧
  (manifest_shape m = true →
   is_object (Some m1) = true ∧ is_object (field (Some m1) "scripts") = true).
Proof.
  intros H. unfold addScripts in H.
  apply bind_Ok_inv in H as (scripts & w1 & Hs & H). apply lift_inv in Hs as [Hs ->].
  symmetry in Hs. apply field_get in Hs.
  apply bind_Ok_inv in H as (m0 & w0 & H0 & H).
  assert (keeps m m0 ∧ w0 = w ∧ truthy (field (Some m0) "scripts") = true ∧
          (truthy scripts = true → m0 = m) ∧
          (truthy scripts = false → field (Some m0) "scripts" = Some (VObj [])) ∧
          (manifest_shape m = true →
           is_object (Some m0) = true ∧ is_object (field (Some m0) "scripts") = true))
    as (K0 & -> & T0 & E0 & N0 & O0).
  { unfold manifest_shape. rewrite Hs.
    destruct (truthy scripts) eqn:Ht; cbn [negb] in H0.
    - apply ret_inv in H0 as [H0 ->]. injection H0 as ->. rewrite Hs.
      split_and!; try done. by intros [? ?]%andb_prop.
    - apply lift_inv in H0 as [H0 ->]. symmetry in H0.
      rewrite (field_set_eq _ _ _ _ H0). split_and!; try done.
      + eapply keeps_assign; eauto. by rewrite Hs.
      + rewrite (set_prop_object _ _ _ _ H0). by intros [? _]%andb_prop. }
  cbn [for_acc scriptsToAdd] in H.
  apply bind_Ok_inv in H as (st1 & w1 & H1 & H).
  apply bind_Ok_inv in H as (st2 & w2 & H2 & H).
  apply ret_inv in H as [H ->]. injection H as <-.
  apply addScript_spec in H1 as (K1 & P1 & F1 & U1 & O1 & S1); [|done].
  apply addScript_spec in H2 as (K2 & P2 & F2 & U2 & O2 & S2); [|done].
  cbn [fst snd] in *. pose proof K2 as (K2t & K2s & K2c & _).
  split; [|split; [|split; [|split]]].
  - eapply keeps_trans; [exact K0|]. eapply keeps_trans; [exact K1|done].
  - by rewrite K2s.
  - done.
  - intros ->. symmetry in F2. apply orb_false_elim in F2 as [F2a F2b].
    rewrite F2a in F1. symmetry in F1. simpl in F1.
    apply negb_false_iff in F1, F2b.
    destruct (U1 F1) as [-> ->]. destruct (U2 F2b) as [E2 ->].
    destruct (truthy scripts) eqn:Ht.
    + rewrite (E0 eq_refl) in *. by inversion E2; subst.
    + by rewrite (N0 eq_refl) in F1.
  - intros Hm. destruct (O0 Hm) as [Oa Ob]. split.
    + by rewrite O2, O1.
    + auto.
Qed.

Lemma truthy_of_field o k : truthy (field o k) = true → truthy o = true.
Proof.
  intros H. destruct (truthy o) eqn:E; [done|]. by rewrite (field_falsy _ _ E) in H.
Qed.

(** With both scripts set the block changes nothing and leaves the flag
    down. *)
Lemma addScripts_settled m w :
  truthy (field (field (Some m) "scripts") "prepare") = true →
  truthy (field (field (Some m) "scripts") "commit") = true →
  addScripts m w = (Ok (m, false), w).
Proof.
  intros Hp Hc.
  pose proof (truthy_of_field _ _ Hp) as Hs.
  pose proof (truthy_field_get _ _ Hs) as Gs.
  pose proof (truthy_field_get _ _ Hp) as Gp.
  pose proof (truthy_field_get _ _ Hc) as Gc.
  unfold addScripts, bind, lift. rewrite Gs, Hs. cbn [negb ret for_acc scriptsToAdd].
  unfold addScript, bind, lift. cbn [fst snd].
  rewrite Gs, Gp, Hp. cbn [negb ret fst snd]. by rewrite Gs, Gc, Hc.
Qed.

Lemma addCommitizen_spec m w m' w' :
  addCommitizen m w = (Ok m', w') →
  keeps m m' ∧
  truthy (field (field (Some m') "config") "commitizen") = true ∧
  field (Some m') "scripts" = field (Some m) "scripts" ∧
  is_object (Some m') = is_object (Some m).
Proof.
  intros H. unfold addCommitizen in H.
  apply bind_Ok_inv in H as (config & w1 & Hc & H). apply lift_inv in Hc as [Hc ->].
  symmetry in Hc. apply field_get in Hc.
  apply bind_Ok_inv in H as (m0 & w0 & H0 & H).
  assert (keeps m m0 ∧ field (Some m0) "scripts" = field (Some m) "scripts" ∧
          is_object (Some m0) = is_object (Some m)) as (K0 & S0 & O0).
  { destruct (truthy config) eqn:Ht; cbn [negb] in H0.
    - apply ret_inv in H0 as [H0 ->]. injection H0 as ->.
      by split_and!.
    - apply lift_inv in H0 as [H0 ->]. symmetry in H0. split_and!.
      + eapply keeps_assign; eauto. by rewrite Hc.
      + by apply (field_set_ne _ _ _ _ _ H0).
      + by apply set_prop_object in H0. }
  clear H0 Hc config.
  apply bind_Ok_inv in H as (config & w1 & Hc & H). apply lift_inv in Hc as [Hc ->].
  apply bind_Ok_inv in H as (cz & w1 & Hz & H). apply lift_inv in Hz as [Hz ->].
  symmetry in Hc, Hz.
  destruct (truthy cz) eqn:Ht; cbn [negb] in H.
  - apply ret_inv in H as [H ->]. injection H as ->.
    rewrite (field_get _ _ _ Hc), (field_get _ _ _ Hz). by split_and!.
  - apply bind_Ok_inv in H as (c' & w1 & Hc' & H). apply lift_inv in Hc' as [Hc' ->].
    apply bind_Ok_inv in H as (m2 & w1 & Hm & H). apply lift_inv in Hm as [Hm ->].
    apply bind_Ok_inv in H as ([] & w1 & Hl & H). apply console_log_inv in Hl as [_ ->].
    apply ret_inv in H as [H ->]. injection H as ->.
    symmetry in Hc', Hm.
    rewrite (field_set_eq _ _ _ _ Hm), (field_set_eq _ _ _ _ Hc').
    split_and!; try done.
    + eapply keeps_trans; [exact K0|].
      apply (keeps_assign_under _ "config" config "commitizen" commitizenConfig c');
        [by right|done| |done|done].
      by rewrite (field_get _ _ _ Hz).
    + rewrite <- S0. by apply (field_set_ne _ _ _ _ _ Hm).
    + rewrite <- O0. by apply set_prop_object in Hm.
Qed.

Lemma addModuleType_spec m w m' w' :
  addModuleType m w = (Ok m', w') →
  keeps m m' ∧
  truthy (field (Some m') "type") = true ∧
  field (Some m') "scripts" = field (Some m) "scripts" ∧
  field (Some m') "config" = field (Some m) "config" ∧
  is_object (Some m') = is_object (Some m).
Proof.
  intros H. unfold addModuleType in H.
  apply bind_Ok_inv in H as (ty & w1 & Hc & H). apply lift_inv in Hc as [Hc ->].
  symmetry in Hc. apply field_get in Hc.
  destruct (truthy ty) eqn:Ht; cbn [negb] in H.
  - apply ret_inv in H as [H ->]. injection H as ->. rewrite Hc.
    by split_and!.
  - apply bind_Ok_inv in H as (m2 & w1 & Hm & H). apply lift_inv in Hm as [Hm ->].
    apply bind_Ok_inv in H as ([] & w1 & Hl & H). apply console_log_inv in Hl as [_ ->].
    apply ret_inv in H as [H ->]. injection H as ->.
    symmetry in Hm. rewrite (field_set_eq _ _ _ _ Hm). split_and!; try done.
    + eapply keeps_assign; eauto. by rewrite Hc.
    + by apply (field_set_ne _ _ _ _ _ Hm).
    + by apply (field_set_ne _ _ _ _ _ Hm).
    + by apply set_prop_object in Hm.
Qed.

(** The manifest object as the final [if] finds it. *)
Lemma patchManifest_spec m w m' added w' :
  patchManifest m w = (Ok (m', added), w') →
  keeps m m' ∧
  truthy (field (field (Some m') "scripts") "prepare") = true ∧
  truthy (field (field (Some m') "scripts") "commit") = true ∧
  truthy (field (field (Some m') "config") "commitizen") = true ∧
  truthy (field (Some m') "type") = true ∧
  added = negb (truthy (field (field (Some m) "scripts") "prepare") &&
                truthy (field (field (Some m) "scripts") "commit")) ∧
  (manifest_shape m = true → scripts_settled m' = true).
Proof.
  intros H. unfold patchManifest in H.
  apply bind_Ok_inv in H as ([m1 a] & w1 & H1 & H).
  apply bind_Ok_inv in H as (m2 & w2 & H2 & H).
  apply bind_Ok_inv in H as (m3 & w3 & H3 & H).
  apply ret_inv in H as [H ->]. injection H as -> ->.
  pose proof H1 as H1'.
  apply addScripts_spec in H1 as (K1 & P1 & C1 & F1 & O1).
  apply addCommitizen_spec in H2 as (K2 & Z2 & S2 & O2).
  apply addModuleType_spec in H3 as (K3 & T3 & S3 & C3 & O3).
  cbn [fst snd] in *.
  rewrite S3, S2, C3. split_and!; try done.
  - eapply keeps_trans; [exact K1|]. eapply keeps_trans; [exact K2|done].
  - destruct a.
    + destruct (truthy (field (field (Some m) "scripts") "prepare")) eqn:Ep; [|done].
      destruct (truthy (field (field (Some m) "scripts") "commit")) eqn:Ec; [|done].
      pose proof (addScripts_settled m w Ep Ec) as E. congruence.
    + destruct (F1 eq_refl) as (_ & _ & -> & ->). done.
  - intros Hm. destruct (O1 Hm) as [Oa Ob]. unfold scripts_settled.
    by rewrite O3, O2, Oa, S3, S2, Ob, P1, C1.
Qed.

(** After the three blocks the final condition is the flag alone: the two
    properties it re-reads have just been made truthy. *)
Lemma needsWrite_after_patch m' added w :
  truthy (field (field (Some m') "config") "commitizen") = true →
  truthy (field (Some m') "type") = true →
  needsWrite m' added w = (Ok added, w).
Proof.
  intros Hz Ht. unfold needsWrite. destruct added; [done|].
  pose proof (truthy_field_get _ _ Hz) as Hz'.
  assert (get_prop (Some m') "config" = Ok (field (Some m') "config")) as Hc.
  { unfold field in *. destruct (get_prop (Some m') "config"); [done|].
    by destruct m'. }
  pose proof (truthy_field_get _ _ Ht) as Ht'.
  unfold bind, lift, ret. by rewrite Hc, Hz', Hz, Ht', Ht.
Qed.

(** ** [updatePackageJson] as a whole *)

Lemma readJson_inv p w m w' :
  readJson p w = (Ok m, w') →
  w' = w ∧ ∃ mode, tree w !! p = Some (File (Json m) mode).
Proof.
  unfold readJson. destruct (tree w !! p) as [[|[v|s] mode]|]; intros H; try done.
  injection H as -> ->. eauto.
Qed.

(** A successful patch step: the manifest in memory and the flag come from
    [patchManifest], the logs in between change nothing, and the file is
    written exactly when the flag is up. *)
Lemma updatePackageJson_spec w w' m mode :
  tree w !! "package.json" = Some (File (Json m) mode) →
  updatePackageJson w = (Ok tt, w') →
  ∃ m' added logs,
    patchManifest m (World (tree w) (trace w ++ [Log UpdatingPackageJson]))
      = (Ok (m', added),
         World (tree w) ((trace w ++ [Log UpdatingPackageJson]) ++ logs)) ∧
    forallb is_patch_log logs = true ∧
    tree w' = (if added
               then <["package.json" := File (Json (stringify m')) mode]> (tree w)
               else tree w) ∧
    trace w' = (trace w ++ [Log UpdatingPackageJson] ++ logs ++
                (if added then [WriteJson "package.json" (stringify m')] else []) ++
                [Log PackageJsonUpdated])%list.
Proof.
  intros Hm H. unfold updatePackageJson in H.
  apply bind_Ok_inv in H as ([] & w1 & Hl & H). apply console_log_inv in Hl as [_ ->].
  apply bind_Ok_inv in H as (m0 & w1 & Hr & H).
  apply readJson_inv in Hr as [-> (mode' & Hr)]. cbn [tree] in Hr.
  rewrite Hm in Hr. injection Hr as <- <-.
  apply bind_Ok_inv in H as ([m' added] & w2 & Hp & H).
  destruct (only_logs_patchManifest m (World (tree w) (trace w ++ [Log UpdatingPackageJson])))
    as [Ht (logs & Hlogs & Hall)].
  rewrite Hp in Ht, Hlogs. cbn [snd tree trace] in Ht, Hlogs.
  destruct w2 as [t2 tr2]. cbn [tree trace] in Ht, Hlogs. subst t2 tr2.
  exists m', added, logs. split; [done|]. split; [done|].
  apply patchManifest_spec in Hp as (_ & _ & _ & Hz & Hty & _).
  apply bind_Ok_inv in H as (write & w3 & Hw & H). cbn [fst snd] in Hw, H.
  rewrite (needsWrite_after_patch _ _ _ Hz Hty) in Hw. injection Hw as <- <-.
  apply bind_Ok_inv in H as ([] & w4 & Hwr & H).
  apply console_log_inv in H as [_ ->]. cbn [tree trace].
  destruct added.
  - unfold writeJson in Hwr. cbn [tree trace] in Hwr. rewrite Hm in Hwr.
    destruct (writable mode); [|done].
    injection Hwr as <-. cbn [tree trace]. split; [done|].
    by rewrite <- !app_assoc.
  - apply ret_inv in Hwr as [_ ->]. cbn [tree trace]. split; [done|].
    by rewrite <- !app_assoc.
Qed.

Lemma patch_logs_filtered logs :
  forallb is_patch_log logs = true →
  filter (λ e, is_effect e = true) logs = [] ∧
  filter (λ e, is_file_report e = true) logs = [].
Proof.
  induction logs as [|e r IH]; [done|]. cbn [forallb].
  intros [He Hr]%andb_prop. destruct (IH Hr) as [IH1 IH2].
  rewrite !filter_cons, IH1, IH2.
  by destruct e as [[]| | | | | |].
Qed.

(** The manifest is written back exactly when one of the two scripts was
    not set: what else the patch added in memory does not count. *)
Lemma updatePackageJson_write_condition w w' m mode :
  tree w !! "package.json" = Some (File (Json m) mode) →
  updatePackageJson w = (Ok tt, w') →
  ∃ evs,
    trace w' = (trace w ++ evs)%list ∧
    (filter (λ e, is_effect e = true) evs = [] ↔
     truthy (field (field (Some m) "scripts") "prepare") = true ∧
     truthy (field (field (Some m) "scripts") "commit") = true).
Proof.
  intros Hm H.
  destruct (updatePackageJson_spec _ _ _ _ Hm H)
    as (m' & added & logs & Hpm & Hl & _ & Htr).
  apply patchManifest_spec in Hpm as (_ & _ & _ & _ & _ & Ha & _).
  eexists. split; [exact Htr|].
  destruct (patch_logs_filtered _ Hl) as [F _].
  rewrite !filter_app, F.
  destruct (truthy (field (field (Some m) "scripts") "prepare")),
           (truthy (field (field (Some m) "scripts") "commit"));
    subst added; cbn; split; try done; by intros [? ?].
Qed.

(** With both scripts set, nothing is written, whatever else the patch
    adds in memory. *)
Lemma updatePackageJson_settled w w' m mode :
  tree w !! "package.json" = Some (File (Json m) mode) →
  truthy (field (field (Some m) "scripts") "prepare") = true →
  truthy (field (field (Some m) "scripts") "commit") = true →
  updatePackageJson w = (Ok tt, w') →
  only_logs w w'.
Proof.
  intros Hm Hp Hc H.
  destruct (updatePackageJson_spec _ _ _ _ Hm H) as (m' & added & logs & Hpm & Hl & Ht & Htr).
  apply patchManifest_spec in Hpm as (_ & _ & _ & _ & _ & Ha & _).
  rewrite Hp, Hc in Ha. subst added. split; [done|].
  exists ([Log UpdatingPackageJson] ++ logs ++ [Log PackageJsonUpdated])%list.
  split; [done|]. cbn [app forallb is_patch_log andb]. by rewrite forallb_app, Hl.
Qed.

(** ** From the manifest object to the manifest file *)

(** The values stored in a value that was parsed were parsed, and only
    its objects have properties. *)
Lemma parsed_own_get k fs v :
  forallb (λ kv, parsed kv.2) fs = true → own_get k fs = Some v → parsed v = true.
Proof.
  induction fs as [|[k' x] r IH]; simpl; [done|].
  intros [Hx Hr]%andb_prop.
  destruct (String.eqb k' k); [|by apply IH].
  by intros [= <-].
Qed.

Lemma parsed_field m k v :
  parsed m = true → field (Some m) k = Some v → parsed v = true.
Proof.
  unfold field. destruct m as [| | | |xs ps|fs]; simpl; try done.
  - intros [_ Hps]%andb_prop. by destruct ps.
  - apply parsed_own_get.
Qed.

Lemma field_parsed_object m k :
  parsed m = true → field (Some m) k ≠ None → is_object (Some m) = true.
Proof.
  unfold field. destruct m as [| | | |xs ps|fs]; simpl; try done.
  intros [_ Hps]%andb_prop. by destruct ps.
Qed.

Lemma field_not_object m k :
  parsed m = true → is_object (Some m) = false → field (Some m) k = None.
Proof.
  intros Hm Ho. destruct (field (Some m) k) eqn:E; [|done].
  rewrite (field_parsed_object m k) in Ho; [done|done|congruence].
Qed.

Lemma field_stringify m k :
  is_object (Some m) = true →
  field (Some (stringify m)) k = stringify <$> field (Some m) k.
Proof. destruct m; try done. intros _. apply field_stringify_object. Qed.

Lemma field_stringify_other m k :
  is_object (Some m) = false → field (Some (stringify m)) k = None.
Proof. unfold field. by destruct m as [| |[]| | |]. Qed.

(** A property that the patched object [m'] shares with the manifest [m]
    that was read is, in the file written from [m'], that property
    serialised. *)
Lemma written_field m m' k :
  parsed m = true → keeps m m' →
  field (Some m') k = field (Some m) k →
  field (Some (stringify m')) k = stringify <$> field (Some m) k.
Proof.
  intros Hm (_ & _ & _ & Ko & _) H.
  destruct (is_object (Some m')) eqn:Ho'.
  - by rewrite field_stringify, H.
  - rewrite field_stringify_other by done.
    by rewrite (field_not_object m k Hm) by congruence.
Qed.

Lemma written_field_under m m' c k :
  parsed m = true → keeps m m' →
  field (field (Some m') c) k = field (field (Some m) c) k →
  field (field (Some (stringify m')) c) k = stringify <$> field (field (Some m) c) k.
Proof.
  intros Hm (_ & _ & _ & Ko & Kp) H.
  assert (Hnone : is_object (field (Some m) c) = false →
                  field (field (Some m) c) k = None).
  { intros Hno. destruct (field (Some m) c) as [s|] eqn:Es; [|done].
    apply field_not_object; [by apply (parsed_field m c)|done]. }
  destruct (is_object (Some m')) eqn:Ho'.
  - rewrite field_stringify by done.
    destruct (field (Some m') c) as [s'|] eqn:Es'; cbn [fmap option_fmap option_map].
    + destruct (is_object (Some s')) eqn:Os'.
      * by rewrite field_stringify, H.
      * rewrite field_stringify_other by done. rewrite Hnone; [done|].
        destruct (is_object (field (Some m) c)) eqn:Oc; [|done].
        specialize (Kp c Oc). rewrite Es' in Kp. congruence.
    + by rewrite <- H.
  - rewrite field_stringify_other by done.
    rewrite (field_not_object m c Hm) by congruence. done.
Qed.

Lemma as_written_fixed written v :
  stringify v = v → as_written written (Some v) = Some v.
Proof. intros Hv. destruct written; [|done]. cbn. by rewrite Hv. Qed.



(** A [type] beyond the range of a double is truthy, so the patch leaves
    it alone; the write that adds the scripts stores it as [null]. *)
Lemma updatePackageJson_writes_infinity_as_null :
  truthy (field (Some manifest_huge_type) "type") = true ∧
  ∃ w' m2,
    updatePackageJson (World (project manifest_huge_type) []) = (Ok tt, w') ∧
    tree w' !! "package.json" = Some (File (Json m2) 420%N) ∧
    field (Some m2) "type" = Some VNull.
Proof.
  split; [reflexivity|].
  eexists _, _. split; [vm_compute; reflexivity|]. split; reflexivity.
Qed.


(** C2, at the failing input: with both scripts present and neither
    [config.commitizen] nor [type], the two fields are added in memory and
    reported, and the manifest is not written back. *)
Theorem updatePackageJson_drops_config_and_type :
  updatePackageJson (World (project manifest_scripts_only) []) =
  (Ok tt,
   World (project manifest_scripts_only)
         [ Log UpdatingPackageJson; Log AddedCommitizen; Log AddedModuleSupport;
           Log PackageJsonUpdated ]).
Proof. vm_compute. reflexivity. Qed.

(** ** Effects on the tree *)

Global Instance touches_preorder D F : PreOrder (touches D F).
Proof.
  split.
  - intros w p. by left.
  - intros w1 w2 w3 H12 H23 p.
    destruct (H12 p) as [E1|[(Hd1 & N1 & D1)|(Hf1 & N1 & c1 & m1 & F1)]],
             (H23 p) as [E2|[(Hd2 & N2 & D2)|(Hf2 & N2 & c2 & m2 & F2)]].
    + left. congruence.
    + right; left. split_and!; congruence.
    + right; right. split_and!; [done|congruence|eauto].
    + right; left. split_and!; congruence.
    + congruence.
    + congruence.
    + right; right. split_and!; [done|done|]. exists c1, m1. congruence.
    + congruence.
    + right; right. split_and!; [done|done|eauto].
Qed.

Lemma touches_outside D F w w' p :
  touches D F w w' → p ∉ D → p ∉ F → tree w' !! p = tree w !! p.
Proof. intros H ? ?. by destruct (H p) as [?|[(? & _)|(? & _)]]. Qed.

Lemma touches_nothing_deleted D F w w' p n :
  touches D F w w' → tree w !! p = Some n → is_Some (tree w' !! p).
Proof.
  intros H Hn. destruct (H p) as [E|[(_ & N & _)|(_ & _ & c & m & E)]].
  - rewrite E. eauto.
  - congruence.
  - eauto.
Qed.

Lemma touches_stable D F w w' p n :
  touches D F w w' → p ∉ F → tree w !! p = Some n → tree w' !! p = Some n.
Proof.
  intros H ? Hn. destruct (H p) as [E|[(_ & N & _)|(? & _)]]; congruence.
Qed.

Lemma touches_files D F w w' p c m :
  touches D F w w' → p ∉ F →
  tree w !! p = Some (File c m) ↔ tree w' !! p = Some (File c m).
Proof.
  intros H ?. destruct (H p) as [E|[(_ & N & E)|(? & _)]]; [|
    split; congruence|done].
  by rewrite E.
Qed.

Lemma touches_pure {A} D F (m : M A) :
  (∀ w, tree (m w).2 = tree w) → respects (touches D F) m.
Proof. intros H w p. left. by rewrite H. Qed.

Lemma touches_mkdir D F d : d ∈ D → respects (touches D F) (mkdir d).
Proof.
  intros Hd w p. unfold mkdir.
  destruct (tree w !! d) as [[|c m]|] eqn:E; cbn [snd tree]; [by left..|].
  destruct (decide (p = d)) as [->|Hne].
  - right; left. by rewrite lookup_insert_eq.
  - left. by rewrite lookup_insert_ne.
Qed.

Lemma touches_ensureDir D F d :
  d = "." ∨ Forall (λ x, x ∈ D) (dir_chain "" d) →
  respects (touches D F) (ensureDir d).
Proof.
  intros Hd. unfold ensureDir. destruct (String.eqb_spec d ".") as [->|Hne].
  - apply (respects_ret (touches D F)).
  - destruct Hd as [?|Hd]; [done|]. apply (respects_for_of (touches D F)).
    eapply Forall_impl; [exact Hd|]. intros x Hx. by apply touches_mkdir.
Qed.

Section Materialize.
Variable templates : string → option (content * N).

Lemma touches_copy D F s d : d ∈ F → respects (touches D F) (copy templates s d).
Proof.
  intros Hd w p. unfold copy. destruct (templates s) as [[c m]|]; [|by left].
  destruct (tree w !! d) as [[|c0 m0]|] eqn:E; cbn [snd tree]; [by left| |].
  - destruct (decide (p = d)) as [->|Hne]; [|left; by rewrite lookup_insert_ne].
    right; right. rewrite lookup_insert_eq, E. split_and!; [done|done|eauto].
  - destruct (decide (p = d)) as [->|Hne]; [|left; by rewrite lookup_insert_ne].
    right; right. rewrite lookup_insert_eq, E. split_and!; [done|done|eauto].
Qed.

Lemma touches_chmod D F p mode : p ∈ F → respects (touches D F) (chmod p mode).
Proof.
  intros Hp w q. unfold chmod.
  destruct (tree w !! p) as [[|c0 m0]|] eqn:E; cbn [snd tree]; [by left| |by left].
  destruct (decide (q = p)) as [->|Hne]; [|left; by rewrite lookup_insert_ne].
  right; right. rewrite lookup_insert_eq, E. split_and!; [done|done|eauto].
Qed.

Lemma touches_console_log D F r : respects (touches D F) (console_log r).
Proof. by apply touches_pure. Qed.

Lemma touches_pathExists D F p : respects (touches D F) (pathExists p).
Proof. by apply touches_pure. Qed.

(** One round of the loop touches the entry's destination and the
    directories leading to it. *)
Lemma touches_copyConfigFile D F file :
  dirname (dest file) = "." ∨
    Forall (λ x, x ∈ D) (dir_chain "" (dirname (dest file))) →
  dest file ∈ F →
  respects (touches D F) (copyConfigFile templates file).
Proof.
  intros Hd Hf. unfold copyConfigFile. cbv zeta.
  apply (respects_bind (touches D F)); [by apply touches_ensureDir|intros _].
  apply (respects_bind (touches D F)); [apply touches_pathExists|intros present].
  apply (respects_if (touches D F)); [apply touches_console_log|].
  apply (respects_bind (touches D F)); [by apply touches_copy|intros _].
  apply (respects_bind (touches D F)); [|intros _].
  { apply (respects_if (touches D F)); [by apply touches_chmod|].
    apply (respects_ret (touches D F)). }
  apply (respects_bind (touches D F)); [|intros ?; apply touches_console_log].
  apply (respects_if (touches D F)); [apply touches_pathExists|].
  apply (respects_ret (touches D F)).
Qed.

Lemma touches_copyConfigFiles :
  respects (touches [".vscode"; ".husky"] (dest <$> filesToCopy))
           (copyConfigFiles templates).
Proof.
  unfold copyConfigFiles.
  apply (respects_bind (touches _ _)); [apply touches_console_log|intros _].
  apply (respects_bind (touches _ _)); [|intros _; apply touches_console_log].
  apply (respects_for_of (touches _ _)).
  repeat (apply Forall_cons; split;
          [apply touches_copyConfigFile;
           [first [by left | right; repeat constructor]|cbn; set_solver]|]).
  apply Forall_nil_2.
Qed.

(** Materialization leaves every path outside [materialized] as it was. *)
Lemma copyConfigFiles_outside w p :
  p ∉ materialized →
  tree (copyConfigFiles templates w).2 !! p = tree w !! p.
Proof.
  intros Hp. unfold materialized in Hp.
  apply not_elem_of_cons in Hp as [H1 Hp]. apply not_elem_of_cons in Hp as [H2 Hp].
  apply (touches_outside _ _ _ _ _ (touches_copyConfigFiles w)); [|done].
  rewrite !not_elem_of_cons. split_and!; [done|done|apply not_elem_of_nil].
Qed.

End Materialize.

(** ** The shipped entries *)

Lemma filesToCopy_shallow file : file ∈ filesToCopy → shallow file.
Proof.
  intros H. apply list_elem_of_In in H. cbn in H.
  repeat (destruct H as [<-|H];
          [split; [first [by left|by right]|done]|]).
  done.
Qed.

Lemma filesToCopy_dirs file file' :
  file ∈ filesToCopy → file' ∈ filesToCopy → dirname (dest file) ≠ dest file'.
Proof.
  intros H H'. apply list_elem_of_In in H, H'. cbn in H, H'.
  repeat (destruct H as [<-|H]); try done;
    repeat (destruct H' as [<-|H']); done.
Qed.

Lemma filesToCopy_NoDup : NoDup (dest <$> filesToCopy).
Proof. apply NoDup_ListNoDup. cbn. repeat (constructor; [cbn; intuition discriminate|]). constructor. Qed.

Lemma filesToCopy_hooks :
  filter (λ file, isHook file = true) filesToCopy
  = [ Entry ".husky/pre-commit" ".husky/pre-commit";
      Entry ".husky/pre-push" ".husky/pre-push";
      Entry ".husky/commit-msg" ".husky/commit-msg" ].
Proof. reflexivity. Qed.

(** ** One round of the loop of [copyConfigFiles] *)

Section Round.
Variable templates : string → option (content * N).

Lemma ensureDir_shallow d w w1 :
  d = "." ∨ (d ≠ "." ∧ dir_chain "" d = [d]) →
  ensureDir d w = (Ok tt, w1) →
  (d = "." ∨ tree w1 !! d = Some Dir) ∧
  (∀ p, p ≠ d → tree w1 !! p = tree w !! p) ∧
  ∃ pre, trace w1 = (trace w ++ pre)%list ∧
         (pre = [] ∨ (pre = [MkDir d] ∧ tree w !! d = None)).
Proof.
  intros Hd H. unfold ensureDir in H.
  destruct Hd as [->|[Hne Hc]].
  - apply ret_inv in H as [_ ->]. split_and!; [by left|done|].
    exists []. rewrite app_nil_r. auto.
  - apply String.eqb_neq in Hne. rewrite Hne, Hc in H. cbn [for_of] in H.
    apply bind_Ok_inv in H as ([] & w2 & Hm & H). apply ret_inv in H as [_ ->].
    unfold mkdir in Hm. destruct (tree w !! d) as [[|c m]|] eqn:E; [| done |].
    + injection Hm as <-. split_and!; [by right|done|].
      exists []. rewrite app_nil_r. auto.
    + injection Hm as <-. cbn [tree trace]. split_and!.
      * right. by rewrite lookup_insert_eq.
      * intros p Hp. by rewrite lookup_insert_ne.
      * exists [MkDir d]. auto.
Qed.

(** What a successful round does, by the kind of entry and by what was at
    the destination: a hook is copied, made executable and reported as
    updated; any other entry is skipped when something is there and
    created when nothing is. *)
Lemma copyConfigFile_outcome file w w' :
  shallow file →
  copyConfigFile templates file w = (Ok tt, w') →
  entry_present templates file (tree w') ∧
  ∃ pre, (pre = [] ∨ pre = [MkDir (dirname (dest file))]) ∧
    if isHook file then
      trace w' = (trace w ++ pre ++
                  [ CopyFile (src file) (dest file);
                    Chmod (dest file) (mode_of_string "755");
                    Log (Updated (dest file)) ])%list
    else
      match tree w !! dest file with
      | Some n =>
          tree w' !! dest file = Some n ∧
          trace w' = (trace w ++ pre ++ [Log (Skipped (dest file))])%list
      | None =>
          (∃ c m, templates (src file) = Some (c, m) ∧
                  tree w' !! dest file = Some (File c m)) ∧
          trace w' = (trace w ++ pre ++
                      [ CopyFile (src file) (dest file);
                        Log (Created (dest file)) ])%list
      end.
Proof.
  intros [Hd Hne] H. unfold copyConfigFile in H. cbv zeta in H.
  unfold entry_present, isHook.
  apply bind_Ok_inv in H as ([] & w1 & He & H).
  apply (ensureDir_shallow _ _ _ Hd) in He as (Hdir & Hsame & pre & Htr & Hpre).
  assert (Hdest : tree w1 !! dest file = tree w !! dest file) by (by apply Hsame).
  assert (Hpre' : pre = [] ∨ pre = [MkDir (dirname (dest file))])
    by (destruct Hpre as [?|[? _]]; auto).
  clear Hsame Hpre. destruct w1 as [t1 tr1]. cbn [tree trace] in *. subst tr1.
  unfold bind, pathExists, copy, chmod, console_log, emit, ret in H.
  cbn [tree trace] in H. rewrite Hdest in H.
  destruct (String.prefix ".husky/" (dest file)) eqn:Hhook.
  - (* a hook *)
    rewrite andb_false_r in H.
    destruct (templates (src file)) as [[c m]|]; [|done].
    cbn [tree trace] in H. rewrite Hdest in H.
    destruct (tree w !! dest file) as [[|c0 m0]|] eqn:Ew; [done| |].
    all: cbn [tree trace] in H; rewrite lookup_insert_eq in H.
    all: cbn [tree trace] in H; rewrite lookup_insert_eq in H.
    all: cbn [andb] in H; injection H as <-; cbn [tree trace]; rewrite lookup_insert_eq.
    all: split; [split; [|eauto]|exists pre; split; [done|]; by rewrite <- !app_assoc].
    all: destruct Hdir as [?|Hdir]; [by left|right].
    all: by rewrite !lookup_insert_ne by done.
  - (* any other entry *)
    destruct (tree w !! dest file) as [n|] eqn:Ew; cbn [andb negb tree trace] in H.
    + simplify_eq. cbn [tree trace]. rewrite Hdest. split; [by eauto|].
      exists pre. split; [done|]. split; [done|]. by rewrite <- !app_assoc.
    + destruct (templates (src file)) as [[c m]|]; [|done].
      cbn [tree trace] in H. rewrite Hdest in H. cbn [tree trace] in H.
      simplify_eq. cbn [tree trace]. rewrite lookup_insert_eq. split.
      * split; [|eauto]. destruct Hdir as [?|Hdir]; [by left|right].
        by rewrite lookup_insert_ne.
      * exists pre. split; [done|]. split; [eauto|]. by rewrite <- !app_assoc.
Qed.

(** A round on a tree in which the entry is already present leaves the
    tree as it is. *)
Lemma copyConfigFile_present file t tr :
  shallow file →
  entry_present templates file t →
  copyConfigFile templates file (World t tr)
  = (Ok tt, World t (tr ++ entry_events file)).
Proof.
  intros [Hd Hne] [Hdir Hfile]. unfold entry_events. unfold isHook in *.
  assert (ensureDir (dirname (dest file)) (World t tr) = (Ok tt, World t tr)) as He.
  { unfold ensureDir. destruct Hd as [->|[Hn Hc]]; [done|].
    apply String.eqb_neq in Hn. rewrite Hn, Hc. cbn [for_of].
    destruct Hdir as [Hdir|Hdir]; [by apply String.eqb_neq in Hn|].
    unfold bind, mkdir. cbn [tree]. by rewrite Hdir. }
  unfold copyConfigFile. cbv zeta. rewrite (bind_Ok _ _ _ _ _ He).
  unfold bind, pathExists, copy, chmod, console_log, emit, ret. cbn [tree trace].
  destruct (String.prefix ".husky/" (dest file)).
  - destruct Hfile as (c & m & Ht & Hf). rewrite Hf, Ht. cbn [andb negb tree trace].
    rewrite Hf. cbn [tree trace]. rewrite lookup_insert_eq. cbn [tree trace].
    rewrite lookup_insert_eq, insert_insert_eq, (insert_id _ _ _ Hf).
    by rewrite <- !app_assoc.
  - destruct Hfile as [n Hn]. by rewrite Hn.
Qed.

(** *** The loop *)

Lemma filesToCopy_chain file :
  file ∈ filesToCopy →
  dirname (dest file) = "." ∨
  Forall (λ x, x ∈ [".vscode"; ".husky"]) (dir_chain "" (dirname (dest file))).
Proof.
  intros H. apply list_elem_of_In in H. cbn in H.
  repeat (destruct H as [<-|H];
          [first [by left|right; cbn; repeat constructor]|]).
  done.
Qed.

Lemma touches_rounds l :
  (∀ file, file ∈ l → file ∈ filesToCopy) →
  respects (touches [".vscode"; ".husky"] (dest <$> l))
           (for_of l (copyConfigFile templates)).
Proof.
  intros Hsub. apply (respects_for_of (touches _ _)).
  apply Forall_forall. intros file Hfile. apply touches_copyConfigFile.
  - by apply filesToCopy_chain, Hsub.
  - by apply list_elem_of_fmap_2.
Qed.

Lemma entry_present_stable file l w w' :
  file ∈ filesToCopy →
  (∀ file', file' ∈ l → file' ∈ filesToCopy) →
  dest file ∉ dest <$> l →
  touches [".vscode"; ".husky"] (dest <$> l) w w' →
  entry_present templates file (tree w) →
  entry_present templates file (tree w').
Proof.
  intros Hin Hsub Hnotin Ht [Hdir Hfile].
  assert (Hd : dirname (dest file) ∉ dest <$> l).
  { intros (file' & E & Hfile')%list_elem_of_fmap_1.
    by apply (filesToCopy_dirs file file' Hin (Hsub _ Hfile')). }
  split.
  - destruct Hdir as [?|Hdir]; [by left|right].
    by apply (touches_stable _ _ _ _ _ _ Ht).
  - destruct (isHook file).
    + destruct Hfile as (c & m & ? & Hf). exists c, m. split; [done|].
      by apply (touches_stable _ _ _ _ _ _ Ht).
    + destruct Hfile as [n Hn]. exists n.
      by apply (touches_stable _ _ _ _ _ _ Ht).
Qed.

(** After a successful loop every entry is present. *)
Lemma rounds_settle l w w' :
  (∀ file, file ∈ l → file ∈ filesToCopy) →
  NoDup (dest <$> l) →
  for_of l (copyConfigFile templates) w = (Ok tt, w') →
  ∀ file, file ∈ l → entry_present templates file (tree w').
Proof.
  revert w. induction l as [|file0 r IH]; intros w Hsub Hnd H file Hfile.
  - by apply elem_of_nil in Hfile.
  - cbn [for_of] in H. apply bind_Ok_inv in H as ([] & w1 & H0 & H).
    rewrite fmap_cons in Hnd. apply NoDup_cons in Hnd as [Hnotin Hnd].
    assert (Hsub' : ∀ f, f ∈ r → f ∈ filesToCopy)
      by (intros f Hf; apply Hsub; by right).
    apply elem_of_cons in Hfile as [->|Hfile].
    + assert (Hin : file0 ∈ filesToCopy) by (apply Hsub; by left).
      apply copyConfigFile_outcome in H0 as [Hp _]; [|by apply filesToCopy_shallow].
      apply (entry_present_stable file0 r w1 w' Hin Hsub' Hnotin); [|done].
      pose proof (touches_rounds r Hsub' w1) as T. by rewrite H in T.
    + by apply (IH w1).
Qed.

(** On a tree in which every entry is present the loop changes nothing;
    it rewrites the hooks in place and skips the rest. *)
Lemma rounds_present l t tr :
  (∀ file, file ∈ l → shallow file ∧ entry_present templates file t) →
  for_of l (copyConfigFile templates) (World t tr)
  = (Ok tt, World t (tr ++ concat (map entry_events l))).
Proof.
  revert tr. induction l as [|file0 r IH]; intros tr Hall; cbn [for_of map concat].
  - unfold ret. by rewrite app_nil_r.
  - destruct (Hall file0) as [Hs Hp]; [by left|].
    rewrite (bind_Ok _ _ _ _ _ (copyConfigFile_present file0 t tr Hs Hp)).
    rewrite IH by (intros f Hf; apply Hall; by right).
    by rewrite <- app_assoc.
Qed.

Lemma copyConfigFiles_settles w w' :
  copyConfigFiles templates w = (Ok tt, w') →
  ∀ file, file ∈ filesToCopy → entry_present templates file (tree w').
Proof.
  intros H. unfold copyConfigFiles in H.
  apply bind_Ok_inv in H as ([] & w1 & Hl & H). apply console_log_inv in Hl as [_ ->].
  apply bind_Ok_inv in H as ([] & w2 & Hr & H). apply console_log_inv in H as [_ ->].
  cbn [tree]. by apply (rounds_settle filesToCopy _ w2 (λ _ Hf, Hf) filesToCopy_NoDup Hr).
Qed.

Lemma copyConfigFiles_present t tr :
  (∀ file, file ∈ filesToCopy → entry_present templates file t) →
  copyConfigFiles templates (World t tr)
  = (Ok tt,
     World t (tr ++ [Log CopyingFiles] ++ concat (map entry_events filesToCopy)
                 ++ [Log FilesCopied])).
Proof.
  intros Hall. unfold copyConfigFiles.
  unfold bind at 1. unfold console_log at 1, emit. cbn [tree trace].
  rewrite (bind_Ok _ _ _ _ _ (rounds_present filesToCopy t _
    (λ f Hf, conj (filesToCopy_shallow f Hf) (Hall f Hf)))).
  unfold console_log, emit. cbn [tree trace]. by rewrite <- !app_assoc.
Qed.

End Round.

(** ** Package-manager detection *)

Lemma detectPackageManager_eval w :
  detectPackageManager w
  = (Ok match tree w !! "pnpm-lock.yaml" with
        | Some _ => "pnpm"
        | None => match tree w !! "yarn.lock" with
                  | Some _ => "yarn"
                  | None => "npm"
                  end
        end, w).
Proof.
  unfold detectPackageManager, bind, pathExists, ret.
  by destruct (tree w !! "pnpm-lock.yaml"), (tree w !! "yarn.lock").
Qed.

(** C4. Detection returns a result and leaves the world as it is; the
    result depends on nothing but the presence of the two lock files;
    [pnpm-lock.yaml] selects pnpm whatever else is there, otherwise
    [yarn.lock] selects yarn, otherwise the result is npm. *)
Theorem detectPackageManager_by_lock_file (w : world) :
  (∃ pm, detectPackageManager w = (Ok pm, w)) ∧
  (∀ w2,
     (is_Some (tree w !! "pnpm-lock.yaml") ↔ is_Some (tree w2 !! "pnpm-lock.yaml")) →
     (is_Some (tree w !! "yarn.lock") ↔ is_Some (tree w2 !! "yarn.lock")) →
     (detectPackageManager w).1 = (detectPackageManager w2).1) ∧
  (is_Some (tree w !! "pnpm-lock.yaml") →
     (detectPackageManager w).1 = Ok "pnpm") ∧
  (tree w !! "pnpm-lock.yaml" = None → is_Some (tree w !! "yarn.lock") →
     (detectPackageManager w).1 = Ok "yarn") ∧
  (tree w !! "pnpm-lock.yaml" = None → tree w !! "yarn.lock" = None →
     (detectPackageManager w).1 = Ok "npm").
Proof.
  split_and!.
  - eexists. apply detectPackageManager_eval.
  - intros w2 Hp Hy. rewrite !detectPackageManager_eval. cbn [fst].
    destruct (tree w !! "pnpm-lock.yaml") as [n|], (tree w2 !! "pnpm-lock.yaml") as [n2|];
      try done.
    + destruct Hp as [Hp _]. by destruct Hp.
    + destruct Hp as [_ Hp]. by destruct Hp.
    + destruct (tree w !! "yarn.lock") as [y|], (tree w2 !! "yarn.lock") as [y2|];
        try done.
      * destruct Hy as [Hy _]. by destruct Hy.
      * destruct Hy as [_ Hy]. by destruct Hy.
  - intros [n Hn]. by rewrite detectPackageManager_eval, Hn.
  - intros Hp [n Hn]. by rewrite detectPackageManager_eval, Hp, Hn.
  - intros Hp Hy. by rewrite detectPackageManager_eval, Hp, Hy.
Qed.

Lemma detectPackageManager_by_lock_file_witness :
  (detectPackageManager
     (World (<["yarn.lock" := File (Text "") 420%N]> (project manifest_x)) [])).1
  = Ok "yarn".
Proof.
  apply (detectPackageManager_by_lock_file
           (World (<["yarn.lock" := File (Text "") 420%N]> (project manifest_x)) [])).
  - reflexivity.
  - vm_compute. eauto.
Defined.

(** ** The delegated steps *)

Section Delegated.
Variable sh : string → gmap string node → bool * gmap string node.

Lemma checkPrerequisites_eval w :
  let r := sh "git rev-parse --git-dir" (tree w) in
  let tr := (trace w ++ [Log CheckingPrerequisites; Exec "git rev-parse --git-dir"])%list in
  checkPrerequisites sh w
  = if r.1 then
      match r.2 !! "package.json" with
      | Some _ => (Ok tt, World r.2 (tr ++ [Log PrerequisitesPassed]))
      | None => (Throw NoPackageJson, World r.2 tr)
      end
    else (Throw NotGitRepo, World r.2 tr).
Proof.
  unfold checkPrerequisites, bind, try_catch, execSync, pathExists, throw, ret,
    console_log, emit.
  cbn [tree trace]. destruct (sh _ _) as [[] t]; cbn [fst snd tree trace].
  - destruct (t !! "package.json"); cbn [negb tree trace]; by rewrite <- !app_assoc.
  - by rewrite <- !app_assoc.
Qed.

Lemma installDependencies_eval w :
  let cmd := installCmd match tree w !! "pnpm-lock.yaml" with
                        | Some _ => "pnpm"
                        | None => match tree w !! "yarn.lock" with
                                  | Some _ => "yarn"
                                  | None => "npm"
                                  end
                        end in
  let r := sh cmd (tree w) in
  installDependencies sh w
  = if r.1 then
      (Ok tt, World r.2 (trace w ++ [Log InstallingDependencies; Exec cmd;
                                     Log DependenciesInstalled]))
    else
      (Throw (InstallFailed (CommandFailed cmd)),
       World r.2 (trace w ++ [Log InstallingDependencies; Exec cmd])).
Proof.
  cbv zeta. unfold installDependencies.
  unfold bind at 1. unfold console_log at 1, emit. unfold try_catch.
  unfold bind at 1. rewrite detectPackageManager_eval. cbn [tree trace].
  unfold bind, execSync, console_log, emit, throw. cbn [tree trace].
  destruct (sh _ _) as [[] t]; cbn [fst snd tree trace]; by rewrite <- !app_assoc.
Qed.

Lemma initializeHusky_eval w :
  let r := sh "npx husky init" (tree w) in
  initializeHusky sh w
  = (Ok tt,
     World r.2 (trace w ++ [Log InitializingHusky; Exec "npx husky init";
                            Log (if r.1 then HuskyInitialized
                                 else HuskyMayBeInitialized)])).
Proof.
  cbv zeta. unfold initializeHusky, bind, try_catch, execSync, console_log, emit.
  cbn [tree trace].
  destruct (sh _ _) as [[] t]; cbn [fst snd tree trace]; by rewrite <- !app_assoc.
Qed.

End Delegated.

(** ** Claims about the delegated steps *)

Section Orchestrator.
Variable sh : string → gmap string node → bool * gmap string node.
Variable templates : string → option (content * N).

Lemma run_unfold w :
  run sh templates w
  = match steps sh templates (World (tree w) (trace w ++ [Log SettingUp])) with
    | (Ok _, w') => (0, w')
    | (Throw e, w') => (1, World (tree w') (trace w' ++ [LogError e]))
    end.
Proof. reflexivity. Qed.

(** C9. The installation command is the pnpm one exactly when
    [pnpm-lock.yaml] is present, and the npm one in every other case; with
    [yarn.lock] alone detection answers yarn and the command is still the
    npm one.  It is the only command the step runs. *)
Theorem installDependencies_command (w : world) :
  let pnpm := "pnpm add -D husky@^9.1.7 lint-staged@^16.1.2 @commitlint/cli@^19.8.1 @commitlint/config-conventional@^19.8.1 commitizen@^4.3.1 cz-conventional-changelog@^3.3.0" in
  let npm := "npm install --save-dev husky@^9.1.7 lint-staged@^16.1.2 @commitlint/cli@^19.8.1 @commitlint/config-conventional@^19.8.1 commitizen@^4.3.1 cz-conventional-changelog@^3.3.0" in
  let cmd := match tree w !! "pnpm-lock.yaml" with Some _ => pnpm | None => npm end in
  (∃ o rest,
     installDependencies sh w
     = (o, World (sh cmd (tree w)).2
                 (trace w ++ [Log InstallingDependencies; Exec cmd] ++ rest)) ∧
     (rest = [] ∨ rest = [Log DependenciesInstalled])) ∧
  (tree w !! "pnpm-lock.yaml" = None → is_Some (tree w !! "yarn.lock") →
     (detectPackageManager w).1 = Ok "yarn" ∧ cmd = npm).
Proof.
  cbv zeta. split.
  - rewrite installDependencies_eval. cbv zeta.
    destruct (tree w !! "pnpm-lock.yaml") as [n|].
    + change (installCmd "pnpm") with "pnpm add -D husky@^9.1.7 lint-staged@^16.1.2 @commitlint/cli@^19.8.1 @commitlint/config-conventional@^19.8.1 commitizen@^4.3.1 cz-conventional-changelog@^3.3.0".
      destruct (sh _ _) as [[] t]; cbn [fst snd]; eexists _, _; split; eauto.
    + assert (installCmd match tree w !! "yarn.lock" with
                         | Some _ => "yarn"
                         | None => "npm"
                         end
              = "npm install --save-dev husky@^9.1.7 lint-staged@^16.1.2 @commitlint/cli@^19.8.1 @commitlint/config-conventional@^19.8.1 commitizen@^4.3.1 cz-conventional-changelog@^3.3.0")
        as -> by (by destruct (tree w !! "yarn.lock")).
      destruct (sh _ _) as [[] t]; cbn [fst snd]; eexists _, _; split; eauto.
  - intros Hp [n Hn]. by rewrite detectPackageManager_eval, Hp, Hn.
Qed.

(** C6. When the repository probe fails or the manifest is missing, the
    run ends with exit code 1 after reporting the error; up to there the
    program has logged two lines and run the probe, nothing else, so with a
    probe that only reads, the project tree is what it was. *)
Theorem failed_precondition_aborts (w : world) :
  (sh "git rev-parse --git-dir" (tree w)).2 = tree w →
  (sh "git rev-parse --git-dir" (tree w)).1 = false ∨ tree w !! "package.json" = None →
  run sh templates w
  = (1, World (tree w)
              (trace w ++ [ Log SettingUp; Log CheckingPrerequisites;
                            Exec "git rev-parse --git-dir";
                            LogError (if (sh "git rev-parse --git-dir" (tree w)).1
                                      then NoPackageJson else NotGitRepo) ])).
Proof.
  intros Hro Hfail. rewrite run_unfold. unfold steps.
  pose proof (checkPrerequisites_eval sh (World (tree w) (trace w ++ [Log SettingUp])))
    as Hc.
  cbv zeta in Hc. cbn [tree trace] in Hc. rewrite Hro in Hc.
  destruct (sh _ _) as [[] t]; cbn [fst snd] in *.
  - destruct Hfail as [?|Hm]; [done|]. rewrite Hm in Hc.
    rewrite (bind_Throw _ _ _ _ _ Hc). cbn [tree trace]. by rewrite <- !app_assoc.
  - rewrite (bind_Throw _ _ _ _ _ Hc). cbn [tree trace]. by rewrite <- !app_assoc.
Qed.

(** C7. Once the prerequisites hold, only the installation can stop the
    run before the templates are copied: when its command fails the run
    ends with exit code 1 there and then; when it succeeds the run goes on
    with the remaining steps whatever the exit status of the hook
    initialisation, which decides nothing but the line that is logged. *)
Theorem husky_failure_is_not_fatal (w0 w1 : world) :
  checkPrerequisites sh (World (tree w0) (trace w0 ++ [Log SettingUp])) = (Ok tt, w1) →
  let cmd := installCmd match tree w1 !! "pnpm-lock.yaml" with
                        | Some _ => "pnpm"
                        | None => match tree w1 !! "yarn.lock" with
                                  | Some _ => "yarn"
                                  | None => "npm"
                                  end
                        end in
  let i := sh cmd (tree w1) in
  if i.1 then
    let w2 := World i.2 (trace w1 ++ [Log InstallingDependencies; Exec cmd;
                                      Log DependenciesInstalled]) in
    let h := sh "npx husky init" (tree w2) in
    let w3 := World h.2 (trace w2 ++ [Log InitializingHusky; Exec "npx husky init";
                                      Log (if h.1 then HuskyInitialized
                                           else HuskyMayBeInitialized)]) in
    initializeHusky sh w2 = (Ok tt, w3) ∧
    run sh templates w0
    = match (copyConfigFiles templates ;;; updatePackageJson ;;; showSuccess) w3 with
      | (Ok _, w') => (0, w')
      | (Throw e, w') => (1, World (tree w') (trace w' ++ [LogError e]))
      end
  else
    run sh templates w0
    = (1, World i.2 (trace w1 ++ [Log InstallingDependencies; Exec cmd;
                                  LogError (InstallFailed (CommandFailed cmd))])).
Proof.
  intros Hpre. cbv zeta. rewrite run_unfold. unfold steps.
  rewrite (bind_Ok _ _ _ _ _ Hpre).
  pose proof (installDependencies_eval sh w1) as Hi. cbv zeta in Hi.
  destruct (sh (installCmd _) (tree w1)) as [[] t1]; cbn [fst snd] in *.
  - split; [apply initializeHusky_eval|].
    rewrite (bind_Ok _ _ _ _ _ Hi).
    by rewrite (bind_Ok _ _ _ _ _ (initializeHusky_eval sh _)).
  - rewrite (bind_Throw _ _ _ _ _ Hi). cbn [tree trace]. by rewrite <- !app_assoc.
Qed.

End Orchestrator.

Lemma installDependencies_command_witness :
  (detectPackageManager
     (World (<["yarn.lock" := File (Text "") 420%N]> (project manifest_x)) [])).1
  = Ok "yarn" ∧
  match <["yarn.lock" := File (Text "") 420%N]> (project manifest_x) !! "pnpm-lock.yaml" with
  | Some _ => "pnpm add -D husky@^9.1.7 lint-staged@^16.1.2 @commitlint/cli@^19.8.1 @commitlint/config-conventional@^19.8.1 commitizen@^4.3.1 cz-conventional-changelog@^3.3.0"
  | None => "npm install --save-dev husky@^9.1.7 lint-staged@^16.1.2 @commitlint/cli@^19.8.1 @commitlint/config-conventional@^19.8.1 commitizen@^4.3.1 cz-conventional-changelog@^3.3.0"
  end
  = "npm install --save-dev husky@^9.1.7 lint-staged@^16.1.2 @commitlint/cli@^19.8.1 @commitlint/config-conventional@^19.8.1 commitizen@^4.3.1 cz-conventional-changelog@^3.3.0".
Proof.
  refine (proj2 (installDependencies_command sh_ok
           (World (<["yarn.lock" := File (Text "") 420%N]> (project manifest_x)) [])) _ _).
  - reflexivity.
  - vm_compute. eauto.
Defined.

Lemma failed_precondition_aborts_witness :
  run sh_fail sample_templates (World ∅ [])
  = (1, World ∅ [ Log SettingUp; Log CheckingPrerequisites;
                  Exec "git rev-parse --git-dir"; LogError NotGitRepo ]).
Proof.
  apply (failed_precondition_aborts sh_fail sample_templates (World ∅ [])).
  - reflexivity.
  - left. reflexivity.
Defined.

Lemma husky_failure_is_not_fatal_witness :
  initializeHusky sh_husky_fails
    (World (project manifest_x)
       [ Log SettingUp; Log CheckingPrerequisites; Exec "git rev-parse --git-dir";
         Log PrerequisitesPassed; Log InstallingDependencies;
         Exec (installCmd "npm"); Log DependenciesInstalled ])
  = (Ok tt,
     World (project manifest_x)
       [ Log SettingUp; Log CheckingPrerequisites; Exec "git rev-parse --git-dir";
         Log PrerequisitesPassed; Log InstallingDependencies;
         Exec (installCmd "npm"); Log DependenciesInstalled;
         Log InitializingHusky; Exec "npx husky init"; Log HuskyMayBeInitialized ]) ∧
  run sh_husky_fails sample_templates (World (project manifest_x) [])
  = match (copyConfigFiles sample_templates ;;; updatePackageJson ;;; showSuccess)
            (World (project manifest_x)
               [ Log SettingUp; Log CheckingPrerequisites;
                 Exec "git rev-parse --git-dir"; Log PrerequisitesPassed;
                 Log InstallingDependencies; Exec (installCmd "npm");
                 Log DependenciesInstalled; Log InitializingHusky;
                 Exec "npx husky init"; Log HuskyMayBeInitialized ]) with
    | (Ok _, w') => (0, w')
    | (Throw e, w') => (1, World (tree w') (trace w' ++ [LogError e]))
    end.
Proof.
  apply (husky_failure_is_not_fatal sh_husky_fails sample_templates
           (World (project manifest_x) [])
           (World (project manifest_x)
              [ Log SettingUp; Log CheckingPrerequisites;
                Exec "git rev-parse --git-dir"; Log PrerequisitesPassed ])).
  vm_compute. reflexivity.
Defined.

(** ** Claims about materialization *)

(** For a hook the report of a successful round is always [Updated],
    whether or not the file was there before. *)
Lemma copyConfigFile_hook_report templates file w w' :
  shallow file → isHook file = true →
  copyConfigFile templates file w = (Ok tt, w') →
  last (trace w') = Some (Log (Updated (dest file))).
Proof.
  intros Hs Hh H.
  apply copyConfigFile_outcome in H as (_ & pre & _ & Htr); [|done].
  rewrite Hh in Htr. rewrite Htr.
  change [CopyFile (src file) (dest file);
          Chmod (dest file) (mode_of_string "755"); Log (Updated (dest file))]
    with ([CopyFile (src file) (dest file); Chmod (dest file) (mode_of_string "755")]
          ++ [Log (Updated (dest file))])%list.
  rewrite !app_assoc. apply last_snoc.
Qed.

(** C3, at the failing input: in a project without [.husky/pre-commit]
    the three hooks are created, and each is reported as updated; the
    other five files, created as well, are reported as created. *)
Theorem copyConfigFiles_reports_new_hooks_as_updated :
  project manifest_x !! ".husky/pre-commit" = None ∧
  (copyConfigFiles sample_templates (World (project manifest_x) [])).1 = Ok tt ∧
  trace (copyConfigFiles sample_templates (World (project manifest_x) [])).2
  = [ Log CopyingFiles;
      CopyFile ".lintstagedrc.js" ".lintstagedrc.js";
      Log (Created ".lintstagedrc.js");
      CopyFile "commitlint.config.js" "commitlint.config.js";
      Log (Created "commitlint.config.js");
      CopyFile ".nvmrc" ".nvmrc";
      Log (Created ".nvmrc");
      MkDir ".vscode";
      CopyFile ".vscode/settings.json" ".vscode/settings.json";
      Log (Created ".vscode/settings.json");
      CopyFile ".vscode/extensions.json" ".vscode/extensions.json";
      Log (Created ".vscode/extensions.json");
      MkDir ".husky";
      CopyFile ".husky/pre-commit" ".husky/pre-commit";
      Chmod ".husky/pre-commit" 493%N;
      Log (Updated ".husky/pre-commit");
      CopyFile ".husky/pre-push" ".husky/pre-push";
      Chmod ".husky/pre-push" 493%N;
      Log (Updated ".husky/pre-push");
      CopyFile ".husky/commit-msg" ".husky/commit-msg";
      Chmod ".husky/commit-msg" 493%N;
      Log (Updated ".husky/commit-msg");
      Log FilesCopied ].
Proof. split_and!; vm_compute; reflexivity. Qed.

(** C10. Materialization leaves every path other than the eight
    destinations and their two directories as it was; at every path other
    than the eight destinations the same file, if any, is there before and
    after; and whatever was in the tree is still there. *)
Theorem copyConfigFiles_frame templates (w : world) :
  (∀ p, p ∉ materialized →
        tree (copyConfigFiles templates w).2 !! p = tree w !! p) ∧
  (∀ p c m, p ∉ dest <$> filesToCopy →
        tree w !! p = Some (File c m) ↔
        tree (copyConfigFiles templates w).2 !! p = Some (File c m)) ∧
  (∀ p n, tree w !! p = Some n →
        is_Some (tree (copyConfigFiles templates w).2 !! p)).
Proof.
  pose proof (touches_copyConfigFiles templates w) as T. split_and!.
  - intros p Hp. by apply copyConfigFiles_outside.
  - intros p c m Hp. by apply (touches_files _ _ _ _ _ _ _ T).
  - intros p n Hn. by apply (touches_nothing_deleted _ _ _ _ _ _ T Hn).
Qed.

Lemma copyConfigFiles_frame_witness :
  tree (copyConfigFiles sample_templates (World project_with_readme [])).2 !! "README.md"
  = Some (File (Text "hello") 420%N).
Proof.
  rewrite (proj1 (copyConfigFiles_frame sample_templates
                    (World project_with_readme [])) "README.md").
  - reflexivity.
  - unfold materialized. cbn. rewrite !not_elem_of_cons.
    split_and!; try done. apply not_elem_of_nil.
Defined.

(** ** A successful run, step by step *)

Section Run.
Variable sh : string → gmap string node → bool * gmap string node.
Variable templates : string → option (content * N).

Lemma checkPrerequisites_Ok w w' :
  checkPrerequisites sh w = (Ok tt, w') →
  tree w' = (sh "git rev-parse --git-dir" (tree w)).2 ∧
  trace w' = (trace w ++ [ Log CheckingPrerequisites;
                           Exec "git rev-parse --git-dir";
                           Log PrerequisitesPassed ])%list.
Proof.
  rewrite checkPrerequisites_eval. cbv zeta.
  destruct (sh _ _) as [[] t]; cbn [fst snd]; [|done].
  destruct (t !! "package.json"); [|done]. intros H. injection H as <-.
  cbn [tree trace]. by rewrite <- !app_assoc.
Qed.

Lemma installDependencies_Ok w w' :
  installDependencies sh w = (Ok tt, w') →
  ∃ cmd, tree w' = (sh cmd (tree w)).2 ∧
         trace w' = (trace w ++ [ Log InstallingDependencies; Exec cmd;
                                  Log DependenciesInstalled ])%list.
Proof.
  rewrite installDependencies_eval. cbv zeta.
  destruct (sh _ _) as [[] t] eqn:E; cbn [fst snd]; [|done].
  intros H. injection H as <-. eexists. rewrite E. done.
Qed.

Lemma initializeHusky_Ok w w' :
  initializeHusky sh w = (Ok tt, w') →
  ∃ b : bool,
    tree w' = (sh "npx husky init" (tree w)).2 ∧
    trace w' = (trace w ++ [ Log InitializingHusky; Exec "npx husky init";
                             Log (if b then HuskyInitialized
                                  else HuskyMayBeInitialized) ])%list.
Proof.
  rewrite initializeHusky_eval. cbv zeta. intros H. injection H as <-. eauto.
Qed.

(** The worlds a run with exit code 0 goes through. *)
Lemma run_Ok w0 w1 :
  run sh templates w0 = (0, w1) →
  ∃ wa wb wc wd we,
    checkPrerequisites sh (World (tree w0) (trace w0 ++ [Log SettingUp])) = (Ok tt, wa) ∧
    installDependencies sh wa = (Ok tt, wb) ∧
    initializeHusky sh wb = (Ok tt, wc) ∧
    copyConfigFiles templates wc = (Ok tt, wd) ∧
    updatePackageJson wd = (Ok tt, we) ∧
    w1 = World (tree we) (trace we ++ [Log SetupComplete]).
Proof.
  rewrite run_unfold. destruct (steps _ _ _) as [[[]|e] w'] eqn:H; [|done].
  intros E. injection E as <-. unfold steps in H.
  apply bind_Ok_inv in H as ([] & wa & Ha & H).
  apply bind_Ok_inv in H as ([] & wb & Hb & H).
  apply bind_Ok_inv in H as ([] & wc & Hc & H).
  apply bind_Ok_inv in H as ([] & wd & Hd & H).
  apply bind_Ok_inv in H as ([] & we & He & H).
  apply console_log_inv in H as [_ ->].
  by exists wa, wb, wc, wd, we.
Qed.

Lemma materialized_not_manifest : "package.json" ∉ materialized.
Proof.
  unfold materialized. cbn. rewrite !not_elem_of_cons.
  split_and!; try done. apply not_elem_of_nil.
Qed.

Lemma filesToCopy_materialized file :
  file ∈ filesToCopy →
  dest file ∈ materialized ∧
  (dirname (dest file) = "." ∨ dirname (dest file) ∈ materialized).
Proof.
  intros H. apply list_elem_of_In in H. cbn in H.
  repeat (destruct H as [<-|H];
          [split; [unfold materialized; cbn; set_solver|
                   first [by left|right; unfold materialized; cbn; set_solver]]|]).
  done.
Qed.

Lemma entry_present_agree file t t' :
  file ∈ filesToCopy →
  (∀ p, p ∈ materialized → t' !! p = t !! p) →
  entry_present templates file t → entry_present templates file t'.
Proof.
  intros Hin Hagree [Hdir Hfile].
  destruct (filesToCopy_materialized file Hin) as [Hd Hdn]. split.
  - destruct Hdir as [?|Hdir]; [by left|]. destruct Hdn as [?|Hdn]; [by left|right].
    by rewrite Hagree.
  - by rewrite Hagree.
Qed.

Lemma updatePackageJson_reads w w' :
  updatePackageJson w = (Ok tt, w') →
  ∃ m mode, tree w !! "package.json" = Some (File (Json m) mode).
Proof.
  intros H. unfold updatePackageJson in H.
  apply bind_Ok_inv in H as ([] & w2 & Hl & H). apply console_log_inv in Hl as [_ ->].
  apply bind_Ok_inv in H as (m & w2 & Hr & _).
  apply readJson_inv in Hr as [_ (mode & Hr)]. eauto.
Qed.

(** After a run with exit code 0 every entry is present in the tree. *)
Lemma run_Ok_present w0 w1 :
  run sh templates w0 = (0, w1) →
  ∀ file, file ∈ filesToCopy → entry_present templates file (tree w1).
Proof.
  intros (wa & wb & wc & wd & we & Ha & Hb & Hc & Hd & He & ->)%run_Ok file Hin.
  cbn [tree]. pose proof (copyConfigFiles_settles templates _ _ Hd file Hin) as Hp.
  apply (entry_present_agree file (tree wd)); [done| |done].
  intros p Hp'.
  assert (Hne : p ≠ "package.json")
    by (intros ->; by apply materialized_not_manifest).
  destruct (updatePackageJson_reads _ _ He) as (m & mode & Hr).
  destruct (updatePackageJson_spec _ _ _ _ Hr He) as (m' & added & logs & _ & _ & Ht & _).
  rewrite Ht. destruct added; [|done]. by rewrite lookup_insert_ne.
Qed.

End Run.

(** ** A patch that goes through *)

Lemma truthy_field_container o k :
  truthy (field o k) = true → is_container o = true.
Proof. unfold field. by destruct o as [[]|]. Qed.

Lemma is_container_stringify v :
  is_container (Some (stringify v)) = is_container (Some v).
Proof. by destruct v as [| |[]| | |]. Qed.

Lemma addScript_config st item w st' w' :
  addScript st item w = (Ok st', w') →
  field (Some st'.1) "config" = field (Some st.1) "config".
Proof.
  intros H. unfold addScript in H. cbv zeta in H.
  apply bind_Ok_inv in H as (scripts & w1 & Hs & H). apply lift_inv in Hs as [Hs ->].
  apply bind_Ok_inv in H as (cur & w1 & Hc & H). apply lift_inv in Hc as [Hc ->].
  destruct (truthy cur); cbn [negb] in H.
  - apply ret_inv in H as [H ->]. by injection H as ->.
  - apply bind_Ok_inv in H as (s' & w1 & Hs' & H). apply lift_inv in Hs' as [Hs' ->].
    apply bind_Ok_inv in H as (m' & w1 & Hm & H). apply lift_inv in Hm as [Hm ->].
    apply bind_Ok_inv in H as ([] & w1 & Hl & H).
    apply ret_inv in H as [H _]. injection H as ->. symmetry in Hm.
    by apply (field_set_ne _ _ _ _ _ Hm).
Qed.

Lemma addScripts_config m w m1 added w' :
  addScripts m w = (Ok (m1, added), w') →
  field (Some m1) "config" = field (Some m) "config".
Proof.
  intros H. unfold addScripts in H.
  apply bind_Ok_inv in H as (scripts & w1 & Hs & H). apply lift_inv in Hs as [Hs ->].
  apply bind_Ok_inv in H as (m0 & w0 & H0 & H).
  assert (field (Some m0) "config" = field (Some m) "config") as E0.
  { destruct (truthy scripts); cbn [negb] in H0.
    - apply ret_inv in H0 as [H0 _]. by injection H0 as ->.
    - apply lift_inv in H0 as [H0 _]. symmetry in H0.
      by apply (field_set_ne _ _ _ _ _ H0). }
  cbn [for_acc scriptsToAdd] in H.
  apply bind_Ok_inv in H as (st1 & w1 & H1 & H).
  apply bind_Ok_inv in H as (st2 & w2 & H2 & H).
  apply ret_inv in H as [H _]. injection H as <-.
  apply addScript_config in H1, H2. cbn [fst] in *. congruence.
Qed.

(** The block [// Add commitizen config] goes through only on a manifest
    whose [config] can take a property. *)
Lemma addCommitizen_config m w m' w' :
  addCommitizen m w = (Ok m', w') → config_ok m = true.
Proof.
  intros H. unfold config_ok, field. unfold addCommitizen, bind, lift, ret in H.
  destruct (get_prop (Some m) "config") as [c|e] eqn:E; [|done].
  destruct (truthy c) eqn:T; [|done]. cbn [negb orb] in H |- *.
  rewrite E in H.
  destruct c as [[| | | | |]|]; try done; by cbn in H.
Qed.

Lemma patchManifest_config m w m' added w' :
  patchManifest m w = (Ok (m', added), w') →
  config_ok m = true ∧ is_container (field (Some m') "config") = true.
Proof.
  intros H. pose proof (patchManifest_spec _ _ _ _ _ H) as (_ & _ & _ & Hz & _).
  split; [|by apply truthy_field_container in Hz].
  unfold patchManifest in H.
  apply bind_Ok_inv in H as ([m1 a] & w1 & H1 & H).
  apply bind_Ok_inv in H as (m2 & w2 & H2 & _).
  apply addScripts_config in H1. apply addCommitizen_config in H2.
  unfold config_ok in *. cbn [fst] in H2. by rewrite <- H1.
Qed.

Lemma addCommitizen_Ok fs w :
  config_ok (VObj fs) = true →
  ∃ fs' w', addCommitizen (VObj fs) w = (Ok (VObj fs'), w').
Proof.
  unfold config_ok, field, addCommitizen, bind, lift, ret, console_log, emit.
  cbn [get_prop]. intros Hc.
  destruct (own_get "config" fs) as [c|] eqn:E.
  - destruct (truthy (Some c)) eqn:Tc.
    + cbn [negb orb] in Hc |- *. rewrite E.
      destruct c as [| | | |xs ps|cs]; try done; cbn [get_prop set_prop];
        destruct (truthy (own_get "commitizen" _)); cbn [negb]; eauto.
    + cbn [negb set_prop get_prop]. rewrite own_get_set_eq. cbn. eauto.
  - cbn [truthy negb set_prop get_prop]. rewrite own_get_set_eq. cbn. eauto.
Qed.

Lemma addModuleType_Ok fs w :
  ∃ fs' w', addModuleType (VObj fs) w = (Ok (VObj fs'), w').
Proof.
  unfold addModuleType, bind, lift, ret, console_log, emit. cbn [get_prop set_prop].
  destruct (truthy _); cbn [negb]; eauto.
Qed.

(** On a manifest with both scripts set and a [config] that can take a
    property, the patch step goes through. *)
Lemma updatePackageJson_settled_Ok w m mode :
  tree w !! "package.json" = Some (File (Json m) mode) →
  scripts_settled m = true →
  config_ok m = true →
  ∃ w', updatePackageJson w = (Ok tt, w').
Proof.
  intros Hm Hs Hc.
  assert (∃ fs, m = VObj fs) as [fs ->].
  { unfold scripts_settled in Hs. destruct m; try done. eauto. }
  unfold scripts_settled in Hs.
  apply andb_prop in Hs as [[_ Hp]%andb_prop Hq].
  destruct (addCommitizen_Ok fs (World (tree w) (trace w ++ [Log UpdatingPackageJson])) Hc)
    as (fs1 & w1 & H1).
  destruct (addModuleType_Ok fs1 w1) as (fs2 & w2 & H2).
  assert (patchManifest (VObj fs) (World (tree w) (trace w ++ [Log UpdatingPackageJson]))
          = (Ok (VObj fs2, false), w2)) as Hpm.
  { unfold patchManifest.
    rewrite (bind_Ok _ _ _ _ _ (addScripts_settled _ _ Hp Hq)). cbn [fst snd].
    rewrite (bind_Ok _ _ _ _ _ H1). by rewrite (bind_Ok _ _ _ _ _ H2). }
  pose proof (patchManifest_spec _ _ _ _ _ Hpm) as (_ & _ & _ & Hz & Ht & _).
  unfold updatePackageJson.
  unfold bind at 1. unfold console_log at 1, emit.
  unfold bind at 1, readJson. cbn [tree]. rewrite Hm.
  rewrite (bind_Ok _ _ _ _ _ Hpm). cbn [fst snd].
  rewrite (bind_Ok _ _ _ _ _ (needsWrite_after_patch _ false w2 Hz Ht)).
  unfold bind, ret, console_log, emit. eauto.
Qed.

(** ** Settled manifests *)

Lemma scripts_settled_of_shape m :
  manifest_shape m = true →
  truthy (field (field (Some m) "scripts") "prepare") = true →
  truthy (field (field (Some m) "scripts") "commit") = true →
  scripts_settled m = true.
Proof.
  unfold manifest_shape, scripts_settled. intros [Ho Hs]%andb_prop Hp Hc.
  rewrite Ho, Hp, Hc. rewrite (truthy_of_field _ _ Hp) in Hs.
  cbn [negb orb] in Hs. by rewrite Hs.
Qed.

Lemma scripts_settled_truthy m :
  scripts_settled m = true →
  truthy (field (field (Some m) "scripts") "prepare") = true ∧
  truthy (field (field (Some m) "scripts") "commit") = true.
Proof.
  unfold scripts_settled. by intros [[_ ?]%andb_prop ?]%andb_prop.
Qed.

Lemma config_ok_stringify m :
  is_object (Some m) = true →
  is_container (field (Some m) "config") = true →
  config_ok (stringify m) = true.
Proof.
  destruct m as [| | | | |fs]; try done. intros _ Hc.
  unfold config_ok. rewrite field_stringify_object.
  destruct (field (Some (VObj fs)) "config") as [c|]; [|done].
  cbn [fmap option_fmap option_map]. rewrite is_container_stringify, Hc.
  apply orb_true_r.
Qed.

(** * Further properties *)

(** ** The manifests the patch can be applied to *)

Lemma get_prop_container o k :
  is_container o = true → get_prop o k = Ok (field o k).
Proof. unfold field. by destruct o as [[]|]. Qed.

Lemma set_prop_container o k x :
  is_container o = true →
  ∃ v, set_prop o k x = Ok v ∧ is_container (Some v) = true.
Proof. destruct o as [[]|]; try done; simpl; eauto. Qed.

Lemma set_prop_is_container o k x v :
  set_prop o k x = Ok v → is_container o = true.
Proof. by destruct o as [[]|]. Qed.

Lemma addScript_Ok st item w :
  is_container (Some st.1) = true →
  is_container (field (Some st.1) "scripts") = true →
  ∃ st' w', addScript st item w = (Ok st', w') ∧
    is_container (Some st'.1) = true ∧
    is_container (field (Some st'.1) "scripts") = true.
Proof.
  intros Hm Hs. unfold addScript. cbv zeta. unfold bind, lift.
  rewrite (get_prop_container _ _ Hm), (get_prop_container _ _ Hs).
  destruct (truthy (field (field (Some st.1) "scripts") item.1)); cbn [negb].
  - unfold ret. eauto.
  - destruct (set_prop_container _ item.1 (VStr item.2) Hs) as (s' & Hs' & Cs').
    destruct (set_prop_container _ "scripts" s' Hm) as (m' & Hm' & Cm').
    rewrite Hs', Hm'. unfold console_log, emit, ret. eexists _, _. split; [done|].
    cbn [fst]. by rewrite (field_set_eq _ _ _ _ Hm').
Qed.

Lemma addScripts_Ok m w :
  is_container (Some m) = true →
  negb (truthy (field (Some m) "scripts")) || is_container (field (Some m) "scripts") = true →
  ∃ m1 added w', addScripts m w = (Ok (m1, added), w') ∧ is_container (Some m1) = true.
Proof.
  intros Hm Hs.
  assert (∃ m0 w0, (let* scripts := lift (get_prop (Some m) "scripts") in
                    let* packageJson :=
                      (if negb (truthy scripts)
                       then lift (set_prop (Some m) "scripts" (VObj []))
                       else ret m) in
                    ret packageJson) w = (Ok m0, w0) ∧
                   is_container (Some m0) = true ∧
                   is_container (field (Some m0) "scripts") = true)
    as (m0 & w0 & H0 & C0 & S0).
  { unfold bind, lift. rewrite (get_prop_container _ _ Hm).
    destruct (truthy (field (Some m) "scripts")); cbn [negb orb] in *.
    - unfold ret. eauto.
    - destruct (set_prop_container _ "scripts" (VObj []) Hm) as (m0 & Hm0 & Cm0).
      rewrite Hm0. unfold ret. eexists _, _. split; [done|]. split; [done|].
      by rewrite (field_set_eq _ _ _ _ Hm0). }
  destruct (addScript_Ok (m0, false) ("prepare", "husky") w0 C0 S0)
    as (st1 & w1 & H1 & C1 & S1).
  destruct (addScript_Ok st1 ("commit", "cz") w1 C1 S1) as ([m2 a2] & w2 & H2 & C2 & _).
  exists m2, a2, w2. split; [|done].
  unfold addScripts. unfold bind, lift, ret in H0 |- *.
  destruct (get_prop (Some m) "scripts") as [scripts|]; [|done].
  destruct (if negb (truthy scripts) then _ else _) as [[pj|] wx] eqn:E; [|done].
  injection H0 as -> ->. cbn [for_acc scriptsToAdd]. unfold bind.
  by rewrite H1, H2.
Qed.

Lemma addCommitizen_container m w :
  is_container (Some m) = true →
  config_ok m = true →
  ∃ m' w', addCommitizen m w = (Ok m', w') ∧ is_container (Some m') = true.
Proof.
  intros Hm Hc. unfold config_ok in Hc. unfold addCommitizen, bind, lift.
  rewrite (get_prop_container _ _ Hm).
  assert (∀ m0, is_container (Some m0) = true →
                is_container (field (Some m0) "config") = true →
                ∃ m' w',
                  match get_prop (Some m0) "config" with
                  | Ok config =>
                      match get_prop config "commitizen" with
                      | Ok commitizen =>
                          (if negb (truthy commitizen)
                           then bind (lift (set_prop config "commitizen" commitizenConfig))
                                  (λ config',
                                     bind (lift (set_prop (Some m0) "config" config'))
                                       (λ packageJson',
                                          bind (console_log AddedCommitizen)
                                            (λ _, ret packageJson')))
                           else ret m0) w
                      | Throw e => (Throw e, w)
                      end
                  | Throw e => (Throw e, w)
                  end = (Ok m', w') ∧ is_container (Some m') = true) as Hrest.
  { intros m0 C0 S0.
    rewrite (get_prop_container _ _ C0), (get_prop_container _ _ S0).
    destruct (truthy (field (field (Some m0) "config") "commitizen")); cbn [negb].
    - unfold ret. eauto.
    - destruct (set_prop_container _ "commitizen" commitizenConfig S0) as (c' & Hc' & _).
      destruct (set_prop_container _ "config" c' C0) as (m' & Hm' & Cm').
      unfold bind, lift. rewrite Hc', Hm'. unfold console_log, emit, ret. eauto. }
  destruct (truthy (field (Some m) "config")); cbn [negb orb] in *.
  - unfold ret at 1. by apply Hrest.
  - destruct (set_prop_container _ "config" (VObj []) Hm) as (m0 & Hm0 & Cm0).
    rewrite Hm0. apply Hrest; [done|]. by rewrite (field_set_eq _ _ _ _ Hm0).
Qed.

Lemma addModuleType_container m w :
  is_container (Some m) = true →
  ∃ m' w', addModuleType m w = (Ok m', w').
Proof.
  intros Hm. unfold addModuleType, bind, lift.
  rewrite (get_prop_container _ _ Hm).
  destruct (truthy (field (Some m) "type")); cbn [negb].
  - unfold ret. eauto.
  - destruct (set_prop_container _ "type" (VStr "module") Hm) as (m' & Hm' & _).
    rewrite Hm'. unfold console_log, emit, ret. eauto.
Qed.

Lemma patchManifest_Ok m w :
  patchable m = true → ∃ r w', patchManifest m w = (Ok r, w').
Proof.
  unfold patchable. intros [[Hm Hs]%andb_prop Hc]%andb_prop.
  destruct (addScripts_Ok m w Hm Hs) as (m1 & a & w1 & H1 & C1).
  assert (config_ok m1 = true) as Hc1.
  { unfold config_ok in *. by rewrite (addScripts_config _ _ _ _ _ H1). }
  destruct (addCommitizen_container m1 w1 C1 Hc1) as (m2 & w2 & H2 & C2).
  destruct (addModuleType_container m2 w2 C2) as (m3 & w3 & H3).
  unfold patchManifest.
  rewrite (bind_Ok _ _ _ _ _ H1). cbn [fst snd].
  rewrite (bind_Ok _ _ _ _ _ H2), (bind_Ok _ _ _ _ _ H3). unfold ret. eauto.
Qed.

(** The block [// Add scripts] goes through only on a manifest that can
    take a property and whose [scripts], when set, can. *)
Lemma addScripts_shape m w r w' :
  addScripts m w = (Ok r, w') →
  is_container (Some m) = true ∧
  negb (truthy (field (Some m) "scripts")) || is_container (field (Some m) "scripts") = true.
Proof.
  intros H. unfold addScripts in H.
  apply bind_Ok_inv in H as (scripts & w1 & Hs & H). apply lift_inv in Hs as [Hs ->].
  symmetry in Hs. rewrite (field_get _ _ _ Hs).
  apply bind_Ok_inv in H as (m0 & w0 & H0 & H).
  destruct (truthy scripts) eqn:Ht; cbn [negb orb] in *.
  2:{ apply lift_inv in H0 as [H0 _]. symmetry in H0.
      by apply set_prop_is_container in H0. }
  apply ret_inv in H0 as [[= ->] ->].
  assert (is_container (Some m) = true) as Hm.
  { apply (truthy_field_container _ "scripts"). by rewrite (field_get _ _ _ Hs). }
  split; [done|].
  cbn [for_acc scriptsToAdd] in H.
  apply bind_Ok_inv in H as (st1 & w1 & H1 & _).
  unfold addScript in H1. cbv zeta in H1. cbn [fst snd] in H1.
  apply bind_Ok_inv in H1 as (scripts' & w2 & Hs' & H1). apply lift_inv in Hs' as [Hs' ->].
  rewrite Hs in Hs'. injection Hs' as ->.
  apply bind_Ok_inv in H1 as (cur & w2 & Hc & H1). apply lift_inv in Hc as [Hc ->].
  symmetry in Hc.
  destruct (truthy cur) eqn:Hcur; cbn [negb] in H1.
  - apply (truthy_field_container _ "prepare"). by rewrite (field_get _ _ _ Hc).
  - apply bind_Ok_inv in H1 as (s' & w2 & Hset & _). apply lift_inv in Hset as [Hset _].
    symmetry in Hset. by apply set_prop_is_container in Hset.
Qed.

Lemma patchManifest_patchable m w r w' :
  patchManifest m w = (Ok r, w') → patchable m = true.
Proof.
  destruct r as [m' added]. intros Hpm.
  destruct (patchManifest_config _ _ _ _ _ Hpm) as [Hc _].
  unfold patchManifest in Hpm. apply bind_Ok_inv in Hpm as (st & w1 & H1 & _).
  apply addScripts_shape in H1 as [Hc1 Hs]. unfold patchable.
  by rewrite Hc1, Hs, Hc.
Qed.

Lemma updatePackageJson_Ok_patchable w w' :
  updatePackageJson w = (Ok tt, w') →
  ∃ m mode, tree w !! "package.json" = Some (File (Json m) mode) ∧
            patchable m = true.
Proof.
  intros H. unfold updatePackageJson in H.
  apply bind_Ok_inv in H as ([] & w1 & Hl & H). apply console_log_inv in Hl as [_ ->].
  apply bind_Ok_inv in H as (m & w1 & Hr & H).
  apply readJson_inv in Hr as [-> (mode & Hr)]. cbn [tree] in Hr.
  apply bind_Ok_inv in H as (st & w2 & Hp & _).
  exists m, mode. split; [done|]. by apply patchManifest_patchable in Hp.
Qed.

(** ** The errors of the patch step *)

Lemma raises_ret {A} P (a : A) : raises P (ret a).
Proof. by intros w e w' H. Qed.

Lemma raises_lift {A} (P : error → Prop) (o : outcome A) :
  (∀ e, o = Throw e → P e) → raises P (lift o).
Proof. intros Ho w e w' H. apply lift_inv in H as [H _]. by apply Ho. Qed.

Lemma raises_console_log P r : raises P (console_log r).
Proof. intros w e w' H. by apply console_log_inv in H as [? _]. Qed.

Lemma raises_bind {A B} P (m : M A) (k : A → M B) :
  raises P m → (∀ a, raises P (k a)) → raises P (bind m k).
Proof.
  intros Hm Hk w e w' H. apply bind_inv in H as [(e' & H & [= ->])|(a & w1 & _ & H)].
  - by apply (Hm _ _ _ H).
  - by apply (Hk _ _ _ _ H).
Qed.

Lemma raises_if {A} P (b : bool) (m1 m2 : M A) :
  raises P m1 → raises P m2 → raises P (if b then m1 else m2).
Proof. by destruct b. Qed.

Lemma raises_for_acc {A S} P (l : list A) (s : S) (body : S → A → M S) :
  (∀ s x, raises P (body s x)) → raises P (for_acc l s body).
Proof.
  intros Hb. revert s. induction l as [|x r IH]; intros s; simpl.
  - apply raises_ret.
  - apply raises_bind; [apply Hb|]. intros s'. apply IH.
Qed.

Lemma get_prop_raises o k e : get_prop o k = Throw e → e = TypeError.
Proof. destruct o as [[]|]; simpl; congruence. Qed.

Lemma set_prop_raises o k x e : set_prop o k x = Throw e → e = TypeError.
Proof. destruct o as [[]|]; simpl; congruence. Qed.

Ltac raises_tac :=
  repeat first
    [ apply raises_console_log
    | apply raises_ret
    | apply raises_lift; intros ?; first [apply get_prop_raises|apply set_prop_raises]
    | apply raises_if
    | apply raises_bind; [|intros ?]
    | apply raises_for_acc; intros ? ? ].

Lemma raises_addScript st item : raises (λ e, e = TypeError) (addScript st item).
Proof. unfold addScript. cbv zeta. raises_tac. Qed.

Lemma raises_patchManifest m : raises (λ e, e = TypeError) (patchManifest m).
Proof.
  unfold patchManifest, addScripts, addCommitizen, addModuleType.
  apply raises_bind; [|intros ?; raises_tac].
  apply raises_bind; [raises_tac|intros ?].
  apply raises_bind; [raises_tac|intros ?].
  apply raises_for_acc. intros ? ?. apply raises_addScript.
Qed.

Lemma readJson_Throw p w e w' :
  readJson p w = (Throw e, w') →
  w' = w ∧
  match tree w !! p with
  | None => e = ENOENT p
  | Some Dir => e = EISDIR p
  | Some (File (Text _) _) => e = ParseError p
  | Some (File (Json _) _) => False
  end.
Proof.
  unfold readJson. destruct (tree w !! p) as [[|[v|s] mode]|]; intros H; by simplify_eq.
Qed.

Lemma writeJson_Throw p v w e w' :
  writeJson p v w = (Throw e, w') → w' = w.
Proof.
  unfold writeJson. destruct (tree w !! p) as [[|c mode]|]; [|destruct (writable mode)|];
    intros H; by simplify_eq.
Qed.

(** A patch step that raises leaves the tree as it was and logs nothing
    but its own lines.  The error is the one of reading the manifest; or,
    the manifest read, a [TypeError] when the patch cannot be assigned into
    it, and the error of the write otherwise. *)
Lemma updatePackageJson_Throw w e w' :
  updatePackageJson w = (Throw e, w') →
  tree w' = tree w ∧
  (∃ evs, trace w' = (trace w ++ evs)%list ∧ forallb is_patch_log evs = true) ∧
  match readJson "package.json" w with
  | (Throw e0, _) => e = e0
  | (Ok m, _) =>
      if patchable m
      then ∃ m' w2, only_logs w w2 ∧
                    writeJson "package.json" m' w2 = (Throw e, w')
      else e = TypeError
  end.
Proof.
  intros H. unfold updatePackageJson in H.
  apply bind_inv in H as [(e' & H & _)|([] & w1 & Hl & H)];
    [by apply console_log_inv in H as [? _]|].
  apply console_log_inv in Hl as [_ ->].
  apply bind_inv in H as [(e' & H & [= ->])|(m & w1 & Hr & H)].
  { pose proof H as H'. apply readJson_Throw in H' as [-> He]. cbn [tree trace] in *.
    split_and!; [done|by exists [Log UpdatingPackageJson]|].
    unfold readJson in H |- *. cbn [tree] in H.
    destruct (tree w !! "package.json") as [[|[v|s] mode]|]; by simplify_eq. }
  pose proof Hr as Hr'. apply readJson_inv in Hr' as [-> (mode & Hm)]. cbn [tree] in Hm.
  assert (readJson "package.json" w = (Ok m, w)) as ->
    by (unfold readJson; by rewrite Hm).
  assert (∀ w2, only_logs (World (tree w) (trace w ++ [Log UpdatingPackageJson])) w2 →
                tree w2 = tree w ∧
                ∃ evs, trace w2 = (trace w ++ evs)%list ∧ forallb is_patch_log evs = true)
    as Hlogs.
  { intros w2 [Ht (evs & Htr & Hall)]. cbn [tree trace] in *. split; [done|].
    exists ([Log UpdatingPackageJson] ++ evs)%list. by rewrite Htr, <- app_assoc. }
  apply bind_inv in H as [(e' & H & [= ->])|([m' added] & w2 & Hp & H)].
  { pose proof (only_logs_patchManifest m (World (tree w) (trace w ++ [Log UpdatingPackageJson])))
      as L. rewrite H in L. destruct (Hlogs _ L) as [? ?].
    split_and!; [done|done|].
    destruct (patchable m) eqn:Hpa; [|by apply (raises_patchManifest _ _ _ _ H)].
    destruct (patchManifest_Ok m (World (tree w) (trace w ++ [Log UpdatingPackageJson])) Hpa)
      as (r & wr & Hok). congruence. }
  pose proof (only_logs_patchManifest m (World (tree w) (trace w ++ [Log UpdatingPackageJson])))
    as L2. rewrite Hp in L2. cbn [snd] in L2.
  pose proof (patchManifest_patchable _ _ _ _ Hp) as ->.
  pose proof (patchManifest_spec _ _ _ _ _ Hp) as (_ & _ & _ & Hz & Hty & _).
  cbn [fst snd] in H. rewrite (bind_Ok _ _ _ _ _ (needsWrite_after_patch _ added w2 Hz Hty)) in H.
  apply bind_inv in H as [(e' & H & [= ->])|([] & w4 & _ & H)];
    [|by apply console_log_inv in H as [? _]].
  destruct added; [|by apply ret_inv in H as [? _]].
  pose proof (writeJson_Throw _ _ _ _ _ H) as ->.
  destruct (Hlogs w2 L2) as [Ht Hevs]. split_and!; [done|done|].
  by exists m', w2.
Qed.



(** A manifest that may not be written: the patch is computed, the write
    is refused, and the file is as it was. *)
Lemma updatePackageJson_read_only_manifest :
  updatePackageJson (World {[ "package.json" := File (Json manifest_x) 292%N ]} [])
  = (Throw (EACCES "package.json"),
     World {[ "package.json" := File (Json manifest_x) 292%N ]}
           [ Log UpdatingPackageJson;
             Log (AddedScript "prepare"); Log (AddedScript "commit");
             Log AddedCommitizen; Log AddedModuleSupport ]).
Proof. vm_compute. reflexivity. Qed.

(** ** What the patch does to the manifest object *)

Lemma same_off_refl ks o : same_off ks o o.
Proof. by intros k _. Qed.

Lemma same_off_trans ks o1 o2 o3 :
  same_off ks o1 o2 → same_off ks o2 o3 → same_off ks o1 o3.
Proof. intros H1 H2 k Hk. by rewrite H2, H1. Qed.

Lemma same_off_set_prop o k x v : set_prop o k x = Ok v → same_off [k] o (Some v).
Proof.
  intros H k' Hk'. apply (field_set_ne _ _ _ _ _ H).
  intros ->. apply Hk'. by left.
Qed.

Lemma same_off_falsy ks o : truthy o = false → same_off ks o (Some (VObj [])).
Proof. intros H k _. by rewrite (field_falsy _ _ H). Qed.

Lemma own_get_key k fs v : own_get k fs = Some v → k ∈ fs.*1.
Proof.
  induction fs as [|[k' x] r IH]; simpl; [done|].
  destruct (String.eqb_spec k' k) as [->|_]; [by left|]. right. by apply IH.
Qed.

Lemma key_of_field o k v : field o k = Some v → k ∈ keys o.
Proof.
  unfold field. destruct o as [[]|]; simpl; try done; apply own_get_key.
Qed.

Lemma key_of_truthy o k : truthy (field o k) = true → k ∈ keys o.
Proof.
  destruct (field o k) as [v|] eqn:E; [|done]. intros _. by apply key_of_field in E.
Qed.

Lemma add_key_elem_of k l : k ∈ l → add_key k l = l.
Proof. intros H. unfold add_key. by rewrite decide_True. Qed.

Lemma keys_set_prop o k x v : set_prop o k x = Ok v → keys (Some v) = add_key k (keys o).
Proof.
  destruct o as [[]|]; simpl; intros H; simplify_eq; simpl; apply own_set_keys.
Qed.

Lemma keys_falsy o : truthy o = false → keys o = [].
Proof. by destruct o as [[]|]. Qed.

Lemma or_default_truthy old d : truthy old = true → or_default old d = old.
Proof. unfold or_default. by intros ->. Qed.

Lemma or_default_falsy old d : truthy old = false → or_default old d = Some d.
Proof. unfold or_default. by intros ->. Qed.

Lemma world_eta w : World (tree w) (trace w ++ []) = w.
Proof. destruct w. by rewrite app_nil_r. Qed.

(** One round of the loop over [scriptsToAdd]. *)
Lemma addScript_effect st item w st' w' :
  addScript st item w = (Ok st', w') →
  same_off ["scripts"] (Some st.1) (Some st'.1) ∧
  same_off [item.1] (field (Some st.1) "scripts") (field (Some st'.1) "scripts") ∧
  field (field (Some st'.1) "scripts") item.1
    = or_default (field (field (Some st.1) "scripts") item.1) (VStr item.2) ∧
  w' = World (tree w)
             (trace w ++ if truthy (field (field (Some st.1) "scripts") item.1)
                         then [] else [Log (AddedScript item.1)]) ∧
  keys (Some st'.1) = keys (Some st.1) ∧
  keys (field (Some st'.1) "scripts")
    = add_key item.1 (keys (field (Some st.1) "scripts")).
Proof.
  intros H. unfold addScript in H. cbv zeta in H.
  apply bind_Ok_inv in H as (scripts & w1 & Hs & H). apply lift_inv in Hs as [Hs ->].
  apply bind_Ok_inv in H as (cur & w1 & Hc & H). apply lift_inv in Hc as [Hc ->].
  symmetry in Hs, Hc.
  rewrite (field_get _ _ _ Hs), (field_get _ _ _ Hc).
  destruct (truthy cur) eqn:Hcur; cbn [negb] in H.
  - apply ret_inv in H as [[= ->] ->].
    rewrite (field_get _ _ _ Hs), (field_get _ _ _ Hc), world_eta.
    rewrite (or_default_truthy _ _ Hcur).
    split_and!; try done; try apply same_off_refl.
    rewrite add_key_elem_of; [done|].
    apply key_of_truthy. by rewrite (field_get _ _ _ Hc).
  - apply bind_Ok_inv in H as (s' & w1 & Hs' & H). apply lift_inv in Hs' as [Hs' ->].
    apply bind_Ok_inv in H as (m' & w1 & Hm & H). apply lift_inv in Hm as [Hm ->].
    apply bind_Ok_inv in H as ([] & w1 & Hl & H). apply console_log_inv in Hl as [_ ->].
    apply ret_inv in H as [[= ->] ->].
    symmetry in Hs', Hm. cbn [fst].
    rewrite (field_set_eq _ _ _ _ Hm), (or_default_falsy _ _ Hcur).
    split_and!; try done.
    + by eapply same_off_set_prop.
    + by eapply same_off_set_prop.
    + by apply (field_set_eq _ _ _ _ Hs').
    + rewrite (keys_set_prop _ _ _ _ Hm). apply add_key_elem_of.
      pose proof (set_prop_is_container _ _ _ _ Hs') as Hcont.
      destruct scripts as [sv|]; [|done].
      apply (key_of_field _ _ sv). by apply field_get.
    + by eapply keys_set_prop.
Qed.

(** The block [// Add scripts]. *)
Lemma addScripts_effect m w m1 added w' :
  addScripts m w = (Ok (m1, added), w') →
  same_off ["scripts"] (Some m) (Some m1) ∧
  same_off ["prepare"; "commit"] (field (Some m) "scripts") (field (Some m1) "scripts") ∧
  field (field (Some m1) "scripts") "prepare"
    = or_default (field (field (Some m) "scripts") "prepare") (VStr "husky") ∧
  field (field (Some m1) "scripts") "commit"
    = or_default (field (field (Some m) "scripts") "commit") (VStr "cz") ∧
  w' = World (tree w)
         (trace w ++
          (if truthy (field (field (Some m) "scripts") "prepare")
           then [] else [Log (AddedScript "prepare")]) ++
          (if truthy (field (field (Some m) "scripts") "commit")
           then [] else [Log (AddedScript "commit")])) ∧
  keys (Some m1) = add_key "scripts" (keys (Some m)) ∧
  keys (field (Some m1) "scripts")
    = add_key "commit" (add_key "prepare" (keys (field (Some m) "scripts"))).
Proof.
  intros H. unfold addScripts in H.
  apply bind_Ok_inv in H as (scripts & w1 & Hs & H). apply lift_inv in Hs as [Hs ->].
  symmetry in Hs. apply field_get in Hs.
  apply bind_Ok_inv in H as (m0 & w0 & H0 & H).
  assert (w0 = w ∧
          same_off ["scripts"] (Some m) (Some m0) ∧
          same_off [] (field (Some m) "scripts") (field (Some m0) "scripts") ∧
          keys (Some m0) = add_key "scripts" (keys (Some m)) ∧
          keys (field (Some m0) "scripts") = keys (field (Some m) "scripts"))
    as (-> & T0 & S0 & K0 & L0).
  { destruct (truthy scripts) eqn:Ht; cbn [negb] in H0.
    - apply ret_inv in H0 as [[= ->] ->].
      split_and!; try done; try apply same_off_refl.
      symmetry. apply add_key_elem_of, key_of_truthy. by rewrite Hs.
    - apply lift_inv in H0 as [H0 ->]. symmetry in H0.
      rewrite (field_set_eq _ _ _ _ H0), Hs. split_and!; try done.
      + by eapply same_off_set_prop.
      + by apply same_off_falsy.
      + by eapply keys_set_prop.
      + by rewrite (keys_falsy _ Ht). }
  cbn [for_acc scriptsToAdd] in H.
  apply bind_Ok_inv in H as (st1 & w1 & H1 & H).
  apply bind_Ok_inv in H as (st2 & w2 & H2 & H).
  apply ret_inv in H as [[= <-] ->].
  apply addScript_effect in H1 as (T1 & S1 & V1 & -> & K1 & L1).
  apply addScript_effect in H2 as (T2 & S2 & V2 & -> & K2 & L2).
  cbn [fst snd tree trace] in *.
  assert (P0 : field (field (Some m0) "scripts") "prepare"
               = field (field (Some m) "scripts") "prepare")
    by (apply S0, not_elem_of_nil).
  assert (C0 : field (field (Some m0) "scripts") "commit"
               = field (field (Some m) "scripts") "commit")
    by (apply S0, not_elem_of_nil).
  assert (C1 : field (field (Some st1.1) "scripts") "commit"
               = field (field (Some m) "scripts") "commit").
  { rewrite <- C0. apply S1. by intros ?%list_elem_of_singleton. }
  rewrite P0 in *. rewrite C1 in *. split_and!.
  - eapply same_off_trans; [exact T0|]. eapply same_off_trans; [exact T1|exact T2].
  - intros k Hk. apply not_elem_of_cons in Hk as [Hp Hk].
    rewrite S2 by done. rewrite S1 by (by intros ?%list_elem_of_singleton).
    apply S0, not_elem_of_nil.
  - rewrite <- V1. apply S2. by intros ?%list_elem_of_singleton.
  - done.
  - by rewrite <- app_assoc.
  - by rewrite K2, K1.
  - by rewrite L2, L1, L0.
Qed.

(** The block [// Add commitizen config]. *)
Lemma addCommitizen_effect m w m' w' :
  addCommitizen m w = (Ok m', w') →
  same_off ["config"] (Some m) (Some m') ∧
  same_off ["commitizen"] (field (Some m) "config") (field (Some m') "config") ∧
  field (field (Some m') "config") "commitizen"
    = or_default (field (field (Some m) "config") "commitizen") commitizenConfig ∧
  w' = World (tree w)
         (trace w ++ if truthy (field (field (Some m) "config") "commitizen")
                     then [] else [Log AddedCommitizen]) ∧
  keys (Some m') = add_key "config" (keys (Some m)) ∧
  keys (field (Some m') "config")
    = add_key "commitizen" (keys (field (Some m) "config")).
Proof.
  intros H. unfold addCommitizen in H.
  apply bind_Ok_inv in H as (config & w1 & Hc & H). apply lift_inv in Hc as [Hc ->].
  symmetry in Hc. apply field_get in Hc.
  apply bind_Ok_inv in H as (m0 & w0 & H0 & H).
  assert (w0 = w ∧
          same_off ["config"] (Some m) (Some m0) ∧
          same_off [] (field (Some m) "config") (field (Some m0) "config") ∧
          keys (Some m0) = add_key "config" (keys (Some m)) ∧
          keys (field (Some m0) "config") = keys (field (Some m) "config"))
    as (-> & T0 & S0 & K0 & L0).
  { destruct (truthy config) eqn:Ht; cbn [negb] in H0.
    - apply ret_inv in H0 as [[= ->] ->].
      split_and!; try done; try apply same_off_refl.
      symmetry. apply add_key_elem_of, key_of_truthy. by rewrite Hc.
    - apply lift_inv in H0 as [H0 ->]. symmetry in H0.
      rewrite (field_set_eq _ _ _ _ H0), Hc. split_and!; try done.
      + by eapply same_off_set_prop.
      + by apply same_off_falsy.
      + by eapply keys_set_prop.
      + by rewrite (keys_falsy _ Ht). }
  clear H0 Hc config.
  apply bind_Ok_inv in H as (config & w1 & Hc & H). apply lift_inv in Hc as [Hc ->].
  apply bind_Ok_inv in H as (cz & w1 & Hz & H). apply lift_inv in Hz as [Hz ->].
  symmetry in Hc, Hz. apply field_get in Hc. subst config. apply field_get in Hz.
  assert (Z0 : field (field (Some m0) "config") "commitizen"
               = field (field (Some m) "config") "commitizen")
    by (apply S0, not_elem_of_nil).
  rewrite <- Z0, <- L0, Hz.
  destruct (truthy cz) eqn:Ht; cbn [negb] in H.
  - apply ret_inv in H as [[= ->] ->].
    rewrite world_eta, (or_default_truthy _ _ Ht).
    split_and!; try done.
    + intros k Hk. apply S0, not_elem_of_nil.
    + symmetry. apply add_key_elem_of, key_of_truthy. by rewrite Hz.
  - apply bind_Ok_inv in H as (c' & w1 & Hc' & H). apply lift_inv in Hc' as [Hc' ->].
    apply bind_Ok_inv in H as (m2 & w1 & Hm & H). apply lift_inv in Hm as [Hm ->].
    apply bind_Ok_inv in H as ([] & w1 & Hl & H). apply console_log_inv in Hl as [_ ->].
    apply ret_inv in H as [[= ->] ->].
    symmetry in Hc', Hm.
    rewrite (field_set_eq _ _ _ _ Hm), (or_default_falsy _ _ Ht).
    split_and!; try done.
    + eapply same_off_trans; [exact T0|]. by eapply same_off_set_prop.
    + intros k Hk. rewrite (same_off_set_prop _ _ _ _ Hc' k Hk).
      apply S0, not_elem_of_nil.
    + by apply (field_set_eq _ _ _ _ Hc').
    + rewrite (keys_set_prop _ _ _ _ Hm), K0. apply add_key_elem_of.
      unfold add_key. destruct (decide _); [done|]. apply elem_of_app. right. by left.
    + by eapply keys_set_prop.
Qed.

(** The block [// Add ES module support]. *)
Lemma addModuleType_effect m w m' w' :
  addModuleType m w = (Ok m', w') →
  same_off ["type"] (Some m) (Some m') ∧
  field (Some m') "type" = or_default (field (Some m) "type") (VStr "module") ∧
  w' = World (tree w)
         (trace w ++ if truthy (field (Some m) "type")
                     then [] else [Log AddedModuleSupport]) ∧
  keys (Some m') = add_key "type" (keys (Some m)).
Proof.
  intros H. unfold addModuleType in H.
  apply bind_Ok_inv in H as (ty & w1 & Hc & H). apply lift_inv in Hc as [Hc ->].
  symmetry in Hc. apply field_get in Hc. rewrite Hc.
  destruct (truthy ty) eqn:Ht; cbn [negb] in H.
  - apply ret_inv in H as [[= ->] ->].
    rewrite Hc, world_eta, (or_default_truthy _ _ Ht).
    split_and!; try done; try apply same_off_refl.
    symmetry. apply add_key_elem_of, key_of_truthy. by rewrite Hc.
  - apply bind_Ok_inv in H as (m2 & w1 & Hm & H). apply lift_inv in Hm as [Hm ->].
    apply bind_Ok_inv in H as ([] & w1 & Hl & H). apply console_log_inv in Hl as [_ ->].
    apply ret_inv in H as [[= ->] ->].
    symmetry in Hm. rewrite (field_set_eq _ _ _ _ Hm), (or_default_falsy _ _ Ht).
    split_and!; try done.
    + by eapply same_off_set_prop.
    + by eapply keys_set_prop.
Qed.

(** The three blocks in sequence: what the manifest object holds when the
    final [if] is reached, and what has been logged. *)
Lemma patchManifest_effect m w m' added w' :
  patchManifest m w = (Ok (m', added), w') →
  same_off ["scripts"; "config"; "type"] (Some m) (Some m') ∧
  same_off ["prepare"; "commit"] (field (Some m) "scripts") (field (Some m') "scripts") ∧
  same_off ["commitizen"] (field (Some m) "config") (field (Some m') "config") ∧
  (field (field (Some m') "scripts") "prepare"
     = or_default (field (field (Some m) "scripts") "prepare") (VStr "husky") ∧
   field (field (Some m') "scripts") "commit"
     = or_default (field (field (Some m) "scripts") "commit") (VStr "cz") ∧
   field (field (Some m') "config") "commitizen"
     = or_default (field (field (Some m) "config") "commitizen") commitizenConfig ∧
   field (Some m') "type" = or_default (field (Some m) "type") (VStr "module")) ∧
  w' = World (tree w) (trace w ++ added_lines m) ∧
  (keys (Some m') = add_key "type" (add_key "config" (add_key "scripts" (keys (Some m)))) ∧
   keys (field (Some m') "scripts")
     = add_key "commit" (add_key "prepare" (keys (field (Some m) "scripts"))) ∧
   keys (field (Some m') "config")
     = add_key "commitizen" (keys (field (Some m) "config"))).
Proof.
  intros H. unfold patchManifest in H.
  apply bind_Ok_inv in H as ([m1 a] & w1 & H1 & H).
  apply bind_Ok_inv in H as (m2 & w2 & H2 & H).
  apply bind_Ok_inv in H as (m3 & w3 & H3 & H).
  apply ret_inv in H as [H ->]. cbn [fst snd] in *. injection H as <- <-.
  apply addScripts_effect in H1 as (T1 & S1 & Vp & Vc & -> & K1 & L1).
  apply addCommitizen_effect in H2 as (T2 & S2 & Vz & -> & K2 & L2).
  apply addModuleType_effect in H3 as (T3 & Vt & -> & K3).
  cbn [tree trace] in *.
  assert (Ne : ∀ x y : string, x ≠ y → x ∉ [y])
    by (intros x y Hxy ?%list_elem_of_singleton; done).
  assert (E1c : field (Some m1) "config" = field (Some m) "config")
    by (by apply T1, Ne).
  assert (E1t : field (Some m1) "type" = field (Some m) "type")
    by (by apply T1, Ne).
  assert (E2s : field (Some m2) "scripts" = field (Some m1) "scripts")
    by (by apply T2, Ne).
  assert (E2t : field (Some m2) "type" = field (Some m1) "type")
    by (by apply T2, Ne).
  assert (E3s : field (Some m') "scripts" = field (Some m2) "scripts")
    by (by apply T3, Ne).
  assert (E3c : field (Some m') "config" = field (Some m2) "config")
    by (by apply T3, Ne).
  rewrite E3s, E2s, E3c. rewrite E1c in *. rewrite E2t, E1t in *.
  split_and!; try done.
  - intros k Hk. apply not_elem_of_cons in Hk as [Hs Hk].
    apply not_elem_of_cons in Hk as [Hc Hk]. apply not_elem_of_cons in Hk as [Ht _].
    rewrite T3, T2, T1; [done|by apply Ne..].
  - unfold added_lines. by rewrite <- !app_assoc.
  - by rewrite K3, K2, K1.
Qed.

(** ** When the patch step goes through *)

(** On a manifest that can take the patch, the step comes down to its last
    two statements: the write, made when a script was added, and the
    closing line. *)
Lemma updatePackageJson_patchable w m :
  readJson "package.json" w = (Ok m, w) →
  patchable m = true →
  ∃ m' added,
    patchManifest m (World (tree w) (trace w ++ [Log UpdatingPackageJson]))
    = (Ok (m', added),
       World (tree w) ((trace w ++ [Log UpdatingPackageJson]) ++ added_lines m)) ∧
    added = negb (truthy (field (field (Some m) "scripts") "prepare") &&
                  truthy (field (field (Some m) "scripts") "commit")) ∧
    updatePackageJson w
    = ((if added then writeJson "package.json" m' else ret tt) ;;;
       console_log PackageJsonUpdated)
        (World (tree w) ((trace w ++ [Log UpdatingPackageJson]) ++ added_lines m)).
Proof.
  intros Hr Hp.
  destruct (patchManifest_Ok m (World (tree w) (trace w ++ [Log UpdatingPackageJson])) Hp)
    as ([m' added] & w2 & Hpm).
  pose proof (patchManifest_spec _ _ _ _ _ Hpm) as (_ & _ & _ & Hz & Ht & Hadd & _).
  pose proof (patchManifest_effect _ _ _ _ _ Hpm) as (_ & _ & _ & _ & Hw & _).
  cbn [tree trace] in Hw. subst w2.
  exists m', added. split; [done|]. split; [done|].
  unfold updatePackageJson.
  unfold bind at 1. unfold console_log at 1, emit.
  unfold bind at 1.
  assert (readJson "package.json" (World (tree w) (trace w ++ [Log UpdatingPackageJson]))
          = (Ok m, World (tree w) (trace w ++ [Log UpdatingPackageJson]))) as ->.
  { apply readJson_inv in Hr as [_ (mode & Hm)]. unfold readJson. cbn [tree].
    by rewrite Hm. }
  rewrite (bind_Ok _ _ _ _ _ Hpm). cbn [fst snd].
  by rewrite (bind_Ok _ _ _ _ _ (needsWrite_after_patch _ added _ Hz Ht)).
Qed.

(** X2. The patch step goes through only on a manifest that can take the
    patch: an object (or an array) in which each of [scripts] and [config]
    is unset, falsy, or an object (or an array) itself.  On such a
    manifest, once read, nothing but the write can make the step fail: the
    step is the write of the patched manifest, made when one of the two
    scripts was missing, followed by the closing line. *)
Theorem updatePackageJson_fails_only_in_write w m :
  readJson "package.json" w = (Ok m, w) →
  ((∃ w', updatePackageJson w = (Ok tt, w')) → patchable m = true) ∧
  (patchable m = true →
   ∃ m' added,
     patchManifest m (World (tree w) (trace w ++ [Log UpdatingPackageJson]))
     = (Ok (m', added),
        World (tree w) ((trace w ++ [Log UpdatingPackageJson]) ++ added_lines m)) ∧
     added = negb (truthy (field (field (Some m) "scripts") "prepare") &&
                   truthy (field (field (Some m) "scripts") "commit")) ∧
     updatePackageJson w
     = ((if added then writeJson "package.json" m' else ret tt) ;;;
        console_log PackageJsonUpdated)
         (World (tree w) ((trace w ++ [Log UpdatingPackageJson]) ++ added_lines m))).
Proof.
  intros Hr. split.
  - intros [w' H]. apply updatePackageJson_Ok_patchable in H as (m0 & mode & Hm & Hp).
    apply readJson_inv in Hr as [_ (mode' & Hm')]. congruence.
  - by apply updatePackageJson_patchable.
Qed.

Lemma updatePackageJson_fails_only_in_write_witness :
  ((∃ w', updatePackageJson (World (project manifest_own) []) = (Ok tt, w')) →
   patchable manifest_own = true) ∧
  (patchable manifest_own = true →
   ∃ m' added,
     patchManifest manifest_own
       (World (project manifest_own) ([] ++ [Log UpdatingPackageJson]))
     = (Ok (m', added),
        World (project manifest_own)
              (([] ++ [Log UpdatingPackageJson]) ++ added_lines manifest_own)) ∧
     added = negb (truthy (field (field (Some manifest_own) "scripts") "prepare") &&
                   truthy (field (field (Some manifest_own) "scripts") "commit")) ∧
     updatePackageJson (World (project manifest_own) [])
     = ((if added then writeJson "package.json" m' else ret tt) ;;;
        console_log PackageJsonUpdated)
         (World (project manifest_own)
                (([] ++ [Log UpdatingPackageJson]) ++ added_lines manifest_own))).
Proof.
  apply (updatePackageJson_fails_only_in_write
           (World (project manifest_own) []) manifest_own).
  reflexivity.
Defined.

(** ** What the write keeps of the manifest read *)

(** X3. Whatever the patch step does to the manifest file, it leaves every
    property other than [scripts.prepare], [scripts.commit],
    [config.commitizen] and [type] as the file had it (the objects under
    [scripts] and [config] are compared property by property): untouched
    when the file is not written, and as [JSON.stringify] writes the value
    read when it is.  It leaves every other path of the tree alone. *)
Theorem updatePackageJson_leaves_other_properties w w' m mode :
  tree w !! "package.json" = Some (File (Json m) mode) →
  parsed m = true →
  updatePackageJson w = (Ok tt, w') →
  ∃ (m2 : value) (written : bool),
    tree w' !! "package.json" = Some (File (Json m2) mode) ∧
    written = negb (truthy (field (field (Some m) "scripts") "prepare") &&
                    truthy (field (field (Some m) "scripts") "commit")) ∧
    (∀ k, k ∉ ["scripts"; "config"; "type"] →
          field (Some m2) k = as_written written (field (Some m) k)) ∧
    (∀ k, k ∉ ["prepare"; "commit"] →
          field (field (Some m2) "scripts") k
          = as_written written (field (field (Some m) "scripts") k)) ∧
    (∀ k, k ∉ ["commitizen"] →
          field (field (Some m2) "config") k
          = as_written written (field (field (Some m) "config") k)) ∧
    (∀ p, p ≠ "package.json" → tree w' !! p = tree w !! p).
Proof.
  intros Hm Hparsed H.
  destruct (updatePackageJson_spec _ _ _ _ Hm H) as (m' & added & logs & Hpm & _ & Ht & _).
  pose proof (patchManifest_spec _ _ _ _ _ Hpm) as (K & _ & _ & _ & _ & Hadd & _).
  apply patchManifest_effect in Hpm as (T & S & C & _).
  destruct added.
  - exists (stringify m'), true. rewrite Ht.
    split_and!; [apply lookup_insert_eq|done|..].
    + intros k Hk. apply written_field; [done..|by apply T].
    + intros k Hk. apply written_field_under; [done..|by apply S].
    + intros k Hk. apply written_field_under; [done..|by apply C].
    + intros p Hp. by rewrite lookup_insert_ne.
  - exists m, false. rewrite Ht. by split_and!.
Qed.

Lemma updatePackageJson_leaves_other_properties_witness :
  ∃ (m2 : value) (written : bool),
    tree (updatePackageJson (World (project manifest_own) [])).2 !! "package.json"
    = Some (File (Json m2) 420%N) ∧
    written = negb (truthy (field (field (Some manifest_own) "scripts") "prepare") &&
                    truthy (field (field (Some manifest_own) "scripts") "commit")) ∧
    (∀ k, k ∉ ["scripts"; "config"; "type"] →
          field (Some m2) k = as_written written (field (Some manifest_own) k)) ∧
    (∀ k, k ∉ ["prepare"; "commit"] →
          field (field (Some m2) "scripts") k
          = as_written written (field (field (Some manifest_own) "scripts") k)) ∧
    (∀ k, k ∉ ["commitizen"] →
          field (field (Some m2) "config") k
          = as_written written (field (field (Some manifest_own) "config") k)) ∧
    (∀ p, p ≠ "package.json" →
          tree (updatePackageJson (World (project manifest_own) [])).2 !! p
          = project manifest_own !! p).
Proof.
  apply (updatePackageJson_leaves_other_properties
           (World (project manifest_own) [])
           (updatePackageJson (World (project manifest_own) [])).2
           manifest_own 420%N).
  - reflexivity.
  - reflexivity.
  - vm_compute. reflexivity.
Defined.

(** X4. What the patch step logs and whether it writes are decided
    separately: it logs one line for each of the four properties it finds
    unset, and it writes the manifest exactly when one of the two scripts
    was unset.  The tree changes at [package.json] at most. *)
Theorem updatePackageJson_lines_and_write w w' m mode :
  tree w !! "package.json" = Some (File (Json m) mode) →
  updatePackageJson w = (Ok tt, w') →
  ∃ m2 : value,
    tree w' = (if truthy (field (field (Some m) "scripts") "prepare") &&
                  truthy (field (field (Some m) "scripts") "commit")
               then tree w
               else <["package.json" := File (Json m2) mode]> (tree w)) ∧
    trace w' = (trace w ++ [Log UpdatingPackageJson] ++ added_lines m ++
                (if truthy (field (field (Some m) "scripts") "prepare") &&
                    truthy (field (field (Some m) "scripts") "commit")
                 then [] else [WriteJson "package.json" m2]) ++
                [Log PackageJsonUpdated])%list.
Proof.
  intros Hm H.
  destruct (updatePackageJson_spec _ _ _ _ Hm H) as (m' & added & logs & Hpm & _ & Ht & Htr).
  pose proof (patchManifest_spec _ _ _ _ _ Hpm) as (_ & _ & _ & _ & _ & Ha & _).
  apply patchManifest_effect in Hpm as (_ & _ & _ & _ & Hw & _).
  injection Hw as Hw. apply app_inv_head in Hw. subst logs.
  exists (stringify m'). rewrite Ht, Htr. subst added.
  by destruct (truthy (field (field (Some m) "scripts") "prepare") &&
               truthy (field (field (Some m) "scripts") "commit")).
Qed.

Lemma updatePackageJson_lines_and_write_witness :
  ∃ m2 : value,
    tree (updatePackageJson (World (project manifest_scripts_only) [])).2
    = (if truthy (field (field (Some manifest_scripts_only) "scripts") "prepare") &&
          truthy (field (field (Some manifest_scripts_only) "scripts") "commit")
       then project manifest_scripts_only
       else <["package.json" := File (Json m2) 420%N]> (project manifest_scripts_only)) ∧
    trace (updatePackageJson (World (project manifest_scripts_only) [])).2
    = ([] ++ [Log UpdatingPackageJson] ++ added_lines manifest_scripts_only ++
       (if truthy (field (field (Some manifest_scripts_only) "scripts") "prepare") &&
           truthy (field (field (Some manifest_scripts_only) "scripts") "commit")
        then [] else [WriteJson "package.json" m2]) ++
       [Log PackageJsonUpdated])%list.
Proof.
  apply (updatePackageJson_lines_and_write
           (World (project manifest_scripts_only) [])
           (updatePackageJson (World (project manifest_scripts_only) [])).2
           manifest_scripts_only 420%N).
  - reflexivity.
  - vm_compute. reflexivity.
Defined.

(** ** The manifest that is written *)

Lemma keys_stringify m : is_object (Some m) = true → keys (Some (stringify m)) = keys (Some m).
Proof.
  destruct m as [| | | | |fs]; try done. intros _. simpl.
  induction fs as [|[k v] r IH]; [done|]. cbn. by f_equal.
Qed.

(** On a [config] that is unset, falsy or an object, the block leaves an
    object under [config]. *)
Lemma addCommitizen_object m w m' w' :
  addCommitizen m w = (Ok m', w') →
  negb (truthy (field (Some m) "config")) || is_object (field (Some m) "config") = true →
  is_object (field (Some m') "config") = true.
Proof.
  intros H Hc. unfold addCommitizen in H.
  apply bind_Ok_inv in H as (config & w1 & Hg & H). apply lift_inv in Hg as [Hg ->].
  symmetry in Hg. apply field_get in Hg. rewrite Hg in Hc.
  apply bind_Ok_inv in H as (m0 & w0 & H0 & H).
  assert (is_object (field (Some m0) "config") = true) as O0.
  { destruct (truthy config) eqn:Ht; cbn [negb orb] in *.
    - apply ret_inv in H0 as [[= ->] _]. by rewrite Hg.
    - apply lift_inv in H0 as [H0 _]. symmetry in H0.
      by rewrite (field_set_eq _ _ _ _ H0). }
  clear H0 Hg Hc config.
  apply bind_Ok_inv in H as (config & w1 & Hg & H). apply lift_inv in Hg as [Hg ->].
  symmetry in Hg. apply field_get in Hg. subst config.
  apply bind_Ok_inv in H as (cz & w1 & Hz & H). apply lift_inv in Hz as [Hz ->].
  destruct (truthy cz); cbn [negb] in H.
  - by apply ret_inv in H as [[= ->] _].
  - apply bind_Ok_inv in H as (c' & w1 & Hc' & H). apply lift_inv in Hc' as [Hc' ->].
    apply bind_Ok_inv in H as (m2 & w1 & Hm & H). apply lift_inv in Hm as [Hm ->].
    apply bind_Ok_inv in H as ([] & w1 & _ & H). apply ret_inv in H as [[= ->] _].
    symmetry in Hc', Hm.
    by rewrite (field_set_eq _ _ _ _ Hm), (set_prop_object _ _ _ _ Hc').
Qed.

Lemma patchManifest_config_object m w m' added w' :
  patchManifest m w = (Ok (m', added), w') →
  negb (truthy (field (Some m) "config")) || is_object (field (Some m) "config") = true →
  is_object (field (Some m') "config") = true.
Proof.
  intros H Hc. unfold patchManifest in H.
  apply bind_Ok_inv in H as ([m1 a] & w1 & H1 & H).
  apply bind_Ok_inv in H as (m2 & w2 & H2 & H).
  apply bind_Ok_inv in H as (m3 & w3 & H3 & H).
  apply ret_inv in H as [H _]. cbn [fst snd] in *. injection H as <- <-.
  apply addScripts_config in H1. rewrite <- H1 in Hc.
  apply (addCommitizen_object _ _ _ _ H2) in Hc.
  apply addModuleType_spec in H3 as (_ & _ & _ & -> & _). done.
Qed.

(** The values and the keys of a manifest that is written. *)
Lemma updatePackageJson_written w w' m mode :
  tree w !! "package.json" = Some (File (Json m) mode) →
  manifest_shape m = true →
  negb (truthy (field (Some m) "config")) || is_object (field (Some m) "config") = true →
  truthy (field (field (Some m) "scripts") "prepare") &&
    truthy (field (field (Some m) "scripts") "commit") = false →
  updatePackageJson w = (Ok tt, w') →
  ∃ m2 : value,
    tree w' !! "package.json" = Some (File (Json m2) mode) ∧
    (field (field (Some m2) "scripts") "prepare"
       = stringify <$>
           or_default (field (field (Some m) "scripts") "prepare") (VStr "husky") ∧
     field (field (Some m2) "scripts") "commit"
       = stringify <$>
           or_default (field (field (Some m) "scripts") "commit") (VStr "cz") ∧
     field (field (Some m2) "config") "commitizen"
       = stringify <$>
           or_default (field (field (Some m) "config") "commitizen") commitizenConfig ∧
     field (Some m2) "type"
       = stringify <$> or_default (field (Some m) "type") (VStr "module")) ∧
    (keys (Some m2)
       = add_key "type" (add_key "config" (add_key "scripts" (keys (Some m)))) ∧
     keys (field (Some m2) "scripts")
       = add_key "commit" (add_key "prepare" (keys (field (Some m) "scripts"))) ∧
     keys (field (Some m2) "config")
       = add_key "commitizen" (keys (field (Some m) "config"))).
Proof.
  intros Hm Hshape Hcfg Hunset H.
  destruct (updatePackageJson_spec _ _ _ _ Hm H) as (m' & added & logs & Hpm & Hl & Ht & Htr).
  pose proof (patchManifest_spec _ _ _ _ _ Hpm) as (K & _ & _ & _ & _ & Ha & Hset).
  pose proof (patchManifest_config_object _ _ _ _ _ Hpm Hcfg) as Oc.
  apply patchManifest_effect in Hpm as (_ & _ & _ & (Vp & Vc & Vz & Vt) & _ & (K0 & K1 & K2)).
  rewrite Hunset in Ha. cbn [negb] in Ha. subst added.
  specialize (Hset Hshape). unfold scripts_settled in Hset.
  apply andb_prop in Hset as [[[Om Os]%andb_prop _]%andb_prop _].
  assert (∀ c, is_object (field (Some m') c) = true →
               ∃ s, field (Some m') c = Some s ∧ is_object (Some s) = true ∧
                    field (Some (stringify m')) c = Some (stringify s)) as Hsub.
  { intros c Ho. destruct (field (Some m') c) as [s|] eqn:E; [|done].
    exists s. split; [done|]. split; [done|]. by rewrite field_stringify, E. }
  destruct (Hsub "scripts" Os) as (s & Es & Oss & Ess).
  destruct (Hsub "config" Oc) as (c & Ec & Occ & Ecc).
  exists (stringify m'). rewrite Ht. split_and!.
  - apply lookup_insert_eq.
  - by rewrite Ess, field_stringify, <- Es, Vp.
  - by rewrite Ess, field_stringify, <- Es, Vc.
  - by rewrite Ecc, field_stringify, <- Ec, Vz.
  - by rewrite field_stringify, Vt.
  - by rewrite keys_stringify, K0.
  - by rewrite Ess, keys_stringify, <- Es, K1.
  - by rewrite Ecc, keys_stringify, <- Ec, K2.
Qed.

(** X5. When one of the two scripts is unset in a manifest of the documented
    shape, the patch step writes the manifest, and the file then holds
    under each of the four properties what [JSON.stringify] writes of the
    value it held when that was truthy, and of the default otherwise, with
    every new key after the keys that were there. *)
Theorem updatePackageJson_written_manifest w w' m mode :
  tree w !! "package.json" = Some (File (Json m) mode) →
  manifest_shape m = true →
  negb (truthy (field (Some m) "config")) || is_object (field (Some m) "config") = true →
  truthy (field (field (Some m) "scripts") "prepare") &&
    truthy (field (field (Some m) "scripts") "commit") = false →
  updatePackageJson w = (Ok tt, w') →
  ∃ m2 : value,
    tree w' !! "package.json" = Some (File (Json m2) mode) ∧
    (field (field (Some m2) "scripts") "prepare"
       = stringify <$>
           or_default (field (field (Some m) "scripts") "prepare") (VStr "husky") ∧
     field (field (Some m2) "scripts") "commit"
       = stringify <$>
           or_default (field (field (Some m) "scripts") "commit") (VStr "cz") ∧
     field (field (Some m2) "config") "commitizen"
       = stringify <$>
           or_default (field (field (Some m) "config") "commitizen") commitizenConfig ∧
     field (Some m2) "type"
       = stringify <$> or_default (field (Some m) "type") (VStr "module")) ∧
    (keys (Some m2)
       = add_key "type" (add_key "config" (add_key "scripts" (keys (Some m)))) ∧
     keys (field (Some m2) "scripts")
       = add_key "commit" (add_key "prepare" (keys (field (Some m) "scripts"))) ∧
     keys (field (Some m2) "config")
       = add_key "commitizen" (keys (field (Some m) "config"))).
Proof. apply updatePackageJson_written. Qed.

Lemma updatePackageJson_written_manifest_witness :
  ∃ m2 : value,
    tree (updatePackageJson (World (project manifest_own) [])).2 !! "package.json"
    = Some (File (Json m2) 420%N) ∧
    (field (field (Some m2) "scripts") "prepare"
       = stringify <$>
           or_default (field (field (Some manifest_own) "scripts") "prepare")
                      (VStr "husky") ∧
     field (field (Some m2) "scripts") "commit"
       = stringify <$>
           or_default (field (field (Some manifest_own) "scripts") "commit") (VStr "cz") ∧
     field (field (Some m2) "config") "commitizen"
       = stringify <$>
           or_default (field (field (Some manifest_own) "config") "commitizen")
                      commitizenConfig ∧
     field (Some m2) "type"
       = stringify <$> or_default (field (Some manifest_own) "type") (VStr "module")) ∧
    (keys (Some m2)
       = add_key "type" (add_key "config" (add_key "scripts" (keys (Some manifest_own)))) ∧
     keys (field (Some m2) "scripts")
       = add_key "commit"
           (add_key "prepare" (keys (field (Some manifest_own) "scripts"))) ∧
     keys (field (Some m2) "config")
       = add_key "commitizen" (keys (field (Some manifest_own) "config"))).
Proof.
  apply (updatePackageJson_written_manifest
           (World (project manifest_own) [])
           (updatePackageJson (World (project manifest_own) [])).2
           manifest_own 420%N).
  - reflexivity.
  - reflexivity.
  - reflexivity.
  - reflexivity.
  - vm_compute. reflexivity.
Defined.

(** ** The overwrite policy of [copyConfigFiles] *)

Lemma for_of_Throw_inv {A} (l : list A) (body : A → M unit) w e w' :
  for_of l body w = (Throw e, w') →
  ∃ l1 x l2 w1,
    l = (l1 ++ x :: l2)%list ∧
    for_of l1 body w = (Ok tt, w1) ∧ body x w1 = (Throw e, w').
Proof.
  revert w. induction l as [|x r IH]; intros w H; [done|].
  cbn [for_of] in H. apply bind_inv in H as [(e' & H & [= ->])|([] & w1 & H0 & H)].
  - by exists [], x, r, w.
  - destruct (IH _ H) as (l1 & y & l2 & w2 & -> & H1 & H2).
    exists (x :: l1), y, l2, w2. split; [done|]. split; [|done].
    cbn [for_of]. by rewrite (bind_Ok _ _ _ _ _ H0).
Qed.

Lemma filesToCopy_not_dirs file :
  file ∈ filesToCopy → dest file ∉ [".vscode"; ".husky"].
Proof.
  intros H. apply list_elem_of_In in H. cbn in H.
  repeat (destruct H as [<-|H];
          [rewrite !not_elem_of_cons; split_and!; [done|done|apply not_elem_of_nil]|]).
  done.
Qed.

Section Policy.
Variable templates : string → option (content * N).

Lemma touches_round file :
  file ∈ filesToCopy →
  respects (touches [".vscode"; ".husky"] [dest file]) (copyConfigFile templates file).
Proof.
  intros Hin. apply touches_copyConfigFile; [by apply filesToCopy_chain|by left].
Qed.

(** A round leaves the destinations of the other entries alone. *)
Lemma round_agree file0 file w :
  file0 ∈ filesToCopy → file ∈ filesToCopy → dest file ≠ dest file0 →
  tree (copyConfigFile templates file0 w).2 !! dest file = tree w !! dest file.
Proof.
  intros H0 H Hne.
  apply (touches_outside _ _ _ _ _ (touches_round file0 H0 w)).
  - by apply filesToCopy_not_dirs.
  - by intros ?%list_elem_of_singleton.
Qed.

Lemma rounds_agree l file w :
  (∀ f, f ∈ l → f ∈ filesToCopy) → file ∈ filesToCopy → dest file ∉ dest <$> l →
  tree (for_of l (copyConfigFile templates) w).2 !! dest file = tree w !! dest file.
Proof.
  intros Hsub H Hnotin.
  apply (touches_outside _ _ _ _ _ (touches_rounds templates l Hsub w)); [|done].
  by apply filesToCopy_not_dirs.
Qed.

Lemma entry_result_agree t0 t1 file t' :
  t1 !! dest file = t0 !! dest file →
  entry_result templates t1 file t' → entry_result templates t0 file t'.
Proof. unfold entry_result. by intros ->. Qed.

Lemma entry_result_stable t0 file t t' :
  t' !! dest file = t !! dest file →
  entry_result templates t0 file t → entry_result templates t0 file t'.
Proof. unfold entry_result. by intros ->. Qed.

Lemma entry_report_agree t0 t1 file :
  t1 !! dest file = t0 !! dest file → entry_report t1 file = entry_report t0 file.
Proof. unfold entry_report. by intros ->. Qed.

Lemma round_outcome file w w' :
  file ∈ filesToCopy →
  copyConfigFile templates file w = (Ok tt, w') →
  entry_result templates (tree w) file (tree w') ∧
  ∃ evs, trace w' = (trace w ++ evs)%list ∧
         filter (λ e, is_file_report e = true) evs = [entry_report (tree w) file].
Proof.
  intros Hin H.
  apply copyConfigFile_outcome in H as ([_ Hp] & pre & Hpre & Htr);
    [|by apply filesToCopy_shallow].
  assert (filter (λ e, is_file_report e = true) pre = []) as Fpre
    by (by destruct Hpre as [-> | ->]).
  unfold entry_result, entry_report. destruct (isHook file).
  - split; [done|]. eexists. split; [exact Htr|]. by rewrite filter_app, Fpre.
  - destruct (tree w !! dest file) as [n|].
    + destruct Htr as [Hn Htr]. split; [done|].
      eexists. split; [exact Htr|]. by rewrite filter_app, Fpre.
    + destruct Htr as [Hn Htr]. split; [done|].
      eexists. split; [exact Htr|]. by rewrite filter_app, Fpre.
Qed.

(** The loop, entry by entry, against the tree it started from. *)
Lemma rounds_outcome l w w' :
  (∀ f, f ∈ l → f ∈ filesToCopy) →
  NoDup (dest <$> l) →
  for_of l (copyConfigFile templates) w = (Ok tt, w') →
  (∀ file, file ∈ l → entry_result templates (tree w) file (tree w')) ∧
  ∃ evs, trace w' = (trace w ++ evs)%list ∧
         filter (λ e, is_file_report e = true) evs = entry_report (tree w) <$> l.
Proof.
  revert w. induction l as [|file0 r IH]; intros w Hsub Hnd H.
  - apply ret_inv in H as [_ ->]. split; [by intros ? ?%elem_of_nil|].
    exists []. by rewrite app_nil_r.
  - cbn [for_of] in H. apply bind_Ok_inv in H as ([] & w1 & H0 & H).
    rewrite fmap_cons in Hnd. apply NoDup_cons in Hnd as [Hnotin Hnd].
    assert (Hsub' : ∀ f, f ∈ r → f ∈ filesToCopy)
      by (intros f Hf; apply Hsub; by right).
    assert (Hin0 : file0 ∈ filesToCopy) by (apply Hsub; by left).
    assert (Hagree : ∀ f, f ∈ r → tree w1 !! dest f = tree w !! dest f).
    { intros f Hf. pose proof (round_agree file0 f w Hin0 (Hsub' f Hf)) as E.
      rewrite H0 in E. apply E. intros Heq. apply Hnotin. rewrite <- Heq.
      by apply list_elem_of_fmap_2. }
    destruct (IH w1 Hsub' Hnd H) as (Hr & evr & Htr & Fr).
    destruct (round_outcome file0 w w1 Hin0 H0) as (R0 & ev0 & Htr0 & F0).
    split.
    + intros file [->|Hf]%elem_of_cons.
      * apply (entry_result_stable _ _ (tree w1)); [|done].
        pose proof (rounds_agree r file0 w1 Hsub' Hin0 Hnotin) as E.
        by rewrite H in E.
      * apply (entry_result_agree _ (tree w1)); [by apply Hagree|by apply Hr].
    + exists (ev0 ++ evr)%list. rewrite Htr, Htr0, <- app_assoc. split; [done|].
      rewrite filter_app, F0, Fr, fmap_cons. cbn [app]. f_equal.
      apply list_fmap_ext. intros i f Hf. apply entry_report_agree, Hagree.
      by apply list_elem_of_lookup_2 in Hf.
Qed.

(** X6. The overwrite policy.  After a successful [copyConfigFiles], each hook
    is the template with mode [0o755], whatever was there before; every
    other destination that held something still holds exactly that; and
    every other destination that held nothing is the template as it is. *)
Theorem copyConfigFiles_overwrites_only_hooks (w w' : world) :
  copyConfigFiles templates w = (Ok tt, w') →
  ∀ file, file ∈ filesToCopy →
    if String.prefix ".husky/" (dest file)
    then ∃ c m, templates (src file) = Some (c, m) ∧
                tree w' !! dest file = Some (File c 493%N) ∧
                executable 493%N = true
    else match tree w !! dest file with
         | Some n => tree w' !! dest file = Some n
         | None => ∃ c m, templates (src file) = Some (c, m) ∧
                          tree w' !! dest file = Some (File c m)
         end.
Proof.
  intros H file Hin. unfold copyConfigFiles in H.
  apply bind_Ok_inv in H as ([] & w1 & Hl & H). apply console_log_inv in Hl as [_ ->].
  apply bind_Ok_inv in H as ([] & w2 & Hr & H). apply console_log_inv in H as [_ ->].
  destruct (rounds_outcome filesToCopy _ w2 (λ _ Hf, Hf) filesToCopy_NoDup Hr) as [Hall _].
  specialize (Hall file Hin). unfold entry_result, isHook in Hall. cbn [tree] in *.
  destruct (String.prefix ".husky/" (dest file)); [|done].
  destruct Hall as (c & m & ? & ?). by exists c, m.
Qed.

(** X7. One line is logged for each entry, in the order of the list: a hook
    is reported as updated, any other entry as skipped when something was
    at its destination and as created when nothing was. *)
Theorem copyConfigFiles_reports (w w' : world) :
  copyConfigFiles templates w = (Ok tt, w') →
  ∃ evs,
    trace w' = (trace w ++ evs)%list ∧
    filter (λ e, is_file_report e = true) evs
    = (λ file,
         Log ((if String.prefix ".husky/" (dest file) then Updated
               else match tree w !! dest file with
                    | Some _ => Skipped
                    | None => Created
                    end) (dest file))) <$> filesToCopy.
Proof.
  intros H. unfold copyConfigFiles in H.
  apply bind_Ok_inv in H as ([] & w1 & Hl & H). apply console_log_inv in Hl as [_ ->].
  apply bind_Ok_inv in H as ([] & w2 & Hr & H). apply console_log_inv in H as [_ ->].
  destruct (rounds_outcome filesToCopy _ w2 (λ _ Hf, Hf) filesToCopy_NoDup Hr)
    as (_ & evs & Htr & F).
  cbn [tree trace] in *.
  exists ([Log CopyingFiles] ++ evs ++ [Log FilesCopied])%list. split.
  - rewrite Htr. by rewrite <- !app_assoc.
  - rewrite !filter_app, F.
    change (filter (λ e, is_file_report e = true) [Log CopyingFiles]) with (@nil event).
    change (filter (λ e, is_file_report e = true) [Log FilesCopied]) with (@nil event).
    by rewrite app_nil_l, app_nil_r.
Qed.

End Policy.

Lemma copyConfigFiles_overwrites_only_hooks_witness :
  (∃ c m, sample_templates ".husky/pre-push" = Some (c, m) ∧
          tree (copyConfigFiles sample_templates (World project_with_files [])).2
            !! ".husky/pre-push" = Some (File c 493%N) ∧
          executable 493%N = true) ∧
  tree (copyConfigFiles sample_templates (World project_with_files [])).2 !! ".nvmrc"
  = Some (File (Text "18") 384%N).
Proof.
  split.
  - refine (copyConfigFiles_overwrites_only_hooks sample_templates
              (World project_with_files [])
              (copyConfigFiles sample_templates (World project_with_files [])).2 _
              (Entry ".husky/pre-push" ".husky/pre-push") _).
    + vm_compute. reflexivity.
    + unfold filesToCopy. set_solver.
  - refine (copyConfigFiles_overwrites_only_hooks sample_templates
              (World project_with_files [])
              (copyConfigFiles sample_templates (World project_with_files [])).2 _
              (Entry ".nvmrc" ".nvmrc") _).
    + vm_compute. reflexivity.
    + unfold filesToCopy. set_solver.
Defined.

Lemma copyConfigFiles_reports_witness :
  ∃ evs,
    trace (copyConfigFiles sample_templates (World project_with_files [])).2
    = ([] ++ evs)%list ∧
    filter (λ e, is_file_report e = true) evs
    = (λ file,
         Log ((if String.prefix ".husky/" (dest file) then Updated
               else match project_with_files !! dest file with
                    | Some _ => Skipped
                    | None => Created
                    end) (dest file))) <$> filesToCopy.
Proof.
  apply (copyConfigFiles_reports sample_templates
           (World project_with_files [])
           (copyConfigFiles sample_templates (World project_with_files [])).2).
  vm_compute. reflexivity.
Defined.

(** ** When [copyConfigFiles] goes through, and what a failure leaves *)

Lemma ensureDir_shallow_eval d w :
  d = "." ∨ (d ≠ "." ∧ dir_chain "" d = [d]) →
  ensureDir d w
  = if String.eqb d "." then (Ok tt, w)
    else match tree w !! d with
         | Some Dir => (Ok tt, w)
         | Some (File _ _) => (Throw (EEXIST d), w)
         | None => (Ok tt, World (<[d := Dir]> (tree w)) (trace w ++ [MkDir d]))
         end.
Proof.
  intros Hd. unfold ensureDir. destruct Hd as [->|[Hne Hc]]; [done|].
  apply String.eqb_neq in Hne. rewrite Hne, Hc. cbn [for_of]. unfold bind, mkdir, ret.
  by destruct (tree w !! d) as [[|c m]|].
Qed.

Section Rounds.
Variable templates : string → option (content * N).

(** The round after its directory is there. *)
Lemma round_after_dir file w w1 :
  ensureDir (dirname (dest file)) w = (Ok tt, w1) →
  copyConfigFile templates file w
  = if isHook file then
      match templates (src file), tree w1 !! dest file with
      | None, _ => (Throw (ENOENT (src file)), w1)
      | Some _, Some Dir => (Throw (OverDirectory (dest file) (src file)), w1)
      | Some (c, m), _ =>
          (Ok tt, World (<[dest file := File c (mode_of_string "755")]> (tree w1))
                        (trace w1 ++ [ CopyFile (src file) (dest file);
                                       Chmod (dest file) (mode_of_string "755");
                                       Log (Updated (dest file)) ]))
      end
    else
      match tree w1 !! dest file, templates (src file) with
      | Some _, _ => (Ok tt, World (tree w1) (trace w1 ++ [Log (Skipped (dest file))]))
      | None, None => (Throw (ENOENT (src file)), w1)
      | None, Some (c, m) =>
          (Ok tt, World (<[dest file := File c m]> (tree w1))
                        (trace w1 ++ [ CopyFile (src file) (dest file);
                                       Log (Created (dest file)) ]))
      end.
Proof.
  intros He. unfold copyConfigFile. cbv zeta. rewrite (bind_Ok _ _ _ _ _ He).
  unfold isHook, bind, pathExists, copy, chmod, console_log, emit, ret.
  cbn [tree trace].
  destruct (String.prefix ".husky/" (dest file)).
  - rewrite andb_false_r.
    destruct (templates (src file)) as [[c m]|]; [|done].
    destruct (tree w1 !! dest file) as [[|c0 m0]|] eqn:E; cbn [tree trace];
      rewrite ?E; [done| |].
    all: cbn [tree trace]; rewrite lookup_insert_eq; cbn [tree trace].
    all: rewrite lookup_insert_eq, insert_insert_eq; cbn [andb].
    all: rewrite <- ?app_assoc; reflexivity.
  - destruct (tree w1 !! dest file) as [n|] eqn:E; cbn [andb negb tree trace]; [done|].
    destruct (templates (src file)) as [[c m]|]; [|done].
    cbn [tree trace]. rewrite E. cbn [tree trace]. rewrite <- ?app_assoc. reflexivity.
Qed.

(** A round goes through exactly on a tree that is ready for its entry. *)
Lemma round_ready file w :
  shallow file →
  (∃ w', copyConfigFile templates file w = (Ok tt, w')) ↔
  entry_ready templates (tree w) file.
Proof.
  intros [Hd Hne]. unfold entry_ready.
  pose proof (ensureDir_shallow_eval _ w Hd) as He.
  destruct (String.eqb_spec (dirname (dest file)) ".") as [Hdot|Hdot].
  { rewrite (round_after_dir _ _ _ He).
    destruct (isHook file).
    - destruct (templates (src file)) as [[c m]|];
        [destruct (tree w !! dest file) as [[|c0 m0]|]|]; split;
        try (intros [w' [=]]); try (intros [_ [[? [=]] ?]]);
        try (intros [_ [_ ?]]); try done;
        try (intros _; split; [by left|split; [eauto|done]]); eauto.
    - destruct (tree w !! dest file) as [n|];
        [|destruct (templates (src file)) as [[c m]|]]; split;
        try (intros [w' [=]]); try (intros _; split; [by left|eauto]); eauto.
      intros [_ [[? [=]]|[? [=]]]]. }
  destruct (tree w !! dirname (dest file)) as [[|c0 m0]|] eqn:Ed.
  - rewrite (round_after_dir _ _ _ He).
    assert (dirname (dest file) = "."
            ∨ (∀ c m, Some Dir ≠ Some (File c m))) as Hdir by (by right).
    destruct (isHook file).
    + destruct (templates (src file)) as [[c m]|];
        [destruct (tree w !! dest file) as [[|c1 m1]|]|]; split;
        try (intros [w' [=]]); try (intros [_ [[? [=]] ?]]);
        try (intros [_ [_ ?]]); try done;
        try (intros _; split; [done|split; [eauto|done]]); eauto.
    + destruct (tree w !! dest file) as [n|];
        [|destruct (templates (src file)) as [[c m]|]]; split;
        try (intros [w' [=]]); try (intros _; split; [done|eauto]); eauto.
      intros [_ [[? [=]]|[? [=]]]].
  - split.
    + intros [w' H]. unfold copyConfigFile in H. cbv zeta in H.
      by rewrite (bind_Throw _ _ _ _ _ He) in H.
    + intros [[?|Hf] _]; [done|]. by destruct (Hf c0 m0).
  - rewrite (round_after_dir _ _ _ He). cbn [tree trace].
    rewrite lookup_insert_ne by done.
    assert (dirname (dest file) = "."
            ∨ (∀ c m, @None node ≠ Some (File c m))) as Hdir by (by right).
    destruct (isHook file).
    + destruct (templates (src file)) as [[c m]|];
        [destruct (tree w !! dest file) as [[|c1 m1]|]|]; split;
        try (intros [w' [=]]); try (intros [_ [[? [=]] ?]]);
        try (intros [_ [_ ?]]); try done;
        try (intros _; split; [done|split; [eauto|done]]); eauto.
    + destruct (tree w !! dest file) as [n|];
        [|destruct (templates (src file)) as [[c m]|]]; split;
        try (intros [w' [=]]); try (intros _; split; [done|eauto]); eauto.
      intros [_ [[? [=]]|[? [=]]]].
Qed.

End Rounds.

Section Loop.
Variable templates : string → option (content * N).

(** Being ready for an entry is not affected by what is done to the other
    destinations and to the two directories. *)
Lemma entry_ready_touches file F w w' :
  file ∈ filesToCopy →
  touches [".vscode"; ".husky"] F w w' →
  dest file ∉ F → dirname (dest file) ∉ F →
  entry_ready templates (tree w) file ↔ entry_ready templates (tree w') file.
Proof.
  intros Hin T Hdest Hdir. unfold entry_ready.
  rewrite (touches_outside _ _ _ _ _ T (filesToCopy_not_dirs _ Hin) Hdest).
  assert ((dirname (dest file) = "."
           ∨ ∀ c m, tree w !! dirname (dest file) ≠ Some (File c m))
          ↔ (dirname (dest file) = "."
             ∨ ∀ c m, tree w' !! dirname (dest file) ≠ Some (File c m))) as Hd.
  { destruct (T (dirname (dest file))) as [E|[(_ & N & E)|(? & _)]]; [|  |done].
    - by rewrite E.
    - rewrite N, E. split; intros _; by right. }
  by rewrite Hd.
Qed.

Lemma rounds_ready l w :
  (∀ f, f ∈ l → f ∈ filesToCopy) →
  NoDup (dest <$> l) →
  (∃ w', for_of l (copyConfigFile templates) w = (Ok tt, w')) ↔
  ∀ file, file ∈ l → entry_ready templates (tree w) file.
Proof.
  revert w. induction l as [|file0 r IH]; intros w Hsub Hnd.
  { split; [by intros _ ? ?%elem_of_nil|]. intros _. by exists w. }
  rewrite fmap_cons in Hnd. apply NoDup_cons in Hnd as [Hnotin Hnd].
  assert (Hsub' : ∀ f, f ∈ r → f ∈ filesToCopy)
    by (intros f Hf; apply Hsub; by right).
  assert (Hin0 : file0 ∈ filesToCopy) by (apply Hsub; by left).
  assert (Hmove : ∀ w1 f, copyConfigFile templates file0 w = (Ok tt, w1) → f ∈ r →
            entry_ready templates (tree w) f ↔ entry_ready templates (tree w1) f).
  { intros w1 f H0 Hf.
    pose proof (touches_round templates file0 Hin0 w) as T. rewrite H0 in T.
    apply (entry_ready_touches f [dest file0]); [by apply Hsub'|done| |].
    - intros Heq%list_elem_of_singleton. apply Hnotin. rewrite <- Heq.
      by apply list_elem_of_fmap_2.
    - intros Heq%list_elem_of_singleton.
      by apply (filesToCopy_dirs f file0 (Hsub' f Hf) Hin0). }
  cbn [for_of]. split.
  - intros [w' H]. apply bind_Ok_inv in H as ([] & w1 & H0 & H).
    intros file [->|Hf]%elem_of_cons.
    + apply round_ready; [by apply filesToCopy_shallow|eauto].
    + apply (Hmove w1 file H0 Hf). apply (IH w1 Hsub' Hnd); eauto.
  - intros Hall.
    destruct (proj2 (round_ready templates file0 w (filesToCopy_shallow _ Hin0)))
      as [w1 H0]; [apply Hall; by left|].
    rewrite (bind_Ok _ _ _ _ _ H0). apply (IH w1 Hsub' Hnd).
    intros f Hf. apply (Hmove w1 f H0 Hf), Hall. by right.
Qed.

Lemma copyConfigFiles_Ok_iff (w : world) :
  (∃ w', copyConfigFiles templates w = (Ok tt, w')) ↔
  ∀ file, file ∈ filesToCopy → entry_ready templates (tree w) file.
Proof.
  rewrite <- (rounds_ready filesToCopy (World (tree w) (trace w ++ [Log CopyingFiles])))
    by (done || apply filesToCopy_NoDup).
  unfold copyConfigFiles. unfold bind at 1. unfold console_log at 1, emit. split.
  - intros [w' H]. apply bind_Ok_inv in H as ([] & w1 & H & _). eauto.
  - intros [w1 H]. rewrite (bind_Ok _ _ _ _ _ H). unfold console_log, emit. eauto.
Qed.

(** X8. [copyConfigFiles] goes through only on a tree that is ready for
    each of the eight entries: no file stands where [.vscode] or [.husky]
    is to be, each hook has its template and no directory at its
    destination, and each other entry has its template unless something is
    at its destination already. *)
Theorem copyConfigFiles_succeeds_only_if_ready (w w' : world) :
  copyConfigFiles templates w = (Ok tt, w') →
  Forall (entry_ready templates (tree w)) filesToCopy.
Proof.
  intros H. apply Forall_forall. apply copyConfigFiles_Ok_iff. eauto.
Qed.

(** X9. A failing [copyConfigFiles] is not undone: the list of entries splits
    at the entry whose round raised the error; the entries before it have
    been dealt with as in a successful run, and the destinations of those
    after it are as they were. *)
Theorem copyConfigFiles_failure_is_partial (w : world) e w' :
  copyConfigFiles templates w = (Throw e, w') →
  ∃ l1 file l2,
    filesToCopy = (l1 ++ file :: l2)%list ∧
    (∀ f, f ∈ l1 → entry_result templates (tree w) f (tree w')) ∧
    (∃ w1, copyConfigFile templates file w1 = (Throw e, w')) ∧
    Forall (λ f, tree w' !! dest f = tree w !! dest f) l2.
Proof.
  intros H. unfold copyConfigFiles in H.
  apply bind_inv in H as [(e' & H & _)|([] & w0 & Hl & H)];
    [by apply console_log_inv in H as [? _]|].
  apply console_log_inv in Hl as [_ ->].
  apply bind_inv in H as [(e' & H & [= <-])|([] & w2 & _ & H)];
    [|by apply console_log_inv in H as [? _]].
  apply for_of_Throw_inv in H as (l1 & x & l2 & w1 & Hsplit & H1 & Hx).
  exists l1, x, l2. split; [done|].
  pose proof filesToCopy_NoDup as Hnd. rewrite Hsplit, fmap_app, fmap_cons in Hnd.
  apply NoDup_app in Hnd as (Hnd1 & Hdisj & Hnd2).
  apply NoDup_cons in Hnd2 as [Hx2 Hnd2].
  assert (Hsub1 : ∀ f, f ∈ l1 → f ∈ filesToCopy)
    by (intros f Hf; rewrite Hsplit; apply elem_of_app; by left).
  assert (Hinx : x ∈ filesToCopy)
    by (rewrite Hsplit; apply elem_of_app; right; by left).
  assert (Hsub2 : ∀ f, f ∈ l2 → f ∈ filesToCopy)
    by (intros f Hf; rewrite Hsplit; apply elem_of_app; right; by right).
  assert (Hx1 : ∀ f, f ∈ l1 → dest f ≠ dest x).
  { intros f Hf Heq. apply (Hdisj (dest f)); [by apply list_elem_of_fmap_2|].
    rewrite Heq. by left. }
  assert (H12 : ∀ f, f ∈ l2 → dest f ∉ dest <$> l1).
  { intros f Hf Hin. apply (Hdisj (dest f)); [done|].
    right. by apply list_elem_of_fmap_2. }
  assert (Hx1' : dest x ∉ dest <$> l1).
  { intros Hin. apply (Hdisj (dest x)); [done|by left]. }
  destruct (rounds_outcome templates l1 _ w1 Hsub1 Hnd1 H1) as [Hres _].
  cbn [tree] in Hres.
  assert (Hagree1 : ∀ f, f ∈ filesToCopy → dest f ∉ dest <$> l1 →
                         tree w1 !! dest f = tree w !! dest f).
  { intros f Hf Hnotin. pose proof (rounds_agree templates l1 f
      (World (tree w) (trace w ++ [Log CopyingFiles])) Hsub1 Hf Hnotin) as E.
    by rewrite H1 in E. }
  assert (Hagreex : ∀ f, f ∈ filesToCopy → dest f ≠ dest x →
                         tree w' !! dest f = tree w1 !! dest f).
  { intros f Hf Hne. pose proof (round_agree templates x f w1 Hinx Hf Hne) as E.
    by rewrite Hx in E. }
  split_and!.
  - intros f Hf. apply (entry_result_stable _ _ _ (tree w1)); [|by apply Hres].
    apply Hagreex; [by apply Hsub1|by apply Hx1].
  - by exists w1.
  - apply Forall_forall. intros f Hf.
    rewrite Hagreex; [|by apply Hsub2|].
    + apply Hagree1; [by apply Hsub2|by apply H12].
    + intros Heq. apply Hx2. rewrite <- Heq. by apply list_elem_of_fmap_2.
Qed.

End Loop.

Lemma copyConfigFiles_succeeds_only_if_ready_witness :
  Forall (entry_ready sample_templates (project manifest_x)) filesToCopy.
Proof.
  apply (copyConfigFiles_succeeds_only_if_ready sample_templates
           (World (project manifest_x) [])
           (copyConfigFiles sample_templates (World (project manifest_x) [])).2).
  vm_compute. reflexivity.
Defined.

Lemma copyConfigFiles_failure_is_partial_witness :
  ∃ l1 file l2,
    filesToCopy = (l1 ++ file :: l2)%list ∧
    (∀ f, f ∈ l1 →
       entry_result templates_without_nvmrc (project manifest_x) f
         (tree (copyConfigFiles templates_without_nvmrc
                  (World (project manifest_x) [])).2)) ∧
    (∃ w1, copyConfigFile templates_without_nvmrc file w1
           = (Throw (ENOENT ".nvmrc"),
              (copyConfigFiles templates_without_nvmrc
                 (World (project manifest_x) [])).2)) ∧
    Forall (λ f, tree (copyConfigFiles templates_without_nvmrc
                         (World (project manifest_x) [])).2 !! dest f
                 = project manifest_x !! dest f) l2.
Proof.
  apply (copyConfigFiles_failure_is_partial templates_without_nvmrc
           (World (project manifest_x) []) (ENOENT ".nvmrc")
           (copyConfigFiles templates_without_nvmrc (World (project manifest_x) [])).2).
  vm_compute. reflexivity.
Defined.

(** ** What a run appends to the trace *)

Global Instance emits_preorder P : PreOrder (emits P).
Proof.
  split.
  - intros w. exists []. by rewrite app_nil_r.
  - intros w1 w2 w3 (e1 & E1 & L1) (e2 & E2 & L2). exists (e1 ++ e2)%list.
    rewrite E2, E1, <- app_assoc. split; [done|]. by rewrite forallb_app, L1, L2.
Qed.

Section Emits.
Variable P : event → bool.

Lemma emits_quiet {A} (m : M A) :
  (∀ w, trace (m w).2 = trace w) → respects (emits P) m.
Proof. intros H w. exists []. by rewrite H, app_nil_r. Qed.

Lemma emits_emit e : P e = true → respects (emits P) (emit e).
Proof. intros He w. exists [e]. split; [done|]. cbn. by rewrite He. Qed.

Lemma emits_console_log r : P (Log r) = true → respects (emits P) (console_log r).
Proof. apply emits_emit. Qed.

Lemma emits_execSync sh cmd :
  P (Exec cmd) = true → respects (emits P) (execSync sh cmd).
Proof. intros He w. exists [Exec cmd]. split; [done|]. cbn. by rewrite He. Qed.

Lemma emits_pathExists p : respects (emits P) (pathExists p).
Proof. by apply emits_quiet. Qed.

Lemma emits_mkdir d : P (MkDir d) = true → respects (emits P) (mkdir d).
Proof.
  intros He w. unfold mkdir. destruct (tree w !! d) as [[|c m]|]; cbn [snd trace].
  1,2: exists []; by rewrite app_nil_r.
  exists [MkDir d]. split; [done|]. cbn. by rewrite He.
Qed.

Lemma emits_ensureDir d :
  (∀ x, P (MkDir x) = true) → respects (emits P) (ensureDir d).
Proof.
  intros He. unfold ensureDir. destruct (String.eqb d ".").
  - apply (respects_ret (emits P)).
  - apply (respects_for_of (emits P)). apply Forall_forall. intros x _.
    by apply emits_mkdir.
Qed.

Lemma emits_copy templates s d :
  P (CopyFile s d) = true → respects (emits P) (copy templates s d).
Proof.
  intros He w. unfold copy. destruct (templates s) as [[c m]|]; cbn [snd trace].
  2: exists []; by rewrite app_nil_r.
  destruct (tree w !! d) as [[|c0 m0]|]; cbn [snd trace].
  1: exists []; by rewrite app_nil_r.
  all: exists [CopyFile s d]; split; [done|]; cbn; by rewrite He.
Qed.

Lemma emits_chmod p mode :
  P (Chmod p (mode_of_string mode)) = true → respects (emits P) (chmod p mode).
Proof.
  intros He w. unfold chmod. destruct (tree w !! p) as [[|c0 m0]|]; cbn [snd trace].
  3: exists []; by rewrite app_nil_r.
  all: exists [Chmod p (mode_of_string mode)]; split; [done|]; cbn; by rewrite He.
Qed.

Hypothesis HLog : ∀ r, P (Log r) = true.

Lemma emits_copyConfigFile templates file :
  (∀ d, P (MkDir d) = true) →
  (∀ s d, P (CopyFile s d) = true) →
  (∀ p m, P (Chmod p m) = true) →
  respects (emits P) (copyConfigFile templates file).
Proof.
  intros Hm Hc Hx. unfold copyConfigFile. cbv zeta.
  apply (respects_bind (emits P)); [by apply emits_ensureDir|intros _].
  apply (respects_bind (emits P)); [apply emits_pathExists|intros present].
  apply (respects_if (emits P)); [by apply emits_console_log|].
  apply (respects_bind (emits P)); [by apply emits_copy|intros _].
  apply (respects_bind (emits P)); [|intros _].
  { apply (respects_if (emits P)); [by apply emits_chmod|].
    apply (respects_ret (emits P)). }
  apply (respects_bind (emits P)); [|intros ?; by apply emits_console_log].
  apply (respects_if (emits P)); [apply emits_pathExists|].
  apply (respects_ret (emits P)).
Qed.

Lemma emits_copyConfigFiles templates :
  (∀ d, P (MkDir d) = true) →
  (∀ s d, P (CopyFile s d) = true) →
  (∀ p m, P (Chmod p m) = true) →
  respects (emits P) (copyConfigFiles templates).
Proof.
  intros Hm Hc Hx. unfold copyConfigFiles.
  apply (respects_bind (emits P)); [by apply emits_console_log|intros _].
  apply (respects_bind (emits P)); [|intros _; by apply emits_console_log].
  apply (respects_for_of (emits P)). apply Forall_forall. intros file _.
  by apply emits_copyConfigFile.
Qed.

Lemma emits_checkPrerequisites sh :
  (∀ c, P (Exec c) = true) → respects (emits P) (checkPrerequisites sh).
Proof.
  intros He. unfold checkPrerequisites.
  apply (respects_bind (emits P)); [by apply emits_console_log|intros _].
  apply (respects_bind (emits P)); [|intros _].
  { apply (respects_try_catch (emits P)); [by apply emits_execSync|].
    intros _. apply (respects_throw (emits P)). }
  apply (respects_bind (emits P)); [apply emits_pathExists|intros present].
  apply (respects_bind (emits P)); [|intros _; by apply emits_console_log].
  apply (respects_if (emits P));
    [apply (respects_throw (emits P))|apply (respects_ret (emits P))].
Qed.

Lemma emits_installDependencies sh :
  (∀ c, P (Exec c) = true) → respects (emits P) (installDependencies sh).
Proof.
  intros He. unfold installDependencies.
  apply (respects_bind (emits P)); [by apply emits_console_log|intros _].
  apply (respects_try_catch (emits P)); [|intros e; apply (respects_throw (emits P))].
  apply (respects_bind (emits P)); [|intros pm].
  { apply emits_quiet. intros w. by rewrite detectPackageManager_eval. }
  apply (respects_bind (emits P)); [by apply emits_execSync|intros _].
  by apply emits_console_log.
Qed.

Lemma emits_initializeHusky sh :
  (∀ c, P (Exec c) = true) → respects (emits P) (initializeHusky sh).
Proof.
  intros He. unfold initializeHusky.
  apply (respects_bind (emits P)); [by apply emits_console_log|intros _].
  apply (respects_try_catch (emits P)); [|intros e; by apply emits_console_log].
  apply (respects_bind (emits P)); [by apply emits_execSync|intros _].
  by apply emits_console_log.
Qed.

Lemma emits_writeJson p v :
  P (WriteJson p (stringify v)) = true → respects (emits P) (writeJson p v).
Proof.
  intros He w. unfold writeJson.
  destruct (tree w !! p) as [[|c0 m0]|]; [|destruct (writable m0)|]; cbn [snd trace].
  1,3: exists []; by rewrite app_nil_r.
  all: exists [WriteJson p (stringify v)]; split; [done|]; cbn; by rewrite He.
Qed.

Lemma emits_only_logs w w' : only_logs w w' → emits P w w'.
Proof.
  intros [_ (evs & E & L)]. exists evs. split; [done|].
  apply forallb_forall. intros e He.
  rewrite forallb_forall in L. specialize (L e He).
  destruct e as [r| | | | | |]; first [done|apply HLog].
Qed.

Lemma emits_updatePackageJson :
  (∀ p v, P (WriteJson p v) = true) → respects (emits P) updatePackageJson.
Proof.
  intros Hw. unfold updatePackageJson.
  apply (respects_bind (emits P)); [by apply emits_console_log|intros _].
  apply (respects_bind (emits P)); [|intros m].
  { apply emits_quiet. intros w. unfold readJson.
    by destruct (tree w !! "package.json") as [[|[v|s] mode]|]. }
  apply (respects_bind (emits P)); [|intros st].
  { intros w. apply emits_only_logs, only_logs_patchManifest. }
  apply (respects_bind (emits P)); [|intros write].
  { intros w. apply emits_only_logs, only_logs_needsWrite. }
  apply (respects_bind (emits P)); [|intros _; by apply emits_console_log].
  apply (respects_if (emits P)); [by apply emits_writeJson|].
  apply (respects_ret (emits P)).
Qed.

Lemma emits_steps sh templates :
  (∀ c, P (Exec c) = true) →
  (∀ d, P (MkDir d) = true) →
  (∀ s d, P (CopyFile s d) = true) →
  (∀ p m, P (Chmod p m) = true) →
  (∀ p v, P (WriteJson p v) = true) →
  respects (emits P) (steps sh templates).
Proof.
  intros He Hm Hc Hx Hw. unfold steps.
  apply (respects_bind (emits P)); [by apply emits_checkPrerequisites|intros _].
  apply (respects_bind (emits P)); [by apply emits_installDependencies|intros _].
  apply (respects_bind (emits P)); [by apply emits_initializeHusky|intros _].
  apply (respects_bind (emits P)); [by apply emits_copyConfigFiles|intros _].
  apply (respects_bind (emits P)); [by apply emits_updatePackageJson|intros _].
  by apply emits_console_log.
Qed.

End Emits.

Lemma filter_none {A} (Q : A → bool) (l : list A) :
  forallb (λ x, negb (Q x)) l = true → filter (λ x, Q x = true) l = [].
Proof.
  induction l as [|x r IH]; [done|]. cbn [forallb].
  intros [Hx Hr]%andb_prop. rewrite filter_cons, (IH Hr).
  apply negb_true_iff in Hx. by rewrite decide_False by congruence.
Qed.

(** ** The exit code and the error report *)

(** X10. A run ends with exit code 0 or 1.  With 0 the last line it prints is
    the summary, and it reports no error; with 1 the last thing it prints
    is the report of the error, the only one it reports. *)
Theorem run_exit_code sh templates (w : world) :
  ∃ evs,
    trace (run sh templates w).2 = (trace w ++ evs)%list ∧
    ((run sh templates w).1 = 0 ∧
     last evs = Some (Log SetupComplete) ∧
     filter (λ e, is_error_report e = true) evs = []
     ∨
     (run sh templates w).1 = 1 ∧
     ∃ e, last evs = Some (LogError e) ∧
          filter (λ e, is_error_report e = true) evs = [LogError e]).
Proof.
  set (P := λ e, negb (is_error_report e)).
  destruct (emits_steps P (λ _, eq_refl) sh templates
              (λ _, eq_refl) (λ _, eq_refl) (λ _ _, eq_refl) (λ _ _, eq_refl)
              (λ _ _, eq_refl) (World (tree w) (trace w ++ [Log SettingUp])))
    as (evs & Htr & Hall).
  cbn [trace] in Htr. apply filter_none in Hall.
  rewrite run_unfold.
  destruct (steps sh templates _) as [[[]|e] w'] eqn:H; cbn [fst snd trace] in *.
  - exists ([Log SettingUp] ++ evs)%list. split; [by rewrite Htr, <- app_assoc|].
    left. split; [done|]. split.
    + unfold steps in H.
      apply bind_Ok_inv in H as ([] & wa & _ & H).
      apply bind_Ok_inv in H as ([] & wb & _ & H).
      apply bind_Ok_inv in H as ([] & wc & _ & H).
      apply bind_Ok_inv in H as ([] & wd & _ & H).
      apply bind_Ok_inv in H as ([] & we & _ & H).
      apply console_log_inv in H as [_ ->]. cbn [trace] in Htr.
      assert (∃ evs', evs = (evs' ++ [Log SetupComplete])%list) as [evs' ->].
      { destruct evs as [|x r _] using rev_ind.
        - rewrite app_nil_r in Htr. by apply app_inj_tail in Htr as [_ [=]].
        - rewrite !app_assoc in Htr. apply app_inj_tail in Htr as [_ <-]. eauto. }
      rewrite app_assoc. apply last_snoc.
    + by rewrite filter_app, Hall.
  - exists ([Log SettingUp] ++ evs ++ [LogError e])%list.
    split; [by rewrite Htr, <- !app_assoc|].
    right. split; [done|]. exists e. split.
    + rewrite !app_assoc. apply last_snoc.
    + by rewrite !filter_app, Hall.
Qed.

(** ** The order of the actions of a run *)

Lemma forallb_impl {A} (P Q : A → bool) (l : list A) :
  (∀ x, P x = true → Q x = true) → forallb P l = true → forallb Q l = true.
Proof.
  intros H. rewrite !forallb_forall. intros HP x Hx. by apply H, HP.
Qed.

Lemma patch_logs_no_action logs :
  forallb is_patch_log logs = true → filter (λ e, is_action e = true) logs = [].
Proof.
  intros H. apply filter_none. revert H. apply forallb_impl.
  by intros [[]| | | | | |].
Qed.

Lemma copy_actions evs :
  forallb (λ e, negb (is_action e) || is_copy_effect e) evs = true →
  forallb is_copy_effect (filter (λ e, is_action e = true) evs) = true.
Proof.
  induction evs as [|e r IH]; [done|]. cbn [forallb].
  intros [He Hr]%andb_prop. rewrite filter_cons.
  destruct (decide (is_action e = true)) as [Ha|Ha]; [|by apply IH].
  cbn [forallb]. rewrite Ha in He. cbn [negb orb] in He. by rewrite He, IH.
Qed.

(** The patch step writes the manifest at most once, and does nothing
    else to its environment. *)
Lemma updatePackageJson_actions w :
  ∃ evs,
    trace (updatePackageJson w).2 = (trace w ++ evs)%list ∧
    (filter (λ e, is_action e = true) evs = [] ∨
     ∃ v, filter (λ e, is_action e = true) evs = [WriteJson "package.json" v]).
Proof.
  destruct (updatePackageJson w) as [[[]|e] w'] eqn:H; cbn [snd].
  - destruct (updatePackageJson_reads _ _ H) as (m & mode & Hm).
    destruct (updatePackageJson_spec _ _ _ _ Hm H) as (m' & added & logs & _ & Hl & _ & Htr).
    apply patch_logs_no_action in Hl.
    eexists. split; [exact Htr|]. rewrite !filter_app, Hl.
    destruct added; [right; by eexists|by left].
  - apply updatePackageJson_Throw in H as (_ & (evs & Htr & Hl) & _).
    exists evs. split; [done|]. left. by apply patch_logs_no_action.
Qed.

Section Actions.
Variable sh : string → gmap string node → bool * gmap string node.
Variable templates : string → option (content * N).

(** From the materialization on: directories, copies and modes first,
    then at most one write of the manifest. *)
Lemma materialize_and_patch_actions w :
  ∃ evs copies writes,
    trace ((copyConfigFiles templates ;;; updatePackageJson ;;; showSuccess) w).2
    = (trace w ++ evs)%list ∧
    forallb is_copy_effect copies = true ∧
    (writes = [] ∨ ∃ v, writes = [WriteJson "package.json" v]) ∧
    filter (λ e, is_action e = true) evs = (copies ++ writes)%list.
Proof.
  destruct (emits_copyConfigFiles (λ e, negb (is_action e) || is_copy_effect e)
              (λ _, eq_refl) templates (λ _, eq_refl) (λ _ _, eq_refl) (λ _ _, eq_refl) w)
    as (evs1 & Htr1 & Hall1).
  apply copy_actions in Hall1.
  destruct (copyConfigFiles templates w) as [[[]|e] w1] eqn:H1; cbn [snd] in Htr1.
  2:{ rewrite (bind_Throw _ _ _ _ _ H1). cbn [snd].
      exists evs1, (filter (λ e, is_action e = true) evs1), [].
      rewrite app_nil_r. split_and!; [done|done|by left|done]. }
  rewrite (bind_Ok _ _ _ _ _ H1).
  destruct (updatePackageJson_actions w1) as (evs2 & Htr2 & Hw).
  assert (∃ writes, filter (λ e, is_action e = true) evs2 = writes ∧
                    (writes = [] ∨ ∃ v, writes = [WriteJson "package.json" v]))
    as (writes & F2 & Hwrites) by eauto.
  destruct (updatePackageJson w1) as [[[]|e] w2] eqn:H2; cbn [snd] in Htr2.
  2:{ rewrite (bind_Throw _ _ _ _ _ H2). cbn [snd].
      exists (evs1 ++ evs2)%list, (filter (λ e, is_action e = true) evs1), writes.
      rewrite Htr2, Htr1, <- app_assoc, filter_app, F2. by split_and!. }
  rewrite (bind_Ok _ _ _ _ _ H2). unfold showSuccess, console_log, emit. cbn [snd trace].
  exists (evs1 ++ evs2 ++ [Log SetupComplete])%list,
    (filter (λ e, is_action e = true) evs1), writes.
  rewrite Htr2, Htr1, <- !app_assoc, !filter_app, F2.
  split_and!; [done|done|done|].
  change (filter (λ e, is_action e = true) [Log SetupComplete]) with (@nil event).
  by rewrite app_nil_r.
Qed.

(** X11. A run acts on its environment in one order: the repository probe;
    then, when the probe succeeded and [package.json] exists, the
    installation; then, when that succeeded, the hook initialisation, the
    directories, copies and modes of the materialization, and last at most
    one write of the manifest. *)
Theorem run_actions_in_order (w : world) :
  let probe := sh "git rev-parse --git-dir" (tree w) in
  let cmd := installCmd match probe.2 !! "pnpm-lock.yaml" with
                        | Some _ => "pnpm"
                        | None => match probe.2 !! "yarn.lock" with
                                  | Some _ => "yarn"
                                  | None => "npm"
                                  end
                        end in
  let install := sh cmd probe.2 in
  ∃ evs copies writes,
    trace (run sh templates w).2 = (trace w ++ evs)%list ∧
    forallb is_copy_effect copies = true ∧
    (writes = [] ∨ ∃ v, writes = [WriteJson "package.json" v]) ∧
    filter (λ e, is_action e = true) evs
    = Exec "git rev-parse --git-dir" ::
      (if probe.1 then
         match probe.2 !! "package.json" with
         | Some _ =>
             Exec cmd ::
             (if install.1
              then (Exec "npx husky init" :: copies ++ writes)%list
              else [])
         | None => []
         end
       else []).
Proof.
  cbv zeta. rewrite run_unfold. unfold steps.
  pose proof (checkPrerequisites_eval sh (World (tree w) (trace w ++ [Log SettingUp])))
    as Hc. cbv zeta in Hc. cbn [tree trace] in Hc.
  destruct (sh "git rev-parse --git-dir" (tree w)) as [[] t] eqn:Eg; cbn [fst snd] in *.
  2:{ rewrite (bind_Throw _ _ _ _ _ Hc). cbn [snd tree trace].
      eexists _, [], []. split; [by rewrite <- !app_assoc|]. by split_and!; [|left|]. }
  destruct (t !! "package.json") as [n|] eqn:Em.
  2:{ rewrite (bind_Throw _ _ _ _ _ Hc). cbn [snd tree trace].
      eexists _, [], []. split; [by rewrite <- !app_assoc|]. by split_and!; [|left|]. }
  rewrite (bind_Ok _ _ _ _ _ Hc). clear Hc.
  match goal with |- context [bind (installDependencies sh) _ ?w1] =>
    pose proof (installDependencies_eval sh w1) as Hi end.
  cbv zeta in Hi. cbn [tree trace] in Hi.
  destruct (sh (installCmd _) t) as [[] t1] eqn:Ei; cbn [fst snd] in *.
  2:{ rewrite (bind_Throw _ _ _ _ _ Hi). cbn [snd tree trace].
      eexists _, [], []. split; [by rewrite <- !app_assoc|]. by split_and!; [|left|]. }
  rewrite (bind_Ok _ _ _ _ _ Hi). clear Hi.
  match goal with |- context [bind (initializeHusky sh) _ ?w2] =>
    pose proof (initializeHusky_eval sh w2) as Hh end.
  cbv zeta in Hh. cbn [tree trace] in Hh.
  rewrite (bind_Ok _ _ _ _ _ Hh). clear Hh.
  match goal with |- context [bind (copyConfigFiles templates) ?k ?w3] =>
    destruct (materialize_and_patch_actions w3) as (evs & copies & writes & Htr & Hc & Hw & F);
    destruct (bind (copyConfigFiles templates) k w3) as [[[]|e] w'] eqn:H
  end; cbn [snd trace] in *.
  - eexists _, copies, writes. rewrite Htr. split; [by rewrite <- !app_assoc|].
    split; [done|]. split; [done|].
    rewrite !filter_app, F. by destruct (sh "npx husky init" t1) as [[] ?].
  - eexists _, copies, writes. rewrite Htr. split; [by rewrite <- !app_assoc|].
    split; [done|]. split; [done|].
    rewrite !filter_app, F.
    change (filter (λ e, is_action e = true) [LogError e]) with (@nil event).
    rewrite app_nil_r. by destruct (sh "npx husky init" t1) as [[] ?].
Qed.

End Actions.

(** ** The paths a run leaves alone *)

Global Instance leaves_paths_preorder ps : PreOrder (leaves_paths ps).
Proof.
  split.
  - by intros w p _.
  - intros w1 w2 w3 H12 H23 p Hp. by rewrite H23, H12.
Qed.

Lemma updatePackageJson_tree w p :
  p ≠ "package.json" → tree (updatePackageJson w).2 !! p = tree w !! p.
Proof.
  intros Hp. destruct (updatePackageJson w) as [[[]|e] w'] eqn:H; cbn [snd].
  - destruct (updatePackageJson_reads _ _ H) as (m & mode & Hm).
    destruct (updatePackageJson_spec _ _ _ _ Hm H) as (m' & added & logs & _ & _ & Ht & _).
    rewrite Ht. destruct added; [|done]. by rewrite lookup_insert_ne.
  - apply updatePackageJson_Throw in H as (Ht & _). by rewrite Ht.
Qed.

Section Leaves.
Variable sh : string → gmap string node → bool * gmap string node.
Variable templates : string → option (content * N).
Variable ps : list string.
Hypothesis Hsh : sh_leaves sh ps.

Lemma leaves_pure {A} (m : M A) :
  (∀ w, tree (m w).2 = tree w) → respects (leaves_paths ps) m.
Proof. intros H w p _. by rewrite H. Qed.

Lemma leaves_console_log r : respects (leaves_paths ps) (console_log r).
Proof. by apply leaves_pure. Qed.

Lemma leaves_checkPrerequisites : respects (leaves_paths ps) (checkPrerequisites sh).
Proof.
  intros w p Hp. rewrite checkPrerequisites_eval. cbv zeta.
  destruct (sh _ _) as [[] t] eqn:E; cbn [fst snd].
  - destruct (t !! "package.json"); cbn [snd tree];
      by rewrite <- (Hsh "git rev-parse --git-dir" (tree w) p Hp), E.
  - by rewrite <- (Hsh "git rev-parse --git-dir" (tree w) p Hp), E.
Qed.

Lemma leaves_installDependencies : respects (leaves_paths ps) (installDependencies sh).
Proof.
  intros w p Hp. rewrite installDependencies_eval. cbv zeta.
  destruct (sh _ _) as [[] t] eqn:E; cbn [fst snd tree].
  all: match type of E with sh ?c _ = _ => by rewrite <- (Hsh c (tree w) p Hp), E end.
Qed.

Lemma leaves_initializeHusky : respects (leaves_paths ps) (initializeHusky sh).
Proof.
  intros w p Hp. rewrite initializeHusky_eval. cbv zeta. cbn [snd tree].
  by apply Hsh.
Qed.

Lemma leaves_copyConfigFiles :
  (∀ p, p ∈ ps → p ∉ materialized) →
  respects (leaves_paths ps) (copyConfigFiles templates).
Proof. intros Hps w p Hp. by apply copyConfigFiles_outside, Hps. Qed.

Lemma leaves_updatePackageJson :
  "package.json" ∉ ps → respects (leaves_paths ps) updatePackageJson.
Proof.
  intros Hps w p Hp. apply updatePackageJson_tree. intros ->. done.
Qed.

(** The four steps before the manifest patch. *)
Lemma leaves_materialized :
  (∀ p, p ∈ ps → p ∉ materialized) →
  respects (leaves_paths ps)
    (checkPrerequisites sh ;;; installDependencies sh ;;; initializeHusky sh ;;;
     copyConfigFiles templates).
Proof.
  intros Hps.
  apply (respects_bind (leaves_paths ps)); [apply leaves_checkPrerequisites|intros _].
  apply (respects_bind (leaves_paths ps)); [apply leaves_installDependencies|intros _].
  apply (respects_bind (leaves_paths ps)); [apply leaves_initializeHusky|intros _].
  by apply leaves_copyConfigFiles.
Qed.

Lemma steps_assoc w :
  steps sh templates w
  = bind (checkPrerequisites sh ;;; installDependencies sh ;;; initializeHusky sh ;;;
          copyConfigFiles templates)
         (λ _, updatePackageJson ;;; showSuccess) w.
Proof.
  unfold steps, bind.
  destruct (checkPrerequisites sh w) as [[[]|e] w1]; [|done].
  destruct (installDependencies sh w1) as [[[]|e] w2]; [|done].
  by destruct (initializeHusky sh w2) as [[[]|e] w3].
Qed.

Lemma leaves_steps :
  (∀ p, p ∈ ps → p ∉ tracked) → respects (leaves_paths ps) (steps sh templates).
Proof.
  intros Hps w. rewrite steps_assoc. revert w.
  assert (∀ p, p ∈ ps → p ∉ materialized) as Hmat
    by (intros p Hp Hin; apply (Hps p Hp); by right).
  assert ("package.json" ∉ ps) as Hpj by (intros Hin; apply (Hps _ Hin); by left).
  apply (respects_bind (leaves_paths ps)); [by apply leaves_materialized|intros _].
  apply (respects_bind (leaves_paths ps)); [by apply leaves_updatePackageJson|intros _].
  apply leaves_console_log.
Qed.

End Leaves.

(** X12. A run changes the tree at the manifest, at [.vscode] and [.husky] and
    at the eight destinations, and nowhere else: any other path that the
    delegated commands leave alone is after the run, whether it succeeded
    or not, what it was before. *)
Theorem run_frame sh templates ps (w : world) :
  sh_leaves sh ps →
  (∀ p, p ∈ ps → p ∉ tracked) →
  ∀ p, p ∈ ps → tree (run sh templates w).2 !! p = tree w !! p.
Proof.
  intros Hsh Hps p Hp. rewrite run_unfold.
  pose proof (leaves_steps sh templates ps Hsh Hps
                (World (tree w) (trace w ++ [Log SettingUp])) p Hp) as H.
  by destruct (steps sh templates _) as [[[]|e] w'].
Qed.

Lemma run_frame_witness :
  tree (run sh_ok sample_templates (World project_with_readme [])).2 !! "README.md"
  = project_with_readme !! "README.md".
Proof.
  apply (run_frame sh_ok sample_templates ["README.md"] (World project_with_readme [])).
  - intros cmd t p _. reflexivity.
  - intros p ->%list_elem_of_singleton. unfold tracked, materialized. cbn.
    rewrite !not_elem_of_cons. split_and!; try done. apply not_elem_of_nil.
  - by left.
Defined.

(** X13. A run whose patch step cannot read the manifest is not undone:
    when the four steps before it went through, the run ends with exit
    code 1, reports the error of the read as its last line, and leaves the
    tree as the materialization left it, with the eight entries in it. *)
Theorem run_on_unreadable_manifest sh templates (w wd : world) e :
  (checkPrerequisites sh ;;; installDependencies sh ;;; initializeHusky sh ;;;
   copyConfigFiles templates) (World (tree w) (trace w ++ [Log SettingUp]))
  = (Ok tt, wd) →
  readJson "package.json" wd = (Throw e, wd) →
  run sh templates w
  = (1, World (tree wd) (trace wd ++ [ Log UpdatingPackageJson; LogError e ])) ∧
  Forall (λ file, entry_present templates file (tree wd)) filesToCopy.
Proof.
  intros H Hr. split.
  - rewrite run_unfold, steps_assoc, (bind_Ok _ _ _ _ _ H).
    assert (updatePackageJson wd
            = (Throw e, World (tree wd) (trace wd ++ [Log UpdatingPackageJson]))) as Hu.
    { unfold updatePackageJson, bind, console_log, emit.
      unfold readJson in Hr |- *. cbn [tree].
      destruct (tree wd !! "package.json") as [[|[v|s] mode]|]; by simplify_eq. }
    rewrite (bind_Throw _ _ _ _ _ Hu). cbn [tree trace]. by rewrite <- app_assoc.
  - apply Forall_forall.
    apply bind_Ok_inv in H as ([] & wa & _ & H).
    apply bind_Ok_inv in H as ([] & wb & _ & H).
    apply bind_Ok_inv in H as ([] & wc & _ & H).
    by apply (copyConfigFiles_settles templates wc).
Qed.

Lemma run_on_unreadable_manifest_witness :
  run sh_ok sample_templates (World project_unparseable [])
  = (1, World (tree ((checkPrerequisites sh_ok ;;; installDependencies sh_ok ;;;
                      initializeHusky sh_ok ;;; copyConfigFiles sample_templates)
                       (World project_unparseable [Log SettingUp])).2)
              (trace ((checkPrerequisites sh_ok ;;; installDependencies sh_ok ;;;
                       initializeHusky sh_ok ;;; copyConfigFiles sample_templates)
                        (World project_unparseable [Log SettingUp])).2
               ++ [ Log UpdatingPackageJson; LogError (ParseError "package.json") ])) ∧
  Forall (λ file,
            entry_present sample_templates file
              (tree ((checkPrerequisites sh_ok ;;; installDependencies sh_ok ;;;
                      initializeHusky sh_ok ;;; copyConfigFiles sample_templates)
                       (World project_unparseable [Log SettingUp])).2))
         filesToCopy.
Proof.
  apply (run_on_unreadable_manifest sh_ok sample_templates
           (World project_unparseable [])
           ((checkPrerequisites sh_ok ;;; installDependencies sh_ok ;;;
             initializeHusky sh_ok ;;; copyConfigFiles sample_templates)
              (World project_unparseable [Log SettingUp])).2
           (ParseError "package.json")).
  - vm_compute. reflexivity.
  - vm_compute. reflexivity.
Defined.

(** ** When a run succeeds *)

Section Success.
Variable sh : string → gmap string node → bool * gmap string node.
Variable templates : string → option (content * N).

(** From the materialization on, the run goes through only when the
    tree is ready for the eight entries and the manifest holds a document
    the patch can be applied to. *)
Lemma materialize_and_patch_Ok w w' :
  (copyConfigFiles templates ;;; updatePackageJson ;;; showSuccess) w = (Ok tt, w') →
  Forall (entry_ready templates (tree w)) filesToCopy ∧
  ∃ m mode, tree w !! "package.json" = Some (File (Json m) mode) ∧ patchable m = true.
Proof.
  intros H.
  apply bind_Ok_inv in H as ([] & w1 & H1 & H).
  apply bind_Ok_inv in H as ([] & w2 & H2 & _).
  split; [apply Forall_forall, copyConfigFiles_Ok_iff; eauto|].
  destruct (updatePackageJson_Ok_patchable _ _ H2) as (m & mode & Hm & Hp).
  exists m, mode. split; [|done].
  pose proof (copyConfigFiles_outside templates w "package.json"
                materialized_not_manifest) as E.
  rewrite H1 in E. cbn [snd] in E. by rewrite <- E.
Qed.

(** X14. A run ends with exit code 0 only when: the repository probe
    succeeds and leaves a [package.json]; the installation succeeds; and,
    in the tree the hook initialisation leaves, whether it succeeded or
    not, the eight entries can be materialized and the manifest is a JSON
    document the patch can be applied to. *)
Theorem run_succeeds_only_if (w : world) :
  (run sh templates w).1 = 0 →
  let probe := sh "git rev-parse --git-dir" (tree w) in
  let cmd := installCmd match probe.2 !! "pnpm-lock.yaml" with
                        | Some _ => "pnpm"
                        | None => match probe.2 !! "yarn.lock" with
                                  | Some _ => "yarn"
                                  | None => "npm"
                                  end
                        end in
  let install := sh cmd probe.2 in
  let t := (sh "npx husky init" install.2).2 in
  probe.1 = true ∧ is_Some (probe.2 !! "package.json") ∧ install.1 = true ∧
  Forall (entry_ready templates t) filesToCopy ∧
  ∃ m mode, t !! "package.json" = Some (File (Json m) mode) ∧ patchable m = true.
Proof.
  cbv zeta. rewrite run_unfold. unfold steps.
  pose proof (checkPrerequisites_eval sh (World (tree w) (trace w ++ [Log SettingUp])))
    as Hc. cbv zeta in Hc. cbn [tree trace] in Hc.
  destruct (sh "git rev-parse --git-dir" (tree w)) as [[] t0] eqn:Eg; cbn [fst snd] in *.
  2:{ by rewrite (bind_Throw _ _ _ _ _ Hc). }
  destruct (t0 !! "package.json") as [n|] eqn:Em.
  2:{ by rewrite (bind_Throw _ _ _ _ _ Hc). }
  rewrite (bind_Ok _ _ _ _ _ Hc). clear Hc.
  match goal with |- context [bind (installDependencies sh) _ ?w1] =>
    pose proof (installDependencies_eval sh w1) as Hi end.
  cbv zeta in Hi. cbn [tree trace] in Hi.
  destruct (sh (installCmd _) t0) as [[] t1] eqn:Ei; cbn [fst snd] in *.
  2:{ by rewrite (bind_Throw _ _ _ _ _ Hi). }
  rewrite (bind_Ok _ _ _ _ _ Hi). clear Hi.
  match goal with |- context [bind (initializeHusky sh) _ ?w2] =>
    pose proof (initializeHusky_eval sh w2) as Hh end.
  cbv zeta in Hh. cbn [tree trace] in Hh.
  rewrite (bind_Ok _ _ _ _ _ Hh). clear Hh.
  match goal with |- context [bind (copyConfigFiles templates) ?k ?w3] =>
    pose proof (materialize_and_patch_Ok w3) as Hrest;
    destruct (bind (copyConfigFiles templates) k w3) as [[[]|e] w'] eqn:H
  end; cbn [fst tree] in *; [|done].
  intros _. destruct (Hrest w' eq_refl) as [Hready Hm].
  split_and!; [done|by eexists|done|done|done].
Qed.

End Success.

Lemma run_succeeds_only_if_witness :
  (sh_ok "git rev-parse --git-dir" (project manifest_x)).1 = true ∧
  is_Some ((sh_ok "git rev-parse --git-dir" (project manifest_x)).2 !! "package.json") ∧
  (sh_ok "npm install --save-dev husky lint-staged @commitlint/cli @commitlint/config-conventional commitizen cz-conventional-changelog prettier"
     (project manifest_x)).1 = true ∧
  Forall (entry_ready sample_templates (project manifest_x)) filesToCopy ∧
  ∃ m mode, project manifest_x !! "package.json" = Some (File (Json m) mode) ∧
            patchable m = true.
Proof.
  apply (run_succeeds_only_if sh_ok sample_templates (World (project manifest_x) [])).
  vm_compute. reflexivity.
Defined.

(** ** Doing a step twice *)

(** X15. Materializing again changes nothing: after a successful
    [copyConfigFiles] a second one succeeds, leaves the tree as the first
    left it, copies the three hooks again and skips the other five
    entries. *)
Theorem copyConfigFiles_twice templates (w w1 : world) :
  copyConfigFiles templates w = (Ok tt, w1) →
  ∃ w2,
    copyConfigFiles templates w1 = (Ok tt, w2) ∧
    tree w2 = tree w1 ∧
    trace w2
    = (trace w1 ++
       [ Log CopyingFiles;
         Log (Skipped ".lintstagedrc.js");
         Log (Skipped "commitlint.config.js");
         Log (Skipped ".nvmrc");
         Log (Skipped ".vscode/settings.json");
         Log (Skipped ".vscode/extensions.json");
         CopyFile ".husky/pre-commit" ".husky/pre-commit";
         Chmod ".husky/pre-commit" 493%N;
         Log (Updated ".husky/pre-commit");
         CopyFile ".husky/pre-push" ".husky/pre-push";
         Chmod ".husky/pre-push" 493%N;
         Log (Updated ".husky/pre-push");
         CopyFile ".husky/commit-msg" ".husky/commit-msg";
         Chmod ".husky/commit-msg" 493%N;
         Log (Updated ".husky/commit-msg");
         Log FilesCopied ])%list.
Proof.
  intros H. pose proof (copyConfigFiles_settles templates w w1 H) as Hp.
  destruct w1 as [t1 tr1]. cbn [tree trace] in *.
  rewrite (copyConfigFiles_present templates t1 tr1 Hp). eauto.
Qed.

Lemma copyConfigFiles_twice_witness :
  ∃ w2,
    copyConfigFiles sample_templates
      (copyConfigFiles sample_templates (World project_with_files [])).2 = (Ok tt, w2) ∧
    tree w2 = tree (copyConfigFiles sample_templates (World project_with_files [])).2 ∧
    trace w2
    = (trace (copyConfigFiles sample_templates (World project_with_files [])).2 ++
       [ Log CopyingFiles;
         Log (Skipped ".lintstagedrc.js");
         Log (Skipped "commitlint.config.js");
         Log (Skipped ".nvmrc");
         Log (Skipped ".vscode/settings.json");
         Log (Skipped ".vscode/extensions.json");
         CopyFile ".husky/pre-commit" ".husky/pre-commit";
         Chmod ".husky/pre-commit" 493%N;
         Log (Updated ".husky/pre-commit");
         CopyFile ".husky/pre-push" ".husky/pre-push";
         Chmod ".husky/pre-push" 493%N;
         Log (Updated ".husky/pre-push");
         CopyFile ".husky/commit-msg" ".husky/commit-msg";
         Chmod ".husky/commit-msg" 493%N;
         Log (Updated ".husky/commit-msg");
         Log FilesCopied ])%list.
Proof.
  apply (copyConfigFiles_twice sample_templates (World project_with_files [])).
  vm_compute. reflexivity.
Defined.

Lemma survives_or_default old d :
  survives old = true → truthy (Some (stringify d)) = true →
  survives (or_default old d) = true.
Proof.
  intros Ho Hd. unfold or_default. destruct (truthy old); [done|].
  unfold survives. cbn [fmap option_fmap option_map]. rewrite Hd.
  by destruct (truthy (Some d)).
Qed.

(** After a patch step that went through on a sound manifest, the manifest
    file holds both scripts and a [config] that can take a property. *)
Lemma updatePackageJson_settles w w1 m mode :
  tree w !! "package.json" = Some (File (Json m) mode) →
  manifest_sound m = true →
  updatePackageJson w = (Ok tt, w1) →
  ∃ m1, tree w1 !! "package.json" = Some (File (Json m1) mode) ∧
        scripts_settled m1 = true ∧ config_ok m1 = true.
Proof.
  intros Hm Hsound H. unfold manifest_sound in Hsound.
  apply andb_prop in Hsound as [[Hshape Sp]%andb_prop Sc].
  destruct (updatePackageJson_spec _ _ _ _ Hm H) as (m' & added & logs & Hpm & _ & Ht & _).
  destruct (patchManifest_config _ _ _ _ _ Hpm) as [Hc0 Hc'].
  pose proof (patchManifest_effect _ _ _ _ _ Hpm) as (_ & _ & _ & (Vp & Vc & _) & _).
  apply patchManifest_spec in Hpm as (_ & _ & _ & _ & _ & Hadd & Hset).
  rewrite Ht. destruct added.
  - exists (stringify m'). rewrite lookup_insert_eq. split; [done|].
    specialize (Hset Hshape). split.
    + apply scripts_settled_stringify; [done|rewrite Vp|rewrite Vc];
        by apply survives_or_default.
    + apply config_ok_stringify; [|done].
      unfold scripts_settled in Hset. by destruct m'.
  - exists m. split; [done|]. symmetry in Hadd.
    apply negb_false_iff, andb_prop in Hadd as [Hp1 Hp2].
    split; [by apply scripts_settled_of_shape|done].
Qed.

(** X16. Patching again changes nothing: after a successful patch step on a
    manifest of the documented shape whose scripts, when set, are still
    set once written (no number beyond the range of a double, which would
    be written as [null]), a second one succeeds, leaves the tree as the
    first left it, and does nothing but log. *)
Theorem updatePackageJson_twice (w w1 : world) m mode :
  tree w !! "package.json" = Some (File (Json m) mode) →
  manifest_sound m = true →
  updatePackageJson w = (Ok tt, w1) →
  ∃ w2,
    updatePackageJson w1 = (Ok tt, w2) ∧
    tree w2 = tree w1 ∧
    ∃ evs, trace w2 = (trace w1 ++ evs)%list ∧ forallb is_patch_log evs = true.
Proof.
  intros Hm Hsound H.
  destruct (updatePackageJson_settles _ _ _ _ Hm Hsound H) as (m1 & Hm1 & Hs1 & Hc1).
  destruct (updatePackageJson_settled_Ok w1 m1 mode Hm1 Hs1 Hc1) as [w2 H2].
  exists w2. split; [done|].
  apply scripts_settled_truthy in Hs1 as [Hp Hc].
  by apply (updatePackageJson_settled w1 w2 m1 mode).
Qed.

Lemma updatePackageJson_twice_witness :
  ∃ w2,
    updatePackageJson (updatePackageJson (World (project manifest_own) [])).2 = (Ok tt, w2) ∧
    tree w2 = tree (updatePackageJson (World (project manifest_own) [])).2 ∧
    ∃ evs,
      trace w2 = (trace (updatePackageJson (World (project manifest_own) [])).2 ++ evs)%list ∧
      forallb is_patch_log evs = true.
Proof.
  apply (updatePackageJson_twice (World (project manifest_own) [])
           (updatePackageJson (World (project manifest_own) [])).2 manifest_own 420%N).
  - reflexivity.
  - reflexivity.
  - vm_compute. reflexivity.
Defined.


(** * End-to-end properties *)

Lemma delegated_Ok sh w wc :
  delegated sh w = (Ok tt, wc) →
  ∃ wa wb,
    checkPrerequisites sh (World (tree w) (trace w ++ [Log SettingUp])) = (Ok tt, wa) ∧
    installDependencies sh wa = (Ok tt, wb) ∧
    initializeHusky sh wb = (Ok tt, wc).
Proof.
  unfold delegated. intros H.
  apply bind_Ok_inv in H as ([] & wa & Ha & H).
  apply bind_Ok_inv in H as ([] & wb & Hb & Hc). eauto.
Qed.

(** A run with exit code 0 is its delegated part, the materialization and
    the patch step, one after the other. *)
Lemma run_Ok_delegated sh templates w0 wc w1 :
  delegated sh w0 = (Ok tt, wc) →
  run sh templates w0 = (0, w1) →
  ∃ wd we,
    copyConfigFiles templates wc = (Ok tt, wd) ∧
    updatePackageJson wd = (Ok tt, we) ∧
    tree wd !! "package.json" = tree wc !! "package.json" ∧
    w1 = World (tree we) (trace we ++ [Log SetupComplete]).
Proof.
  intros Hdel Hrun.
  apply run_Ok in Hrun as (wa & wb & wc' & wd & we & Ha & Hb & Hc & Hd & He & ->).
  apply delegated_Ok in Hdel as (wa' & wb' & Ha' & Hb' & Hc').
  rewrite Ha in Ha'. injection Ha' as <-.
  rewrite Hb in Hb'. injection Hb' as <-.
  rewrite Hc in Hc'. injection Hc' as <-.
  exists wd, we. split_and!; try done.
  pose proof (copyConfigFiles_outside templates wc' "package.json"
                materialized_not_manifest) as Hf.
  by rewrite Hd in Hf.
Qed.

(** C5. Starting from a manifest that is exactly [{"name":"x"}], which the
    delegated commands have changed as the tools do (packages recorded
    under [devDependencies], the [prepare] script set to ["husky"]), a run
    with exit code 0 writes the manifest back and leaves it on disk with
    the four fields set, and leaves the eight destinations in existence,
    the three hooks among them as executable files. *)
Theorem run_on_minimal_manifest sh templates (w0 wc w1 : world) m mode0 mode :
  tree w0 !! "package.json" = Some (File (Json manifest_x) mode0) →
  delegated sh w0 = (Ok tt, wc) →
  tree wc !! "package.json" = Some (File (Json m) mode) →
  tooled manifest_x m →
  run sh templates w0 = (0, w1) →
  ∃ m1 : value,
    tree w1 !! "package.json" = Some (File (Json m1) mode) ∧
    WriteJson "package.json" m1 ∈ trace w1 ∧
    field (field (Some m1) "scripts") "prepare" = Some (VStr "husky") ∧
    field (field (Some m1) "scripts") "commit" = Some (VStr "cz") ∧
    field (field (field (Some m1) "config") "commitizen") "path"
      = Some (VStr "cz-conventional-changelog") ∧
    field (Some m1) "type" = Some (VStr "module") ∧
    length filesToCopy = 8 ∧
    NoDup (dest <$> filesToCopy) ∧
    (∀ file, file ∈ filesToCopy → is_Some (tree w1 !! dest file)) ∧
    length (filter (λ file, isHook file = true) filesToCopy) = 3 ∧
    (∀ file, file ∈ filesToCopy → isHook file = true →
       ∃ c mode', tree w1 !! dest file = Some (File c mode') ∧
                  executable mode' = true).
Proof.
  intros _ Hdel Hm (Hshape & Htop & Hsub & Hprep) Hrun.
  pose proof (run_Ok_present _ _ _ _ Hrun) as Hpresent.
  destruct (run_Ok_delegated _ _ _ _ _ Hdel Hrun) as (wd & we & _ & He & Hpj & ->).
  rewrite Hm in Hpj. cbn [tree trace] in *.
  assert (Ne : ∀ x y : string, x ≠ y → x ∉ [y])
    by (intros x y Hxy ?%list_elem_of_singleton; done).
  assert (Fc : field (Some m) "config" = None).
  { rewrite (Htop "config"); [done|]. rewrite !not_elem_of_cons.
    split_and!; try done. apply not_elem_of_nil. }
  assert (Ft : field (Some m) "type" = None).
  { rewrite (Htop "type"); [done|]. rewrite !not_elem_of_cons.
    split_and!; try done. apply not_elem_of_nil. }
  assert (Fk : field (field (Some m) "scripts") "commit" = None)
    by (by rewrite (Hsub "commit") by (by apply Ne)).
  assert (Fp : or_default (field (field (Some m) "scripts") "prepare") (VStr "husky")
               = Some (VStr "husky"))
    by (destruct Hprep as [E|E]; rewrite E; reflexivity).
  destruct (updatePackageJson_written wd we m mode Hpj Hshape) as
    (m2 & Hm2 & (Vp & Vc & Vz & Vt) & _); [by rewrite Fc|by rewrite Fk, andb_false_r|done|].
  destruct (updatePackageJson_spec _ _ _ _ Hpj He)
    as (m' & added & logs & Hpm & _ & Ht & Htr).
  apply patchManifest_spec in Hpm as (_ & _ & _ & _ & _ & Hadd & _).
  rewrite Fk, andb_false_r in Hadd. cbn [negb] in Hadd. subst added.
  assert (m2 = stringify m') as ->.
  { rewrite Ht, lookup_insert_eq in Hm2. by injection Hm2. }
  exists (stringify m'). split_and!; try reflexivity.
  - done.
  - rewrite Htr, !elem_of_app, !list_elem_of_singleton. auto 10.
  - by rewrite Vp, Fp.
  - by rewrite Vc, Fk.
  - by rewrite Vz, Fc.
  - by rewrite Vt, Ft.
  - apply filesToCopy_NoDup.
  - intros file Hin. destruct (Hpresent file Hin) as [_ Hf].
    destruct (isHook file); [|done]. destruct Hf as (c & m0 & _ & ->). eauto.
  - intros file Hin Hh. destruct (Hpresent file Hin) as [_ Hf].
    rewrite Hh in Hf. destruct Hf as (c & m0 & _ & ->). eauto.
Qed.

Lemma run_on_minimal_manifest_witness :
  ∃ m1 : value,
    tree once !! "package.json" = Some (File (Json m1) 420%N) ∧
    WriteJson "package.json" m1 ∈ trace once ∧
    field (field (Some m1) "scripts") "prepare" = Some (VStr "husky") ∧
    field (field (Some m1) "scripts") "commit" = Some (VStr "cz") ∧
    field (field (field (Some m1) "config") "commitizen") "path"
      = Some (VStr "cz-conventional-changelog") ∧
    field (Some m1) "type" = Some (VStr "module") ∧
    length filesToCopy = 8 ∧
    NoDup (dest <$> filesToCopy) ∧
    (∀ file, file ∈ filesToCopy → is_Some (tree once !! dest file)) ∧
    length (filter (λ file, isHook file = true) filesToCopy) = 3 ∧
    (∀ file, file ∈ filesToCopy → isHook file = true →
       ∃ c mode', tree once !! dest file = Some (File c mode') ∧
                  executable mode' = true).
Proof.
  apply (run_on_minimal_manifest sh_tools sample_templates
           fresh (delegated sh_tools fresh).2 once manifest_tooled 420%N 420%N).
  - reflexivity.
  - vm_compute. reflexivity.
  - vm_compute. reflexivity.
  - split_and!.
    + reflexivity.
    + intros k [Hd [Hs _]%not_elem_of_cons]%not_elem_of_cons.
      unfold field, manifest_tooled, manifest_x. cbn [get_prop own_get].
      destruct (String.eqb_spec "name" k); [done|].
      destruct (String.eqb_spec "devDependencies" k); [done|].
      by destruct (String.eqb_spec "scripts" k).
    + intros k [Hp _]%not_elem_of_cons.
      change (field (Some manifest_x) "scripts") with (@None value).
      change (field (Some manifest_tooled) "scripts")
        with (Some (VObj [ ("prepare", VStr "husky") ])).
      unfold field. cbn [get_prop own_get].
      by destruct (String.eqb_spec "prepare" k).
    + by right.
  - vm_compute. reflexivity.
Defined.

(** ** Running twice *)

Lemma settled_paths_cover file :
  file ∈ filesToCopy →
  (dirname (dest file) = "." ∨
   (dirname (dest file) ≠ "." ∧ dirname (dest file) ∈ settled_paths)) ∧
  (isHook file = false → dest file ∈ settled_paths).
Proof.
  unfold filesToCopy. rewrite !elem_of_cons, elem_of_nil.
  intros H. destruct_or!; try done; subst file; vm_compute; split;
    first [ by left
          | right; split; [done|by repeat constructor]
          | intros _; by repeat constructor
          | by intros [=] ].
Qed.

Section Again.
Variable sh : string → gmap string node → bool * gmap string node.
Variable templates : string → option (content * N).

Lemma entry_standing_touches file F w w' :
  file ∈ filesToCopy →
  touches [".vscode"; ".husky"] F w w' →
  dest file ∉ F → dirname (dest file) ∉ F →
  entry_standing templates file (tree w) → entry_standing templates file (tree w').
Proof.
  intros Hin T Hdest Hdir [Hd Hf]. split.
  - destruct Hd as [?|Hd]; [by left|right]. by apply (touches_stable _ _ _ _ _ _ T).
  - by rewrite (touches_outside _ _ _ _ _ T (filesToCopy_not_dirs _ Hin) Hdest).
Qed.

(** The round of an entry that is standing rewrites a hook and skips any
    other entry. *)
Lemma round_standing file t tr :
  shallow file →
  entry_standing templates file t →
  ∃ t', copyConfigFile templates file (World t tr)
        = (Ok tt, World t' (tr ++ entry_events file)).
Proof.
  intros [Hd Hne] [Hdir Hfile].
  assert (ensureDir (dirname (dest file)) (World t tr) = (Ok tt, World t tr)) as He.
  { rewrite (ensureDir_shallow_eval _ _ Hd). cbn [tree].
    destruct Hdir as [->|Hdir]; [done|]. rewrite Hdir.
    by destruct (String.eqb _ _). }
  rewrite (round_after_dir templates _ _ _ He). cbn [tree trace]. unfold entry_events.
  destruct (isHook file).
  - destruct Hfile as [[[c m] Ht] Hnd]. rewrite Ht.
    destruct (t !! dest file) as [[|c0 m0]|]; [done|eauto..].
  - destruct Hfile as [n Hn]. rewrite Hn. eauto.
Qed.

Lemma rounds_standing l t tr :
  (∀ f, f ∈ l → f ∈ filesToCopy) →
  NoDup (dest <$> l) →
  (∀ f, f ∈ l → entry_standing templates f t) →
  ∃ t', for_of l (copyConfigFile templates) (World t tr)
        = (Ok tt, World t' (tr ++ concat (map entry_events l))).
Proof.
  revert t tr. induction l as [|f0 r IH]; intros t tr Hsub Hnd Hall;
    cbn [for_of map concat].
  - exists t. unfold ret. by rewrite app_nil_r.
  - rewrite fmap_cons in Hnd. apply NoDup_cons in Hnd as [Hnotin Hnd].
    assert (Hsub' : ∀ f, f ∈ r → f ∈ filesToCopy)
      by (intros f Hf; apply Hsub; by right).
    assert (Hin0 : f0 ∈ filesToCopy) by (apply Hsub; by left).
    destruct (round_standing f0 t tr (filesToCopy_shallow _ Hin0)) as [t1 H0];
      [apply Hall; by left|].
    rewrite (bind_Ok _ _ _ _ _ H0).
    destruct (IH t1 (tr ++ entry_events f0)%list Hsub' Hnd) as [t' H].
    { intros f Hf.
      pose proof (touches_round templates f0 Hin0 (World t tr)) as T.
      rewrite H0 in T. cbn [snd] in T.
      apply (entry_standing_touches f [dest f0] (World t tr) _ (Hsub' f Hf) T).
      - intros Heq%list_elem_of_singleton. apply Hnotin. rewrite <- Heq.
        by apply list_elem_of_fmap_2.
      - intros Heq%list_elem_of_singleton.
        by apply (filesToCopy_dirs f f0 (Hsub' f Hf) Hin0).
      - apply Hall. by right. }
    exists t'. rewrite H. by rewrite <- app_assoc.
Qed.

Lemma copyConfigFiles_standing t tr :
  (∀ file, file ∈ filesToCopy → entry_standing templates file t) →
  ∃ t', copyConfigFiles templates (World t tr)
        = (Ok tt,
           World t' (tr ++ [Log CopyingFiles] ++ concat (map entry_events filesToCopy)
                        ++ [Log FilesCopied])).
Proof.
  intros Hall. unfold copyConfigFiles.
  unfold bind at 1. unfold console_log at 1, emit. cbn [tree trace].
  destruct (rounds_standing filesToCopy t (tr ++ [Log CopyingFiles])
              (λ _ Hf, Hf) filesToCopy_NoDup Hall) as [t' H].
  rewrite (bind_Ok _ _ _ _ _ H). exists t'.
  unfold console_log, emit. cbn [tree trace]. by rewrite <- !app_assoc.
Qed.

Lemma copyConfigFiles_results w w' :
  copyConfigFiles templates w = (Ok tt, w') →
  ∀ file, file ∈ filesToCopy → entry_result templates (tree w) file (tree w').
Proof.
  intros H. unfold copyConfigFiles in H.
  apply bind_Ok_inv in H as ([] & w1 & Hl & H). apply console_log_inv in Hl as [_ ->].
  apply bind_Ok_inv in H as ([] & w2 & Hr & H). apply console_log_inv in H as [_ ->].
  by destruct (rounds_outcome templates filesToCopy _ w2 (λ _ Hf, Hf)
                 filesToCopy_NoDup Hr) as [Hall _].
Qed.

(** C8 (amended). Take a first run with exit code 0 in which the manifest
    the patch step finds, as the delegated commands left it, has the
    documented shape and scripts that are still set once written.  A
    second run whose delegated commands succeed again and leave the
    manifest, the two directories and the five files that are not hooks as
    the first run left them, and no directory where a hook goes, ends with
    exit code 0 too and leaves every tracked path as the first left it; its
    only effects on the file system are the three hooks copied and made
    executable again, it reports the five other files as skipped and the
    hooks as updated, and it does not write the manifest. *)
Theorem second_run_changes_nothing (w0 wc0 w1 wc : world) m0 mode :
  delegated sh w0 = (Ok tt, wc0) →
  tree wc0 !! "package.json" = Some (File (Json m0) mode) →
  manifest_sound m0 = true →
  run sh templates w0 = (0, w1) →
  delegated sh w1 = (Ok tt, wc) →
  Forall (λ p, tree wc !! p = tree w1 !! p) settled_paths →
  Forall (λ file, tree wc !! dest file ≠ Some Dir) hooks →
  ∃ w2,
    run sh templates w1 = (0, w2) ∧
    (∀ p, p ∈ tracked → tree w2 !! p = tree w1 !! p) ∧
    ∃ evs,
      trace w2 = (trace w1 ++ evs)%list ∧
      filter (λ e, is_effect e = true) evs
      = [ CopyFile ".husky/pre-commit" ".husky/pre-commit";
          Chmod ".husky/pre-commit" 493%N;
          CopyFile ".husky/pre-push" ".husky/pre-push";
          Chmod ".husky/pre-push" 493%N;
          CopyFile ".husky/commit-msg" ".husky/commit-msg";
          Chmod ".husky/commit-msg" 493%N ] ∧
      filter (λ e, is_file_report e = true) evs
      = [ Log (Skipped ".lintstagedrc.js");
          Log (Skipped "commitlint.config.js");
          Log (Skipped ".nvmrc");
          Log (Skipped ".vscode/settings.json");
          Log (Skipped ".vscode/extensions.json");
          Log (Updated ".husky/pre-commit");
          Log (Updated ".husky/pre-push");
          Log (Updated ".husky/commit-msg") ].
Proof.
  intros Hdel0 Hm0 Hsound Hrun1 Hdel Hkept Hhooks.
  rewrite Forall_forall in Hkept. rewrite Forall_forall in Hhooks.
  pose proof (run_Ok_present _ _ _ _ Hrun1) as Hpresent.
  (* the manifest after the first run *)
  destruct (run_Ok_delegated _ _ _ _ _ Hdel0 Hrun1) as (wd0 & we0 & _ & He0 & Hpj0 & ->).
  rewrite Hm0 in Hpj0.
  destruct (updatePackageJson_settles _ _ _ _ Hpj0 Hsound He0) as (m1 & Hm1 & Hs1 & Hc1).
  cbn [tree trace] in *.
  (* the tree the second materialization starts from *)
  assert (Hstanding : ∀ file, file ∈ filesToCopy →
                              entry_standing templates file (tree wc)).
  { intros file Hin. destruct (Hpresent file Hin) as [Hdir Hfile].
    destruct (settled_paths_cover file Hin) as [Hcd Hcf]. split.
    - destruct Hcd as [?|[Hne Hcd]]; [by left|right].
      rewrite (Hkept _ Hcd). by destruct Hdir.
    - destruct (isHook file) eqn:Hh.
      + destruct Hfile as (c & m & Ht & _). split; [by rewrite Ht|].
        apply Hhooks. by apply list_elem_of_filter.
      + by rewrite (Hkept _ (Hcf eq_refl)). }
  pose proof Hdel as Hdel'. apply delegated_Ok in Hdel' as (wa & wb & Ha & Hb & Hc).
  destruct wc as [tc trc]. cbn [tree] in *.
  destruct (copyConfigFiles_standing tc trc Hstanding) as [t' Hd].
  pose proof (copyConfigFiles_results _ _ Hd) as Hres. cbn [tree] in Hres.
  pose proof (touches_copyConfigFiles templates (World tc trc)) as T.
  rewrite Hd in T. cbn [snd] in T.
  assert (Hpj : t' !! "package.json" = Some (File (Json m1) mode)).
  { pose proof (copyConfigFiles_outside templates (World tc trc) "package.json"
                  materialized_not_manifest) as E.
    rewrite Hd in E. cbn [snd tree] in E. rewrite E, <- Hm1. apply Hkept. by left. }
  destruct (updatePackageJson_settled_Ok
              (World t' (trc ++ [Log CopyingFiles]
                         ++ concat (map entry_events filesToCopy)
                         ++ [Log FilesCopied]))
              m1 mode Hpj Hs1 Hc1) as [we He].
  pose proof Hs1 as [Hp1 Hp2]%scripts_settled_truthy.
  destruct (updatePackageJson_settled (World t' _) we m1 mode Hpj Hp1 Hp2 He)
    as [Ht (plogs & Htr & Hl)].
  cbn [tree trace] in *.
  exists (World (tree we) (trace we ++ [Log SetupComplete])). split_and!.
  - rewrite run_unfold. unfold steps.
    rewrite (bind_Ok _ _ _ _ _ Ha), (bind_Ok _ _ _ _ _ Hb), (bind_Ok _ _ _ _ _ Hc),
      (bind_Ok _ _ _ _ _ Hd), (bind_Ok _ _ _ _ _ He).
    reflexivity.
  - cbn [tree]. rewrite Ht. intros p [->|[->|[->|Hp]%elem_of_cons]%elem_of_cons]%elem_of_cons.
    + by rewrite Hpj.
    + destruct (Hpresent (Entry ".vscode/settings.json" ".vscode/settings.json"))
        as [[[=]|Hdir] _]; [set_solver|].
      change (dirname _) with ".vscode" in Hdir. rewrite Hdir.
      apply (touches_stable _ _ _ _ _ _ T).
      * intros (f & Heq & Hf)%list_elem_of_fmap_1.
        by apply (filesToCopy_not_dirs f Hf); rewrite <- Heq; left.
      * cbn [tree]. rewrite <- Hdir. apply Hkept. right. by left.
    + destruct (Hpresent (Entry ".husky/pre-commit" ".husky/pre-commit"))
        as [[[=]|Hdir] _]; [set_solver|].
      change (dirname _) with ".husky" in Hdir. rewrite Hdir.
      apply (touches_stable _ _ _ _ _ _ T).
      * intros (f & Heq & Hf)%list_elem_of_fmap_1.
        by apply (filesToCopy_not_dirs f Hf); rewrite <- Heq; right; left.
      * cbn [tree]. rewrite <- Hdir. apply Hkept. right. right. by left.
    + apply list_elem_of_fmap_1 in Hp as (file & -> & Hin).
      specialize (Hres file Hin). destruct (Hpresent file Hin) as [_ Hfile].
      destruct (settled_paths_cover file Hin) as [_ Hcf].
      unfold entry_result in Hres. destruct (isHook file).
      * destruct Hres as (c & m & Hc1' & ->). destruct Hfile as (c' & m' & Hc2' & ->).
        congruence.
      * rewrite (Hkept _ (Hcf eq_refl)) in Hres. destruct Hfile as [n Hn].
        rewrite Hn in Hres. by rewrite Hres, Hn.
  - apply checkPrerequisites_Ok in Ha as [_ Tra].
    apply installDependencies_Ok in Hb as (cmd & _ & Trb).
    apply initializeHusky_Ok in Hc as (b & _ & Trc).
    cbn [tree trace] in *.
    exists ([Log SettingUp]
            ++ [Log CheckingPrerequisites; Exec "git rev-parse --git-dir";
                Log PrerequisitesPassed]
            ++ [Log InstallingDependencies; Exec cmd; Log DependenciesInstalled]
            ++ [Log InitializingHusky; Exec "npx husky init";
                Log (if b then HuskyInitialized else HuskyMayBeInitialized)]
            ++ ([Log CopyingFiles] ++ concat (map entry_events filesToCopy)
                ++ [Log FilesCopied])
            ++ plogs ++ [Log SetupComplete])%list.
    destruct (patch_logs_filtered _ Hl) as [F1 F2]. split_and!.
    + rewrite Htr, Trc, Trb, Tra. by rewrite <- !app_assoc.
    + rewrite !filter_app, F1. by destruct b.
    + rewrite !filter_app, F2. by destruct b.
Qed.

End Again.

Lemma second_run_changes_nothing_witness :
  ∃ w2,
    run sh_tools sample_templates once = (0, w2) ∧
    (∀ p, p ∈ tracked → tree w2 !! p = tree once !! p) ∧
    ∃ evs,
      trace w2 = (trace once ++ evs)%list ∧
      filter (λ e, is_effect e = true) evs
      = [ CopyFile ".husky/pre-commit" ".husky/pre-commit";
          Chmod ".husky/pre-commit" 493%N;
          CopyFile ".husky/pre-push" ".husky/pre-push";
          Chmod ".husky/pre-push" 493%N;
          CopyFile ".husky/commit-msg" ".husky/commit-msg";
          Chmod ".husky/commit-msg" 493%N ] ∧
      filter (λ e, is_file_report e = true) evs
      = [ Log (Skipped ".lintstagedrc.js");
          Log (Skipped "commitlint.config.js");
          Log (Skipped ".nvmrc");
          Log (Skipped ".vscode/settings.json");
          Log (Skipped ".vscode/extensions.json");
          Log (Updated ".husky/pre-commit");
          Log (Updated ".husky/pre-push");
          Log (Updated ".husky/commit-msg") ].
Proof.
  apply (second_run_changes_nothing sh_tools sample_templates
           fresh (delegated sh_tools fresh).2 once (delegated sh_tools once).2
           manifest_tooled 420%N).
  - vm_compute. reflexivity.
  - vm_compute. reflexivity.
  - reflexivity.
  - vm_compute. reflexivity.
  - vm_compute. reflexivity.
  - assert (settled_paths
            = [ "package.json"; ".vscode"; ".husky"; ".lintstagedrc.js";
                "commitlint.config.js"; ".nvmrc"; ".vscode/settings.json";
                ".vscode/extensions.json" ]) as -> by reflexivity.
    repeat (apply Forall_cons; split; [vm_compute; reflexivity|]). constructor.
  - assert (hooks
            = [ Entry ".husky/pre-commit" ".husky/pre-commit";
                Entry ".husky/pre-push" ".husky/pre-push";
                Entry ".husky/commit-msg" ".husky/commit-msg" ]) as -> by reflexivity.
    repeat (apply Forall_cons; split; [vm_compute; discriminate|]). constructor.
Defined.

(** C8 as stated fails on a manifest whose [scripts] is an array: the
    scripts the patch assigns on it are not written (an array is written
    without its named properties), so the second run finds them missing
    again and writes the manifest once more, with the same content. *)
Lemma second_run_writes_manifest_again :
  run sh_tools sample_templates (World (project manifest_array_scripts) [])
  = (0, array_once) ∧
  run sh_tools sample_templates array_once = (0, array_twice) ∧
  tree array_twice !! "package.json" = tree array_once !! "package.json" ∧
  trace array_twice
  = (trace array_once ++ drop (length (trace array_once)) (trace array_twice))%list ∧
  filter (λ e, is_effect e = true) (drop (length (trace array_once)) (trace array_twice))
  = [ CopyFile ".husky/pre-commit" ".husky/pre-commit";
      Chmod ".husky/pre-commit" 493%N;
      CopyFile ".husky/pre-push" ".husky/pre-push";
      Chmod ".husky/pre-push" 493%N;
      CopyFile ".husky/commit-msg" ".husky/commit-msg";
      Chmod ".husky/commit-msg" 493%N;
      WriteJson "package.json"
        (VObj [ ("name", VStr "x");
                ("scripts", VArr [] []);
                ("devDependencies", VObj [ ("husky", VStr "^9.1.7") ]);
                ("config", VObj [ ("commitizen", commitizenConfig) ]);
                ("type", VStr "module") ]) ].
Proof. split_and!; vm_compute; reflexivity. Qed.
